(** * w3bP0ng: the simulation core, embedded and verified

    The game's numbers are JavaScript numbers.  They are idealised here as
    real numbers: every finite value is an [R], arithmetic is exact.  What
    has no real value (a quotient by zero, which IEEE arithmetic turns into
    an infinity or a NaN) is made explicit: [jsdiv] returns [None]. *)

From Stdlib Require Import Reals Lra Lia List Bool ZArith String.
Import ListNotations.
Open Scope R_scope.

(** ** Comparisons of numbers as booleans *)

Definition ltb (a b : R) : bool := if Rlt_dec a b then true else false.
Definition leb (a b : R) : bool := if Rle_dec a b then true else false.
Definition eqb (a b : R) : bool := if Req_dec_T a b then true else false.

Notation "a <? b" := (ltb a b) (at level 70, no associativity) : R_scope.
Notation "a <=? b" := (leb a b) (at level 70, no associativity) : R_scope.
Notation "a >? b" := (ltb b a) (at level 70, no associativity) : R_scope.
Notation "a >=? b" := (leb b a) (at level 70, no associativity) : R_scope.
Notation "a =? b" := (eqb a b) (at level 70, no associativity) : R_scope.

(** A quotient is a number only when the divisor is not zero. *)
Definition jsdiv (a b : R) : option R :=
  if b =? 0 then None else Some (a / b).

(** ** engine/types.ts *)

Module Engine.

Record Particle := mkParticle {
  particleX : R;
  particleY : R;
  size : R;
  life : R
}.

Record Ball := mkBall {
  x : R;
  y : R;
  dx : R;
  dy : R;
  radius : R;
  trail : list Particle
}.

Record Paddle := mkPaddle {
  px : R;
  py : R;
  width : R;
  height : R;
  speed : R;
  prevY : R;
  velocity : R
}.

Record PhysicsConfig := mkPhysicsConfig {
  ballSpeedMultiplier : R;
  maxBallSpeed : R;
  minBallSpeed : R;
  paddleInfluence : R;
  bounceAngleFactor : R;
  chaosChance : R;
  chaosIntensity : R
}.

Definition DEFAULT_PHYSICS_CONFIG : PhysicsConfig :=
  {| ballSpeedMultiplier := 11 / 10;
     maxBallSpeed := 15;
     minBallSpeed := 4;
     paddleInfluence := 4 / 10;
     bounceAngleFactor := 35 / 10;
     chaosChance := 25 / 100;
     chaosIntensity := 6 |}.

Record Velocity := mkVelocity {
  vdx : R;
  vdy : R
}.

Definition setVelocity (b : Ball) (vx vy : R) : Ball :=
  {| x := x b; y := y b; dx := vx; dy := vy; radius := radius b;
     trail := trail b |}.

Definition setPosition (b : Ball) (nx ny : R) : Ball :=
  {| x := nx; y := ny; dx := dx b; dy := dy b; radius := radius b;
     trail := trail b |}.

End Engine.

Import Engine.

(** ** The effects of the simulation: randomness, the clock, faults

    [Math.random()] and [Date.now()] read the outside world.  The world is
    an environment holding the two sequences of values these calls return
    and how far each has been consumed.  A computation either returns a
    value and the environment it leaves, or stops with a fault: a number
    that is not finite, a property read on [undefined], or a loop that has
    not ended within the fuel it was given. *)

Record Env := mkEnv {
  randoms : nat -> R;
  nextRandom : nat;
  clock : nat -> R;
  nextClock : nat
}.

Inductive Fault := NonFinite | TypeError | OutOfFuel.

Inductive Res (A : Type) :=
| Ok (a : A) (e : Env)
| Err (f : Fault).
Arguments Ok {A} a e.
Arguments Err {A} f.

Definition M (A : Type) := Env -> Res A.

Definition ret {A} (a : A) : M A := fun e => Ok a e.

Definition bind {A B} (c : M A) (k : A -> M B) : M B :=
  fun e => match c e with
           | Ok a e' => k a e'
           | Err f => Err f
           end.

Definition fail {A} (f : Fault) : M A := fun _ => Err f.

Declare Scope game_scope.
Delimit Scope game_scope with game.
Notation "x <- c ;; k" := (bind c (fun x => k))
  (at level 61, c at next level, right associativity) : game_scope.
Open Scope game_scope.

Definition Math_random : M R :=
  fun e => Ok (randoms e (nextRandom e))
              {| randoms := randoms e; nextRandom := S (nextRandom e);
                 clock := clock e; nextClock := nextClock e |}.

Definition Date_now : M R :=
  fun e => Ok (clock e (nextClock e))
              {| randoms := randoms e; nextRandom := nextRandom e;
                 clock := clock e; nextClock := S (nextClock e) |}.

Definition divide (a b : R) : M R :=
  match jsdiv a b with
  | Some q => ret q
  | None => fail NonFinite
  end.

(** [Math.random()] returns a number in [0, 1). *)
Definition validRandoms (e : Env) : Prop :=
  forall n, 0 <= randoms e n < 1.

(** ** engine/PhysicsEngine.ts *)

Module PhysicsEngine.

Definition calculateBallSpeed (ball : Ball) : R :=
  sqrt (dx ball * dx ball + dy ball * dy ball).

(** The scaled velocity is a pair of numbers only when the multiplier is
    one: a ball at rest has speed 0, the multiplier is a quotient by zero,
    and both products are NaN. *)
Definition applySpeedLimits (ball : Ball) (config : PhysicsConfig)
  : option Velocity :=
  let currentSpeed := calculateBallSpeed ball in
  if currentSpeed <? minBallSpeed config then
    match jsdiv (minBallSpeed config) currentSpeed with
    | Some speedMultiplier =>
        Some {| vdx := dx ball * speedMultiplier;
                vdy := dy ball * speedMultiplier |}
    | None => None
    end
  else if currentSpeed >? maxBallSpeed config then
    match jsdiv (maxBallSpeed config) currentSpeed with
    | Some speedMultiplier =>
        Some {| vdx := dx ball * speedMultiplier;
                vdy := dy ball * speedMultiplier |}
    | None => None
    end
  else Some {| vdx := dx ball; vdy := dy ball |}.

Definition calculatePaddleBounce (ball : Ball)
  (paddleY paddleHeight paddleVelocity : R) (config : PhysicsConfig)
  : M Velocity :=
  let newDx := - dx ball in
  let newDy := dy ball in
  let newDx := newDx * ballSpeedMultiplier config in
  let newDy := newDy * ballSpeedMultiplier config in
  let newDy := newDy + paddleVelocity * paddleInfluence config in
  let paddleCenterY := paddleY + paddleHeight / 2 in
  hitPosition <- divide (y ball - paddleCenterY) (paddleHeight / 2) ;;
  let newDy := newDy + hitPosition * bounceAngleFactor config in
  r <- Math_random ;;
  newDy <- (if r <? chaosChance config
            then r' <- Math_random ;;
                 ret (newDy + (r' - 5 / 10) * chaosIntensity config)
            else ret newDy) ;;
  let newDy := Rmax (- maxBallSpeed config)
                    (Rmin (maxBallSpeed config) newDy) in
  ret {| vdx := newDx; vdy := newDy |}.

(** The loop of [predictBallY]: one unit of fuel per evaluation of the
    loop condition. *)
Fixpoint unfoldReflections (fuel : nat) (canvasHeight predictedY : R)
  : option R :=
  match fuel with
  | O => None
  | S fuel' =>
      if (predictedY <? 0) || (predictedY >? canvasHeight) then
        if predictedY <? 0 then
          unfoldReflections fuel' canvasHeight (- predictedY)
        else if predictedY >? canvasHeight then
          unfoldReflections fuel' canvasHeight (2 * canvasHeight - predictedY)
        else unfoldReflections fuel' canvasHeight predictedY
      else Some predictedY
  end.

Definition predictBallY (fuel : nat) (ball : Ball) (targetX canvasHeight : R)
  : option R :=
  if dx ball =? 0 then Some (y ball)
  else
    let timeToReach := (targetX - x ball) / dx ball in
    let predictedY := y ball + dy ball * timeToReach in
    unfoldReflections fuel canvasHeight predictedY.

(** *** The other functions of the module

    Where a function returns some of the fields of a ball
    ([Pick<Ball, ...>]) the result is a record of those fields.  The
    default values of [initialSpeedX], [initialSpeedY] (6 and 3),
    [speedMultiplier] (1) and [intensity] (2) are what a caller that omits
    the argument passes. *)

Record BallReset := mkBallReset {
  resetX : R;
  resetY : R;
  resetDx : R;
  resetDy : R
}.

Record Position := mkPosition {
  posX : R;
  posY : R
}.

Definition resetBall (canvasWidth canvasHeight initialSpeedX initialSpeedY : R)
  : M BallReset :=
  r1 <- Math_random ;;
  r2 <- Math_random ;;
  ret {| resetX := canvasWidth / 2;
         resetY := canvasHeight / 2;
         resetDx := if r1 >? 5 / 10 then initialSpeedX else - initialSpeedX;
         resetDy := (r2 * (initialSpeedY * 2) - initialSpeedY) * (8 / 10) |}.

Definition updateBallPosition (ball : Ball) (speedMultiplier : R) : Position :=
  {| posX := x ball + dx ball * speedMultiplier;
     posY := y ball + dy ball * speedMultiplier |}.

Definition checkWallCollision (ball : Ball) (canvasHeight : R) : bool :=
  (y ball - radius ball <=? 0) || (y ball + radius ball >=? canvasHeight).

(** The object returned has the one field [dy]. *)
Definition bounceOffWall (ball : Ball) : R := - dy ball.

(** [None] is the [null] of the source. *)
Inductive OutSide := out_left | out_right.

Definition checkBallOutOfBounds (ball : Ball) (canvasWidth : R)
  : option OutSide :=
  if x ball <? 0 then Some out_left
  else if x ball >? canvasWidth then Some out_right
  else None.

Definition updatePaddlePosition (currentY movement paddleHeight canvasHeight : R)
  : R :=
  let newY := currentY + movement in
  Rmax 0 (Rmin (canvasHeight - paddleHeight) newY).

Definition calculatePaddleVelocity (currentY previousY : R) : R :=
  currentY - previousY.

Definition applyChaosEffect (ball : Ball) (intensity : R) : M Velocity :=
  r1 <- Math_random ;;
  r2 <- Math_random ;;
  ret {| vdx := dx ball + (r1 - 5 / 10) * intensity;
         vdy := dy ball + (r2 - 5 / 10) * intensity |}.

End PhysicsEngine.

(** The number of evaluations of the loop condition that are enough for
    [unfoldReflections] started at [predictedY]. *)
Definition reflectionsBound (canvasHeight predictedY : R) : nat :=
  S (Z.to_nat (up (Rabs predictedY / canvasHeight))).

(** ** engine/CollisionDetector.ts *)

Module CollisionDetector.

Record Rectangle := mkRectangle {
  rx : R;
  ry : R;
  rwidth : R;
  rheight : R
}.

Record Circle := mkCircle {
  cx : R;
  cy : R;
  cradius : R
}.

Record Vector2D := mkVector2D {
  vx : R;
  vy : R
}.

(** The optional fields are absent when there is no collision. *)
Record CollisionInfo := mkCollisionInfo {
  collided : bool;
  penetrationDepth : option R;
  normal : option Vector2D;
  contactPoint : option Vector2D
}.

Definition noCollision : CollisionInfo :=
  {| collided := false; penetrationDepth := None;
     normal := None; contactPoint := None |}.

Definition checkCircleRectCollision (circle : Circle) (rect : Rectangle)
  : CollisionInfo :=
  let closestX := Rmax (rx rect) (Rmin (cx circle) (rx rect + rwidth rect)) in
  let closestY := Rmax (ry rect) (Rmin (cy circle) (ry rect + rheight rect)) in
  let distanceX := cx circle - closestX in
  let distanceY := cy circle - closestY in
  let distanceSquared := distanceX * distanceX + distanceY * distanceY in
  let collided := distanceSquared <=? cradius circle * cradius circle in
  if negb collided then noCollision
  else
    let distance := sqrt distanceSquared in
    let penetrationDepth := cradius circle - distance in
    let normalX := distanceX in
    let normalY := distanceY in
    let '(normalX, normalY) :=
      if distance >? 0 then (normalX / distance, normalY / distance)
      else ((if cx circle <? rx rect + rwidth rect / 2 then -1 else 1), 0) in
    {| collided := true;
       penetrationDepth := Some penetrationDepth;
       normal := Some {| vx := normalX; vy := normalY |};
       contactPoint := Some {| vx := closestX; vy := closestY |} |}.

Definition checkCircleCircleCollision (circle1 circle2 : Circle)
  : CollisionInfo :=
  let dx := cx circle2 - cx circle1 in
  let dy := cy circle2 - cy circle1 in
  let distance := sqrt (dx * dx + dy * dy) in
  let combinedRadius := cradius circle1 + cradius circle2 in
  let collided := distance <? combinedRadius in
  if negb collided then noCollision
  else
    let penetrationDepth := combinedRadius - distance in
    let normalX := dx in
    let normalY := dy in
    let '(normalX, normalY) :=
      if distance >? 0 then (normalX / distance, normalY / distance)
      else (1, 0) in
    {| collided := true;
       penetrationDepth := Some penetrationDepth;
       normal := Some {| vx := normalX; vy := normalY |};
       contactPoint := None |}.

(** *** The other functions of the module *)

(** [paddleSizeMultiplier] is 1 when the caller omits it. *)
Definition checkBallPaddleCollision (ball : Ball) (paddle : Paddle)
  (paddleSizeMultiplier : R) : bool :=
  let paddleHeight := height paddle * paddleSizeMultiplier in
  let paddleY :=
    if paddleSizeMultiplier >? 1
    then py paddle - (paddleHeight - height paddle) / 2
    else py paddle in
  let circle := {| cx := x ball; cy := y ball; cradius := radius ball |} in
  let rect := {| rx := px paddle; ry := paddleY;
                 rwidth := width paddle; rheight := paddleHeight |} in
  let result := checkCircleRectCollision circle rect in
  collided result.

Definition checkBallPowerUpCollision (ball : Ball)
  (powerUpX powerUpY powerUpRadius : R) : bool :=
  let dx := x ball - powerUpX in
  let dy := y ball - powerUpY in
  let distance := sqrt (dx * dx + dy * dy) in
  let combinedRadius := radius ball + powerUpRadius in
  distance <? combinedRadius.

Definition isPointInRect (pointX pointY : R) (rect : Rectangle) : bool :=
  (pointX >=? rx rect) && (pointX <=? rx rect + rwidth rect)
  && (pointY >=? ry rect) && (pointY <=? ry rect + rheight rect).

Definition isPointInCircle (pointX pointY : R) (circle : Circle) : bool :=
  let dx := pointX - cx circle in
  let dy := pointY - cy circle in
  let distanceSquared := dx * dx + dy * dy in
  distanceSquared <=? cradius circle * cradius circle.

Definition getCircleBounds (circle : Circle) : Rectangle :=
  {| rx := cx circle - cradius circle;
     ry := cy circle - cradius circle;
     rwidth := cradius circle * 2;
     rheight := cradius circle * 2 |}.

Definition checkAABBCollision (rect1 rect2 : Rectangle) : bool :=
  (rx rect1 <? rx rect2 + rwidth rect2)
  && (rx rect1 + rwidth rect1 >? rx rect2)
  && (ry rect1 <? ry rect2 + rheight rect2)
  && (ry rect1 + rheight rect1 >? ry rect2).

Definition getDistance (x1 y1 x2 y2 : R) : R :=
  let dx := x2 - x1 in
  let dy := y2 - y1 in
  sqrt (dx * dx + dy * dy).

Definition getDistanceSquared (x1 y1 x2 y2 : R) : R :=
  let dx := x2 - x1 in
  let dy := y2 - y1 in
  dx * dx + dy * dy.

(** Length of a vector, to say that a normal is a unit vector. *)
Definition norm (v : Vector2D) : R := sqrt (vx v * vx v + vy v * vy v).

End CollisionDetector.

(** ** ai/AIController.ts *)

Module AIController.

Inductive AIDifficulty := easy | medium | hard.

Record AIConfig := mkAIConfig {
  speed : R;
  reactionTime : R;
  accuracy : R;
  predictionEnabled : bool
}.

Definition getAIConfig (difficulty : AIDifficulty) : AIConfig :=
  match difficulty with
  | easy => {| speed := 55 / 10; reactionTime := 12;
               accuracy := 8 / 10; predictionEnabled := false |}
  | medium => {| speed := 65 / 10; reactionTime := 6;
                 accuracy := 9 / 10; predictionEnabled := true |}
  | hard => {| speed := 75 / 10; reactionTime := 2;
               accuracy := 98 / 100; predictionEnabled := true |}
  end.

(** The loop of [predictBallPosition], as in the physics engine. *)
Fixpoint simulateWallBounces (fuel : nat) (canvasHeight predictedY : R)
  : option R :=
  match fuel with
  | O => None
  | S fuel' =>
      if (predictedY <? 0) || (predictedY >? canvasHeight) then
        if predictedY <? 0 then
          simulateWallBounces fuel' canvasHeight (- predictedY)
        else if predictedY >? canvasHeight then
          simulateWallBounces fuel' canvasHeight (2 * canvasHeight - predictedY)
        else simulateWallBounces fuel' canvasHeight predictedY
      else Some predictedY
  end.

Definition predictBallPosition (fuel : nat) (ball : Ball)
  (targetX canvasHeight : R) : option R :=
  if Engine.dx ball =? 0 then Some (Engine.y ball)
  else
    let timeToReach := (targetX - Engine.x ball) / Engine.dx ball in
    let predictedY := Engine.y ball + Engine.dy ball * timeToReach in
    simulateWallBounces fuel canvasHeight predictedY.

Definition updateAIPaddle (paddle : Paddle) (targetY canvasHeight : R)
  (config : AIConfig) : R :=
  let paddleCenter := py paddle + height paddle / 2 in
  let difference := targetY - paddleCenter in
  if Rabs difference <? 2 then py paddle
  else if difference <? 0 then Rmax 0 (py paddle - speed config)
  else Rmin (canvasHeight - height paddle) (py paddle + speed config).

(** The paddle after one frame of [updateAIPaddle]: the caller stores the
    returned position in the paddle. *)
Definition movePaddleTo (paddle : Paddle) (newY : R) : Paddle :=
  {| px := px paddle; py := newY; width := width paddle;
     height := height paddle; Engine.speed := Engine.speed paddle;
     prevY := prevY paddle; velocity := velocity paddle |}.

(** The paddle position after [n] frames chasing a fixed target. *)
Fixpoint iterateAIPaddle (n : nat) (paddle : Paddle) (targetY canvasHeight : R)
  (config : AIConfig) : R :=
  match n with
  | O => py paddle
  | S n' =>
      let newY := updateAIPaddle paddle targetY canvasHeight config in
      iterateAIPaddle n' (movePaddleTo paddle newY) targetY canvasHeight config
  end.

(** *** The other functions of the module *)

Record AIState := mkAIState {
  targetY : R;
  lastReactionTime : R
}.

Record AIMove := mkAIMove {
  newAIState : AIState;
  newPaddleY : R
}.

Definition calculateAITarget (fuel : nat) (ball : Ball) (paddle : Paddle)
  (canvasHeight : R) (config : AIConfig) : M R :=
  targetY <- (if predictionEnabled config then
                match predictBallPosition fuel ball (px paddle) canvasHeight with
                | Some predictedY => ret predictedY
                | None => fail OutOfFuel
                end
              else ret (Engine.y ball)) ;;
  let maxError := (1 - accuracy config) * 50 in
  r <- Math_random ;;
  let error := (r - 5 / 10) * maxError in
  let targetY := targetY + error in
  ret (Rmax 0 (Rmin canvasHeight targetY)).

Definition shouldReact (currentTime lastReactionTime : R) (config : AIConfig)
  : bool :=
  let timeSinceLastReaction := currentTime - lastReactionTime in
  let reactionDelayMs := reactionTime config * (1667 / 100) in
  timeSinceLastReaction >? reactionDelayMs.

Definition isBallApproaching (ball : Ball) (paddleX : R) : bool :=
  let isRightPaddle := paddleX >? 400 in
  if isRightPaddle then Engine.dx ball >? 0 else Engine.dx ball <? 0.

Definition computeAIMove (fuel : nat) (ball : Ball) (paddle : Paddle)
  (aiState : AIState) (canvasHeight : R) (difficulty : AIDifficulty)
  (currentTime : R) : M AIMove :=
  let config := getAIConfig difficulty in
  if negb (isBallApproaching ball (px paddle)) then
    ret {| newAIState := aiState; newPaddleY := py paddle |}
  else if negb (shouldReact currentTime (lastReactionTime aiState) config) then
    let newY := updateAIPaddle paddle (targetY aiState) canvasHeight config in
    ret {| newAIState := aiState; newPaddleY := newY |}
  else
    newTarget <- calculateAITarget fuel ball paddle canvasHeight config ;;
    let newY := updateAIPaddle paddle newTarget canvasHeight config in
    ret {| newAIState := {| targetY := newTarget;
                            lastReactionTime := currentTime |};
           newPaddleY := newY |}.

End AIController.

(** ** powerups/PowerUpManager.ts *)

Inductive Side := Left | Right.

Inductive PowerUpType := BigPaddle | FastBall | MultiBall | Shield.

(** The hook that runs the game stores one more field, [bobOffset], in the
    objects it spawns; the record has it for both. *)
Record PowerUp := mkPowerUp {
  id : R;
  type : PowerUpType;
  color : string;
  symbol : string;
  pux : R;
  puy : R;
  baseX : R;
  baseY : R;
  rotation : R;
  bobOffset : R;
  floatOffset : R;
  floatSpeed : R;
  floatRadius : R;
  maxFloatRadius : R;
  spawnTime : R
}.

Module PowerUpManager.

Definition updatePowerUpAnimation (powerUp : PowerUp)
  (canvasWidth canvasHeight currentTime : R) : PowerUp :=
  let newRotation := rotation powerUp + 5 / 100 in
  let newFloatOffset := floatOffset powerUp + floatSpeed powerUp in
  let timeElapsedSeconds := (currentTime - spawnTime powerUp) / 1000 in
  let growthFactor := 1 + timeElapsedSeconds / 10 in
  let newFloatRadius := Rmin (maxFloatRadius powerUp * growthFactor) 80 in
  let floatX := cos newFloatOffset * newFloatRadius in
  let floatY := sin (newFloatOffset * (7 / 10)) * newFloatRadius * (6 / 10) in
  let newX := baseX powerUp + floatX in
  let newY := baseY powerUp + floatY in
  let margin := 30 + newFloatRadius in
  let newX := Rmax margin (Rmin (canvasWidth - margin) newX) in
  let newY := Rmax margin (Rmin (canvasHeight - margin) newY) in
  let newBaseX := baseX powerUp in
  let newBaseY := baseY powerUp in
  let newBaseX :=
    if (newX =? margin) || (newX =? canvasWidth - margin)
    then newX else newBaseX in
  let newBaseY :=
    if (newY =? margin) || (newY =? canvasHeight - margin)
    then newY else newBaseY in
  {| id := id powerUp; type := type powerUp;
     color := color powerUp; symbol := symbol powerUp;
     pux := newX; puy := newY;
     baseX := newBaseX; baseY := newBaseY;
     rotation := newRotation;
     bobOffset := bobOffset powerUp;
     floatOffset := newFloatOffset;
     floatSpeed := floatSpeed powerUp;
     floatRadius := newFloatRadius;
     maxFloatRadius := maxFloatRadius powerUp;
     spawnTime := spawnTime powerUp |}.

Definition checkPowerUpCollision (ball : Ball) (powerUp : PowerUp)
  (powerUpRadius : R) : bool :=
  let dx := x ball - pux powerUp in
  let dy := y ball - puy powerUp in
  let distance := sqrt (dx * dx + dy * dy) in
  distance <? radius ball + powerUpRadius.

Definition getPowerUpOwner (ball : Ball) : Side :=
  if dx ball >? 0 then Right else Left.

Definition shouldSpawnPowerUp (spawnTimer : R) (currentPowerUpCount : nat)
  : bool :=
  (spawnTimer <=? 0) && Nat.eqb currentPowerUpCount 0.

Definition removePowerUp (powerUps : list PowerUp) (powerUpId : R)
  : list PowerUp :=
  filter (fun p => negb (id p =? powerUpId)) powerUps.

(** The radii returned by successive calls of [updatePowerUpAnimation],
    each on the power-up the previous call returned, at the given times. *)
Fixpoint animationRadii (powerUp : PowerUp) (canvasWidth canvasHeight : R)
  (times : list R) : list R :=
  match times with
  | [] => []
  | t :: times' =>
      let updated := updatePowerUpAnimation powerUp canvasWidth canvasHeight t in
      floatRadius updated :: animationRadii updated canvasWidth canvasHeight times'
  end.

(** *** The other functions of the module *)

(** [duration] and [uses] are optional fields. *)
Record PowerUpConfig := mkPowerUpConfig {
  configType : PowerUpType;
  configColor : string;
  configSymbol : string;
  duration : option R;
  uses : option R
}.

Definition POWER_UP_TYPES : list PowerUpConfig :=
  [ {| configType := BigPaddle; configColor := "#3b82f6"; configSymbol := "B";
       duration := Some 480; uses := None |};
    {| configType := FastBall; configColor := "#ef4444"; configSymbol := "F";
       duration := Some 360; uses := None |};
    {| configType := MultiBall; configColor := "#f59e0b"; configSymbol := "M";
       duration := Some 600; uses := None |};
    {| configType := Shield; configColor := "#10b981"; configSymbol := "S";
       duration := None; uses := Some 1 |} ]%string.

Definition sameType (a b : PowerUpType) : bool :=
  match a, b with
  | BigPaddle, BigPaddle | FastBall, FastBall
  | MultiBall, MultiBall | Shield, Shield => true
  | _, _ => false
  end.

(** [array[i]] for an integer [i]: [undefined] out of range. *)
Definition elementAt {A : Type} (l : list A) (i : Z) : option A :=
  if (i <? 0)%Z then None else nth_error l (Z.to_nat i).

Definition generateSpawnTimer : M R :=
  let minSeconds := 2 in
  let maxSeconds := 10 in
  r <- Math_random ;;
  let randomSeconds := minSeconds + r * (maxSeconds - minSeconds) in
  ret (IZR (Int_part (randomSeconds * 60))).

(** [currentTime] is [Date.now()] when the caller omits it.  The objects
    made here have no [bobOffset]; the record holds 0 for it. *)
Definition spawnPowerUp (canvasWidth canvasHeight : R) (currentTime : option R)
  : M PowerUp :=
  currentTime <- match currentTime with
                 | Some t => ret t
                 | None => Date_now
                 end ;;
  r <- Math_random ;;
  match elementAt POWER_UP_TYPES
          (Int_part (r * INR (List.length POWER_UP_TYPES))) with
  | None => fail TypeError
  | Some randomConfig =>
      let marginX := 150 in
      let marginY := 75 in
      rx <- Math_random ;;
      let x := rx * (canvasWidth - marginX * 2) + marginX in
      ry <- Math_random ;;
      let y := ry * (canvasHeight - marginY * 2) + marginY in
      roffset <- Math_random ;;
      let floatOffset' := roffset * PI * 2 in
      rspeed <- Math_random ;;
      let floatSpeed' := 2 / 100 + rspeed * (3 / 100) in
      rradius <- Math_random ;;
      let floatRadius' := 20 + rradius * 15 in
      ret {| id := currentTime;
             type := configType randomConfig;
             color := configColor randomConfig;
             symbol := configSymbol randomConfig;
             pux := x;
             puy := y;
             baseX := x;
             baseY := y;
             rotation := 0;
             bobOffset := 0;
             floatOffset := floatOffset';
             floatSpeed := floatSpeed';
             floatRadius := floatRadius';
             maxFloatRadius := floatRadius';
             spawnTime := currentTime |}
  end.

(** [None] stands for the error thrown on an unknown type. *)
Definition getPowerUpConfig (type : PowerUpType) : option PowerUpConfig :=
  find (fun p => sameType (configType p) type) POWER_UP_TYPES.

Definition updateAllPowerUps (powerUps : list PowerUp)
  (canvasWidth canvasHeight currentTime : R) : list PowerUp :=
  map (fun powerUp =>
         updatePowerUpAnimation powerUp canvasWidth canvasHeight currentTime)
      powerUps.

Fixpoint findCollidingPowerUp (ball : Ball) (powerUps : list PowerUp)
  : option PowerUp :=
  match powerUps with
  | [] => None
  | powerUp :: powerUps' =>
      if checkPowerUpCollision ball powerUp 20 then Some powerUp
      else findCollidingPowerUp ball powerUps'
  end.

End PowerUpManager.

(** A list of numbers that never decreases. *)
Fixpoint nonDecreasing (l : list R) : Prop :=
  match l with
  | [] => True
  | a :: l' =>
      match l' with
      | [] => True
      | b :: _ => a <= b /\ nonDecreasing l'
      end
  end.

(** ** The hook useGameLogic: the state it owns

    The state is the object behind [gameStateRef], as the page creates it.
    The tick also calls functions the page hands to the hook: the four
    sounds and the two setters of the leaderboard dialog.  They do not
    touch the state and are not part of the model. *)

Module GameLogic.

Record Keys := mkKeys {
  key_r : bool;
  key_R : bool;
  key_w : bool;
  key_W : bool;
  key_s : bool;
  key_S : bool;
  key_ArrowUp : bool;
  key_ArrowDown : bool
}.

Record TouchPaddle := mkTouchPaddle {
  active : bool;
  startY : R;
  currentY : R
}.

Record Touch := mkTouch {
  leftPaddle : TouchPaddle;
  rightPaddle : TouchPaddle
}.

Record Canvas := mkCanvas {
  cwidth : R;
  cheight : R
}.

Record Paddles := mkPaddles {
  pleft : Paddle;
  pright : Paddle
}.

Record Score := mkScore {
  sleft : R;
  sright : R
}.

Record AI := mkAI {
  enabled : bool;
  difficulty : string;
  targetY : R;
  reactionDelay : R;
  lastReactionTime : R
}.

Record ScreenShake := mkScreenShake {
  shakeX : R;
  shakeY : R;
  intensity : R;
  duration : R
}.

Record BigPaddleEffect := mkBigPaddleEffect {
  bp_active : bool;
  bp_timeLeft : R;
  bp_player : option Side
}.

Record FastBallEffect := mkFastBallEffect {
  fb_active : bool;
  fb_timeLeft : R
}.

Record MultiBallEffect := mkMultiBallEffect {
  mb_active : bool;
  mb_timeLeft : R;
  extraBalls : list Ball
}.

Record ShieldEffect := mkShieldEffect {
  sh_active : bool;
  sh_uses : R;
  sh_player : option Side
}.

Record ActivePowerUps := mkActivePowerUps {
  bigPaddle : BigPaddleEffect;
  fastBall : FastBallEffect;
  multiBall : MultiBallEffect;
  shield : ShieldEffect
}.

Record Session := mkSession {
  rallies : R;
  longestRally : R;
  totalHits : R;
  sessionsPlayed : R;
  playTime : R;
  lastBreakSuggestion : R
}.

Record Achievements := mkAchievements {
  firstWin : bool;
  rally10 : bool;
  rally25 : bool;
  rally50 : bool;
  speedDemon : bool;
  powerUpMaster : bool;
  quickReflexes : bool
}.

Record ProgressBar := mkProgressBar {
  currentXP : R;
  level : R;
  xpToNext : R
}.

Record GameState := mkGameState {
  ball : Ball;
  paddles : Paddles;
  canvas : Canvas;
  keys : Keys;
  touch : Touch;
  score : Score;
  gameWinner : option Side;
  ai : AI;
  screenShake : ScreenShake;
  powerUps : list PowerUp;
  activePowerUps : ActivePowerUps;
  powerUpSpawnTimer : R;
  gameStartTime : R;
  session : Session;
  achievements : Achievements;
  progressBar : ProgressBar
}.

(** *** Assignments to the fields of the state *)

Definition setBall (s : GameState) (v : Ball) : GameState :=
  {| ball := v; paddles := paddles s; canvas := canvas s; keys := keys s;
     touch := touch s; score := score s; gameWinner := gameWinner s;
     ai := ai s; screenShake := screenShake s; powerUps := powerUps s;
     activePowerUps := activePowerUps s;
     powerUpSpawnTimer := powerUpSpawnTimer s;
     gameStartTime := gameStartTime s; session := session s;
     achievements := achievements s; progressBar := progressBar s |}.

Definition setPaddles (s : GameState) (v : Paddles) : GameState :=
  {| ball := ball s; paddles := v; canvas := canvas s; keys := keys s;
     touch := touch s; score := score s; gameWinner := gameWinner s;
     ai := ai s; screenShake := screenShake s; powerUps := powerUps s;
     activePowerUps := activePowerUps s;
     powerUpSpawnTimer := powerUpSpawnTimer s;
     gameStartTime := gameStartTime s; session := session s;
     achievements := achievements s; progressBar := progressBar s |}.

Definition setCanvas (s : GameState) (v : Canvas) : GameState :=
  {| ball := ball s; paddles := paddles s; canvas := v; keys := keys s;
     touch := touch s; score := score s; gameWinner := gameWinner s;
     ai := ai s; screenShake := screenShake s; powerUps := powerUps s;
     activePowerUps := activePowerUps s;
     powerUpSpawnTimer := powerUpSpawnTimer s;
     gameStartTime := gameStartTime s; session := session s;
     achievements := achievements s; progressBar := progressBar s |}.

Definition setKeys (s : GameState) (v : Keys) : GameState :=
  {| ball := ball s; paddles := paddles s; canvas := canvas s; keys := v;
     touch := touch s; score := score s; gameWinner := gameWinner s;
     ai := ai s; screenShake := screenShake s; powerUps := powerUps s;
     activePowerUps := activePowerUps s;
     powerUpSpawnTimer := powerUpSpawnTimer s;
     gameStartTime := gameStartTime s; session := session s;
     achievements := achievements s; progressBar := progressBar s |}.

Definition setTouch (s : GameState) (v : Touch) : GameState :=
  {| ball := ball s; paddles := paddles s; canvas := canvas s;
     keys := keys s; touch := v; score := score s;
     gameWinner := gameWinner s; ai := ai s; screenShake := screenShake s;
     powerUps := powerUps s; activePowerUps := activePowerUps s;
     powerUpSpawnTimer := powerUpSpawnTimer s;
     gameStartTime := gameStartTime s; session := session s;
     achievements := achievements s; progressBar := progressBar s |}.

Definition setScore (s : GameState) (v : Score) : GameState :=
  {| ball := ball s; paddles := paddles s; canvas := canvas s;
     keys := keys s; touch := touch s; score := v;
     gameWinner := gameWinner s; ai := ai s; screenShake := screenShake s;
     powerUps := powerUps s; activePowerUps := activePowerUps s;
     powerUpSpawnTimer := powerUpSpawnTimer s;
     gameStartTime := gameStartTime s; session := session s;
     achievements := achievements s; progressBar := progressBar s |}.

Definition setGameWinner (s : GameState) (v : option Side) : GameState :=
  {| ball := ball s; paddles := paddles s; canvas := canvas s;
     keys := keys s; touch := touch s; score := score s; gameWinner := v;
     ai := ai s; screenShake := screenShake s; powerUps := powerUps s;
     activePowerUps := activePowerUps s;
     powerUpSpawnTimer := powerUpSpawnTimer s;
     gameStartTime := gameStartTime s; session := session s;
     achievements := achievements s; progressBar := progressBar s |}.

Definition setAi (s : GameState) (v : AI) : GameState :=
  {| ball := ball s; paddles := paddles s; canvas := canvas s;
     keys := keys s; touch := touch s; score := score s;
     gameWinner := gameWinner s; ai := v; screenShake := screenShake s;
     powerUps := powerUps s; activePowerUps := activePowerUps s;
     powerUpSpawnTimer := powerUpSpawnTimer s;
     gameStartTime := gameStartTime s; session := session s;
     achievements := achievements s; progressBar := progressBar s |}.

Definition setScreenShake (s : GameState) (v : ScreenShake) : GameState :=
  {| ball := ball s; paddles := paddles s; canvas := canvas s;
     keys := keys s; touch := touch s; score := score s;
     gameWinner := gameWinner s; ai := ai s; screenShake := v;
     powerUps := powerUps s; activePowerUps := activePowerUps s;
     powerUpSpawnTimer := powerUpSpawnTimer s;
     gameStartTime := gameStartTime s; session := session s;
     achievements := achievements s; progressBar := progressBar s |}.

Definition setPowerUps (s : GameState) (v : list PowerUp) : GameState :=
  {| ball := ball s; paddles := paddles s; canvas := canvas s;
     keys := keys s; touch := touch s; score := score s;
     gameWinner := gameWinner s; ai := ai s; screenShake := screenShake s;
     powerUps := v; activePowerUps := activePowerUps s;
     powerUpSpawnTimer := powerUpSpawnTimer s;
     gameStartTime := gameStartTime s; session := session s;
     achievements := achievements s; progressBar := progressBar s |}.

Definition setActivePowerUps (s : GameState) (v : ActivePowerUps) : GameState :=
  {| ball := ball s; paddles := paddles s; canvas := canvas s;
     keys := keys s; touch := touch s; score := score s;
     gameWinner := gameWinner s; ai := ai s; screenShake := screenShake s;
     powerUps := powerUps s; activePowerUps := v;
     powerUpSpawnTimer := powerUpSpawnTimer s;
     gameStartTime := gameStartTime s; session := session s;
     achievements := achievements s; progressBar := progressBar s |}.

Definition setPowerUpSpawnTimer (s : GameState) (v : R) : GameState :=
  {| ball := ball s; paddles := paddles s; canvas := canvas s;
     keys := keys s; touch := touch s; score := score s;
     gameWinner := gameWinner s; ai := ai s; screenShake := screenShake s;
     powerUps := powerUps s; activePowerUps := activePowerUps s;
     powerUpSpawnTimer := v; gameStartTime := gameStartTime s;
     session := session s; achievements := achievements s;
     progressBar := progressBar s |}.

Definition setGameStartTime (s : GameState) (v : R) : GameState :=
  {| ball := ball s; paddles := paddles s; canvas := canvas s;
     keys := keys s; touch := touch s; score := score s;
     gameWinner := gameWinner s; ai := ai s; screenShake := screenShake s;
     powerUps := powerUps s; activePowerUps := activePowerUps s;
     powerUpSpawnTimer := powerUpSpawnTimer s; gameStartTime := v;
     session := session s; achievements := achievements s;
     progressBar := progressBar s |}.

Definition setSession (s : GameState) (v : Session) : GameState :=
  {| ball := ball s; paddles := paddles s; canvas := canvas s;
     keys := keys s; touch := touch s; score := score s;
     gameWinner := gameWinner s; ai := ai s; screenShake := screenShake s;
     powerUps := powerUps s; activePowerUps := activePowerUps s;
     powerUpSpawnTimer := powerUpSpawnTimer s;
     gameStartTime := gameStartTime s; session := v;
     achievements := achievements s; progressBar := progressBar s |}.

Definition setAchievements (s : GameState) (v : Achievements) : GameState :=
  {| ball := ball s; paddles := paddles s; canvas := canvas s;
     keys := keys s; touch := touch s; score := score s;
     gameWinner := gameWinner s; ai := ai s; screenShake := screenShake s;
     powerUps := powerUps s; activePowerUps := activePowerUps s;
     powerUpSpawnTimer := powerUpSpawnTimer s;
     gameStartTime := gameStartTime s; session := session s;
     achievements := v; progressBar := progressBar s |}.

Definition setProgressBar (s : GameState) (v : ProgressBar) : GameState :=
  {| ball := ball s; paddles := paddles s; canvas := canvas s;
     keys := keys s; touch := touch s; score := score s;
     gameWinner := gameWinner s; ai := ai s; screenShake := screenShake s;
     powerUps := powerUps s; activePowerUps := activePowerUps s;
     powerUpSpawnTimer := powerUpSpawnTimer s;
     gameStartTime := gameStartTime s; session := session s;
     achievements := achievements s; progressBar := v |}.

Definition setLeft (s : GameState) (p : Paddle) : GameState :=
  setPaddles s {| pleft := p; pright := pright (paddles s) |}.

Definition setRight (s : GameState) (p : Paddle) : GameState :=
  setPaddles s {| pleft := pleft (paddles s); pright := p |}.

Definition setY (p : Paddle) (newY : R) : Paddle :=
  {| px := px p; py := newY; width := width p; height := height p;
     speed := speed p; prevY := prevY p; velocity := velocity p |}.

Definition setPrevY (p : Paddle) (v : R) : Paddle :=
  {| px := px p; py := py p; width := width p; height := height p;
     speed := speed p; prevY := v; velocity := velocity p |}.

Definition setPaddleVelocity (p : Paddle) (v : R) : Paddle :=
  {| px := px p; py := py p; width := width p; height := height p;
     speed := speed p; prevY := prevY p; velocity := v |}.

Definition setBigPaddle (a : ActivePowerUps) (e : BigPaddleEffect) :=
  {| bigPaddle := e; fastBall := fastBall a;
     multiBall := multiBall a; shield := shield a |}.

Definition setFastBall (a : ActivePowerUps) (e : FastBallEffect) :=
  {| bigPaddle := bigPaddle a; fastBall := e;
     multiBall := multiBall a; shield := shield a |}.

Definition setMultiBall (a : ActivePowerUps) (e : MultiBallEffect) :=
  {| bigPaddle := bigPaddle a; fastBall := fastBall a;
     multiBall := e; shield := shield a |}.

Definition setShield (a : ActivePowerUps) (e : ShieldEffect) :=
  {| bigPaddle := bigPaddle a; fastBall := fastBall a;
     multiBall := multiBall a; shield := e |}.

Definition setRallies (n : Session) (v : R) : Session :=
  {| rallies := v; longestRally := longestRally n; totalHits := totalHits n;
     sessionsPlayed := sessionsPlayed n; playTime := playTime n;
     lastBreakSuggestion := lastBreakSuggestion n |}.

Definition addXP (s : GameState) (xp : R) : GameState :=
  setProgressBar s
    {| currentXP := currentXP (progressBar s) + xp;
       level := level (progressBar s);
       xpToNext := xpToNext (progressBar s) |}.

(** *** Numbers that are integers *)

Definition Math_floor (r : R) : Z := Int_part r.

(** [a % b] for a positive [a] and [b]. *)
Definition remainder (a b : R) : R := a - b * IZR (Math_floor (a / b)).

(** *** Screen shake and levels *)

Definition addScreenShake (intensity duration : R) (s : GameState) : GameState :=
  setScreenShake s
    {| shakeX := shakeX (screenShake s); shakeY := shakeY (screenShake s);
       intensity := intensity; duration := duration |}.

Definition updateScreenShake (s : GameState) : M GameState :=
  let shake := screenShake s in
  if duration shake >? 0 then
    r1 <- Math_random ;;
    r2 <- Math_random ;;
    ret (setScreenShake s
           {| shakeX := (r1 - 5 / 10) * intensity shake;
              shakeY := (r2 - 5 / 10) * intensity shake;
              intensity := intensity shake * (9 / 10);
              duration := duration shake - 1 |})
  else
    ret (setScreenShake s
           {| shakeX := 0; shakeY := 0; intensity := 0;
              duration := duration shake |}).

Definition checkLevelUp (s : GameState) : GameState :=
  let progress := progressBar s in
  if currentXP progress >=? xpToNext progress then
    let s := setProgressBar s
               {| currentXP := currentXP progress - xpToNext progress;
                  level := level progress + 1;
                  xpToNext := IZR (Math_floor (xpToNext progress * (15 / 10))) |} in
    addScreenShake 10 20 s
  else s.

(** *** resetBall, resetGame *)

Definition resetBall (s : GameState) : M GameState :=
  r1 <- Math_random ;;
  r2 <- Math_random ;;
  ret (setBall s
         {| x := cwidth (canvas s) / 2;
            y := cheight (canvas s) / 2;
            dx := if r1 >? 5 / 10 then 6 else - 6;
            dy := (r2 * 6 - 3) * (8 / 10);
            radius := radius (ball s);
            trail := trail (ball s) |}).

Definition noActivePowerUps : ActivePowerUps :=
  {| bigPaddle := {| bp_active := false; bp_timeLeft := 0; bp_player := None |};
     fastBall := {| fb_active := false; fb_timeLeft := 0 |};
     multiBall := {| mb_active := false; mb_timeLeft := 0; extraBalls := [] |};
     shield := {| sh_active := false; sh_uses := 0; sh_player := None |} |}.

Definition resetGame (s : GameState) : M GameState :=
  let s := setScore s {| sleft := 0; sright := 0 |} in
  let s := setGameWinner s None in
  let s := setPowerUps s [] in
  let s := setPowerUpSpawnTimer s 180 in
  let s := setActivePowerUps s noActivePowerUps in
  let s := setSession s
             {| rallies := 0;
                longestRally := longestRally (session s);
                totalHits := totalHits (session s);
                sessionsPlayed := sessionsPlayed (session s) + 1;
                playTime := playTime (session s);
                lastBreakSuggestion := lastBreakSuggestion (session s) |} in
  start <- Date_now ;;
  let s := setGameStartTime s start in
  now <- Date_now ;;
  let s :=
    if (sessionsPlayed (session s) >? 0)
       && (remainder (sessionsPlayed (session s)) 8 =? 0)
    then
      if now - lastBreakSuggestion (session s) >? 1200000 then
        setSession s
          {| rallies := rallies (session s);
             longestRally := longestRally (session s);
             totalHits := totalHits (session s);
             sessionsPlayed := sessionsPlayed (session s);
             playTime := playTime (session s);
             lastBreakSuggestion := now |}
      else s
    else s in
  resetBall s.

(** *** The opponent *)

Definition predictBallY (fuel : nat) (s : GameState) (ball : Ball) (paddleX : R)
  : M R :=
  if dx ball =? 0 then ret (y ball)
  else
    let timeToReachPaddle := (paddleX - x ball) / dx ball in
    let futureY := y ball + dy ball * timeToReachPaddle in
    let canvasHeight := cheight (canvas s) in
    match PhysicsEngine.unfoldReflections fuel canvasHeight futureY with
    | Some futureY => ret futureY
    | None => fail OutOfFuel
    end.

Definition getAISettings (difficulty : string) : AIController.AIConfig :=
  if String.eqb difficulty "easy" then
    AIController.getAIConfig AIController.easy
  else if String.eqb difficulty "medium" then
    AIController.getAIConfig AIController.medium
  else if String.eqb difficulty "hard" then
    AIController.getAIConfig AIController.hard
  else AIController.getAIConfig AIController.medium.

Definition updateAI (fuel : nat) (s : GameState) : M GameState :=
  if negb (enabled (ai s)) then ret s
  else
    let settings := getAISettings (difficulty (ai s)) in
    if dx (ball s) >? 0 then
      now <- Date_now ;;
      s <- (if now - lastReactionTime (ai s)
                 >? AIController.reactionTime settings * (1667 / 100)
            then
              targetY <- (if AIController.predictionEnabled settings
                          then predictBallY fuel s (ball s) (px (pright (paddles s)))
                          else ret (y (ball s))) ;;
              let inaccuracy := (1 - AIController.accuracy settings) * 50 in
              r <- Math_random ;;
              let targetY := targetY + (r - 5 / 10) * inaccuracy in
              now' <- Date_now ;;
              ret (setAi s {| enabled := enabled (ai s);
                              difficulty := difficulty (ai s);
                              targetY := targetY;
                              reactionDelay := reactionDelay (ai s);
                              lastReactionTime := now' |})
            else ret s) ;;
      let right := pright (paddles s) in
      let paddleCenterY := py right + height right / 2 in
      let difference := targetY (ai s) - paddleCenterY in
      if Rabs difference >? 5 then
        let prevY := py right in
        let right :=
          if difference <? 0
          then setY right (Rmax 0 (py right - AIController.speed settings))
          else setY right (Rmin (cheight (canvas s) - height right)
                                (py right + AIController.speed settings)) in
        ret (setRight s (setPaddleVelocity right (py right - prevY)))
      else ret s
    else ret s.

(** *** Collisions with a paddle *)

Definition isPlayer (p : option Side) (player : Side) : bool :=
  match p, player with
  | Some Left, Left => true
  | Some Right, Right => true
  | _, _ => false
  end.

Definition checkPaddleCollision (s : GameState) (ball : Ball) (paddle : Paddle)
  (player : Side) : bool :=
  let isBig := bp_active (bigPaddle (activePowerUps s))
               && isPlayer (bp_player (bigPaddle (activePowerUps s))) player in
  let paddleHeight := if isBig then height paddle * 2 else height paddle in
  let paddleY := if isBig then py paddle - height paddle / 2 else py paddle in
  let closestX := Rmax (px paddle) (Rmin (x ball) (px paddle + width paddle)) in
  let closestY := Rmax paddleY (Rmin (y ball) (paddleY + paddleHeight)) in
  let distanceX := x ball - closestX in
  let distanceY := y ball - closestY in
  let distanceSquared := distanceX * distanceX + distanceY * distanceY in
  distanceSquared <=? radius ball * radius ball.

(** *** Power-ups: spawning and activation *)

Definition arrayGet {A : Type} (l : list A) (i : Z) : option A :=
  if (i <? 0)%Z then None else nth_error l (Z.to_nat i).

Definition powerUpTypes : list (PowerUpType * string * string) :=
  [ (BigPaddle, "#3b82f6", "B");
    (FastBall, "#ef4444", "F");
    (MultiBall, "#f59e0b", "M");
    (Shield, "#10b981", "S") ]%string.

Definition spawnPowerUp (s : GameState) : M GameState :=
  r <- Math_random ;;
  match arrayGet powerUpTypes
          (Math_floor (r * INR (List.length powerUpTypes))) with
  | None => fail TypeError
  | Some (randomType, randomColor, randomSymbol) =>
      now <- Date_now ;;
      rx <- Math_random ;;
      ry <- Math_random ;;
      rbob <- Math_random ;;
      rfloat <- Math_random ;;
      rspeed <- Math_random ;;
      rradius <- Math_random ;;
      rmax <- Math_random ;;
      now' <- Date_now ;;
      let powerUpX := rx * (cwidth (canvas s) - 300) + 150 in
      let powerUpY := ry * (cheight (canvas s) - 150) + 75 in
      let powerUp :=
        {| id := now;
           type := randomType;
           color := randomColor;
           symbol := randomSymbol;
           pux := powerUpX;
           puy := powerUpY;
           baseX := powerUpX;
           baseY := powerUpY;
           rotation := 0;
           bobOffset := rbob * PI * 2;
           floatOffset := rfloat * PI * 2;
           floatSpeed := 2 / 100 + rspeed * (3 / 100);
           floatRadius := 20 + rradius * 15;
           maxFloatRadius := 20 + rmax * 15;
           spawnTime := now' |} in
      ret (setPowerUps s (powerUps s ++ [powerUp]))
  end.

Definition spawnExtraBalls (s : GameState) : M (list Ball) :=
  r1 <- Math_random ;;
  r2 <- Math_random ;;
  r3 <- Math_random ;;
  r4 <- Math_random ;;
  ret [ {| x := x (ball s) + 50; y := y (ball s);
           dx := - dx (ball s) + (r1 - 5 / 10) * 2;
           dy := dy (ball s) + (r2 - 5 / 10) * 2;
           radius := 6; trail := [] |};
        {| x := x (ball s) - 50; y := y (ball s);
           dx := - dx (ball s) + (r3 - 5 / 10) * 2;
           dy := dy (ball s) + (r4 - 5 / 10) * 2;
           radius := 6; trail := [] |} ].

Definition activatePowerUp (powerUp : PowerUp) (player : option Side)
  (s : GameState) : M GameState :=
  s <- match type powerUp with
       | BigPaddle =>
           ret (setActivePowerUps s
                  (setBigPaddle (activePowerUps s)
                     {| bp_active := true; bp_timeLeft := 480;
                        bp_player := player |}))
       | FastBall =>
           ret (setActivePowerUps s
                  (setFastBall (activePowerUps s)
                     {| fb_active := true; fb_timeLeft := 360 |}))
       | MultiBall =>
           if negb (mb_active (multiBall (activePowerUps s))) then
             balls <- spawnExtraBalls s ;;
             ret (setActivePowerUps s
                    (setMultiBall (activePowerUps s)
                       {| mb_active := true; mb_timeLeft := 600;
                          extraBalls := balls |}))
           else ret s
       | Shield =>
           ret (setActivePowerUps s
                  (setShield (activePowerUps s)
                     {| sh_active := true; sh_uses := 1;
                        sh_player := player |}))
       end ;;
  let s := setPowerUps s
             (filter (fun p => negb (id p =? id powerUp)) (powerUps s)) in
  r <- Math_random ;;
  let s := setPowerUpSpawnTimer s ((2 + r * 8) * 60) in
  ret (addScreenShake 8 15 s).

(** *** The phases of a tick, in the order of [updateGame] *)

(** The [R] key resets the game and is released. *)
Definition handleResetKey (s : GameState) : M GameState :=
  if key_r (keys s) || key_R (keys s) then
    s <- resetGame s ;;
    ret (setKeys s {| key_r := false; key_R := false;
                      key_w := key_w (keys s); key_W := key_W (keys s);
                      key_s := key_s (keys s); key_S := key_S (keys s);
                      key_ArrowUp := key_ArrowUp (keys s);
                      key_ArrowDown := key_ArrowDown (keys s) |})
  else ret s.

Definition spawnPhase (s : GameState) : M GameState :=
  let s := setPowerUpSpawnTimer s (powerUpSpawnTimer s - 1) in
  if (powerUpSpawnTimer s <=? 0) && Nat.eqb (List.length (powerUps s)) 0
  then spawnPowerUp s
  else ret s.

(** The body of the loop over the floating power-ups. *)
Definition animatePowerUp (c : Canvas) (powerUp : PowerUp) (now : R) : PowerUp :=
  let rotation' := rotation powerUp + 5 / 100 in
  let floatOffset' := floatOffset powerUp + floatSpeed powerUp in
  let timeElapsed := (now - spawnTime powerUp) / 1000 in
  let growthFactor := 1 + timeElapsed / 10 in
  let floatRadius' := Rmin (maxFloatRadius powerUp * growthFactor) 80 in
  let floatX := cos floatOffset' * floatRadius' in
  let floatY := sin (floatOffset' * (7 / 10)) * floatRadius' * (6 / 10) in
  let x' := baseX powerUp + floatX in
  let y' := baseY powerUp + floatY in
  let margin := 30 + floatRadius' in
  let x' := Rmax margin (Rmin (cwidth c - margin) x') in
  let y' := Rmax margin (Rmin (cheight c - margin) y') in
  let baseX' :=
    if (x' =? margin) || (x' =? cwidth c - margin) then x' else baseX powerUp in
  let baseY' :=
    if (y' =? margin) || (y' =? cheight c - margin) then y' else baseY powerUp in
  {| id := id powerUp; type := type powerUp;
     color := color powerUp; symbol := symbol powerUp;
     pux := x'; puy := y'; baseX := baseX'; baseY := baseY';
     rotation := rotation'; bobOffset := bobOffset powerUp;
     floatOffset := floatOffset'; floatSpeed := floatSpeed powerUp;
     floatRadius := floatRadius'; maxFloatRadius := maxFloatRadius powerUp;
     spawnTime := spawnTime powerUp |}.

Fixpoint animateAll (c : Canvas) (l : list PowerUp) : M (list PowerUp) :=
  match l with
  | [] => ret []
  | powerUp :: l' =>
      now <- Date_now ;;
      let powerUp' := animatePowerUp c powerUp now in
      l'' <- animateAll c l' ;;
      ret (powerUp' :: l'')
  end.

Definition animatePhase (s : GameState) : M GameState :=
  l <- animateAll (canvas s) (powerUps s) ;;
  ret (setPowerUps s l).

(** The countdown of the timed effects; the shield has no [timeLeft]. *)
Definition effectTimersPhase (s : GameState) : GameState :=
  let a := activePowerUps s in
  let bp := bigPaddle a in
  let bp :=
    if bp_active bp then
      let t := bp_timeLeft bp - 1 in
      {| bp_active := if t <=? 0 then false else bp_active bp;
         bp_timeLeft := t; bp_player := bp_player bp |}
    else bp in
  let fb := fastBall a in
  let fb :=
    if fb_active fb then
      let t := fb_timeLeft fb - 1 in
      {| fb_active := if t <=? 0 then false else fb_active fb;
         fb_timeLeft := t |}
    else fb in
  let mb := multiBall a in
  let mb :=
    if mb_active mb then
      let t := mb_timeLeft mb - 1 in
      {| mb_active := if t <=? 0 then false else mb_active mb;
         mb_timeLeft := t;
         extraBalls := if t <=? 0 then [] else extraBalls mb |}
    else mb in
  setActivePowerUps s
    {| bigPaddle := bp; fastBall := fb; multiBall := mb; shield := shield a |}.

(** The movement of one paddle from the keys and the touch of its side. *)
Definition movePaddle (c : Canvas) (up down : bool) (t : TouchPaddle)
  (p : Paddle) : Paddle * TouchPaddle :=
  let p := if up then setY p (Rmax 0 (py p - speed p)) else p in
  let p := if down
           then setY p (Rmin (cheight c - height p) (py p + speed p)) else p in
  if active t then
    let touchDelta := currentY t - startY t in
    let newY := py p + touchDelta * (8 / 10) in
    (setY p (Rmax 0 (Rmin (cheight c - height p) newY)),
     {| active := active t; startY := currentY t; currentY := currentY t |})
  else (p, t).

Definition leftPaddlePhase (s : GameState) : GameState :=
  let left := setPrevY (pleft (paddles s)) (py (pleft (paddles s))) in
  let moved :=
    movePaddle (canvas s) (key_w (keys s) || key_W (keys s))
      (key_s (keys s) || key_S (keys s)) (leftPaddle (touch s)) left in
  let left := fst moved in
  let s := setTouch s {| leftPaddle := snd moved;
                         rightPaddle := rightPaddle (touch s) |} in
  setLeft s (setPaddleVelocity left (py left - prevY left)).

Definition rightPaddlePhase (fuel : nat) (s : GameState) : M GameState :=
  let s := setRight s (setPrevY (pright (paddles s)) (py (pright (paddles s)))) in
  s <- (if negb (enabled (ai s)) then
          let moved :=
            movePaddle (canvas s) (key_ArrowUp (keys s)) (key_ArrowDown (keys s))
              (rightPaddle (touch s)) (pright (paddles s)) in
          let s := setTouch s {| leftPaddle := leftPaddle (touch s);
                                 rightPaddle := snd moved |} in
          ret (setRight s (fst moved))
        else updateAI fuel s) ;;
  let right := pright (paddles s) in
  ret (setRight s (setPaddleVelocity right (py right - prevY right))).

(** The trail of a ball: every particle loses a unit of life and 5% of its
    size, in order, and stays while it has life left. *)
Fixpoint ageTrail (l : list Particle) : list Particle :=
  match l with
  | [] => []
  | particle :: l' =>
      let particle :=
        {| particleX := particleX particle; particleY := particleY particle;
           size := size particle * (95 / 100); life := life particle - 1 |} in
      if life particle >? 0 then particle :: ageTrail l' else ageTrail l'
  end.

Definition setTrail (b : Ball) (t : list Particle) : Ball :=
  {| x := x b; y := y b; dx := dx b; dy := dy b; radius := radius b;
     trail := t |}.

Definition advance (speedMultiplier : R) (b : Ball) : Ball :=
  setPosition b (x b + dx b * speedMultiplier) (y b + dy b * speedMultiplier).

(** The body of the loop that moves the extra balls. *)
Definition moveExtraBall (speedMultiplier : R) (extraBall : Ball) : M Ball :=
  let extraBall := advance speedMultiplier extraBall in
  r <- Math_random ;;
  let particle := {| particleX := x extraBall; particleY := y extraBall;
                     size := r * 2 + 1; life := 15 |} in
  ret (setTrail extraBall (ageTrail (trail extraBall ++ [particle]))).

Fixpoint forEachBall (f : Ball -> M Ball) (l : list Ball) : M (list Ball) :=
  match l with
  | [] => ret []
  | b :: l' =>
      b' <- f b ;;
      l'' <- forEachBall f l' ;;
      ret (b' :: l'')
  end.

Definition moveBallsPhase (s : GameState) : M GameState :=
  let speedMultiplier :=
    if fb_active (fastBall (activePowerUps s)) then 15 / 10 else 1 in
  let s := setBall s (advance speedMultiplier (ball s)) in
  let mb := multiBall (activePowerUps s) in
  if mb_active mb then
    balls <- forEachBall (moveExtraBall speedMultiplier) (extraBalls mb) ;;
    ret (setActivePowerUps s
           (setMultiBall (activePowerUps s)
              {| mb_active := mb_active mb; mb_timeLeft := mb_timeLeft mb;
                 extraBalls := balls |}))
  else ret s.

(** The loop over the floating power-ups stops at the first one the ball
    touches. *)
Definition touchesPowerUp (b : Ball) (powerUp : PowerUp) : bool :=
  let dx := x b - pux powerUp in
  let dy := y b - puy powerUp in
  let distance := sqrt (dx * dx + dy * dy) in
  distance <? radius b + 20.

Fixpoint pickupLoop (l : list PowerUp) (s : GameState) : M GameState :=
  match l with
  | [] => ret s
  | powerUp :: l' =>
      if touchesPowerUp (ball s) powerUp then
        let player := if dx (ball s) >? 0 then Right else Left in
        activatePowerUp powerUp (Some player) s
      else pickupLoop l' s
  end.

Definition pickupPhase (s : GameState) : M GameState :=
  pickupLoop (powerUps s) s.

Definition trailPhase (s : GameState) : M GameState :=
  let b := ball s in
  r <- Math_random ;;
  let particle := {| particleX := x b; particleY := y b;
                     size := r * 3 + 2; life := 20 |} in
  ret (setBall s (setTrail b (ageTrail (trail b ++ [particle])))).

Definition wallPhase (s : GameState) : GameState :=
  let b := ball s in
  if (y b - radius b <=? 0) || (y b + radius b >=? cheight (canvas s))
  then addScreenShake 3 6 (setBall s (setVelocity b (dx b) (- dy b)))
  else s.

(** The response of the primary ball to a paddle: the body of the two
    [if]s that test the left and the right paddle, which differ in the
    paddle only.  [faceX] is where the ball is put back, flush against the
    face of the paddle. *)
Definition paddleBounce (paddle : Paddle) (faceX : R) (s : GameState)
  : M GameState :=
  let b := ball s in
  let b := setVelocity b (- dx b) (dy b) in
  let b := setPosition b faceX (y b) in
  let n := session s in
  let n := {| rallies := rallies n + 1;
              longestRally := longestRally n;
              totalHits := totalHits n + 1;
              sessionsPlayed := sessionsPlayed n;
              playTime := playTime n;
              lastBreakSuggestion := lastBreakSuggestion n |} in
  let n := {| rallies := rallies n;
              longestRally := Rmax (longestRally n) (rallies n);
              totalHits := totalHits n;
              sessionsPlayed := sessionsPlayed n;
              playTime := playTime n;
              lastBreakSuggestion := lastBreakSuggestion n |} in
  let s := setSession s n in
  let s := addXP s 5 in
  let b := setVelocity b (dx b * (11 / 10)) (dy b * (11 / 10)) in
  let paddleInfluence := 4 / 10 in
  let b := setVelocity b (dx b) (dy b + velocity paddle * paddleInfluence) in
  hitPosition <- divide (y b - (py paddle + height paddle / 2))
                        (height paddle / 2) ;;
  let b := setVelocity b (dx b) (dy b + hitPosition * (35 / 10)) in
  let b := setVelocity b (dx b) (Rmax (- 15) (Rmin 15 (dy b))) in
  r <- Math_random ;;
  b <- (if r <? 25 / 100
        then r' <- Math_random ;;
             ret (setVelocity b (dx b) (dy b + (r' - 5 / 10) * 6))
        else ret b) ;;
  let currentSpeed := sqrt (dx b * dx b + dy b * dy b) in
  b <- (if currentSpeed <? 4 then
          speedMultiplier <- divide 4 currentSpeed ;;
          ret (setVelocity b (dx b * speedMultiplier) (dy b * speedMultiplier))
        else ret b) ;;
  let s := setBall s b in
  let a := achievements s in
  let s :=
    if (rallies (session s) =? 10) && negb (rally10 a) then
      addXP (setAchievements s
               {| firstWin := firstWin a; rally10 := true;
                  rally25 := rally25 a; rally50 := rally50 a;
                  speedDemon := speedDemon a;
                  powerUpMaster := powerUpMaster a;
                  quickReflexes := quickReflexes a |}) 50
    else s in
  let a := achievements s in
  let s :=
    if (rallies (session s) =? 25) && negb (rally25 a) then
      addXP (setAchievements s
               {| firstWin := firstWin a; rally10 := rally10 a;
                  rally25 := true; rally50 := rally50 a;
                  speedDemon := speedDemon a;
                  powerUpMaster := powerUpMaster a;
                  quickReflexes := quickReflexes a |}) 100
    else s in
  let a := achievements s in
  let s :=
    if (currentSpeed >? 12) && negb (speedDemon a) then
      addXP (setAchievements s
               {| firstWin := firstWin a; rally10 := rally10 a;
                  rally25 := rally25 a; rally50 := rally50 a;
                  speedDemon := true;
                  powerUpMaster := powerUpMaster a;
                  quickReflexes := quickReflexes a |}) 75
    else s in
  ret (addScreenShake 8 15 s).

Definition hitsLeftPaddle (s : GameState) : bool :=
  (dx (ball s) <? 0)
  && checkPaddleCollision s (ball s) (pleft (paddles s)) Left.

Definition hitsRightPaddle (s : GameState) : bool :=
  (dx (ball s) >? 0)
  && checkPaddleCollision s (ball s) (pright (paddles s)) Right.

Definition leftBouncePhase (s : GameState) : M GameState :=
  if hitsLeftPaddle s then
    let left := pleft (paddles s) in
    paddleBounce left (px left + width left + radius (ball s)) s
  else ret s.

Definition rightBouncePhase (s : GameState) : M GameState :=
  if hitsRightPaddle s then
    let right := pright (paddles s) in
    paddleBounce right (px right - radius (ball s)) s
  else ret s.

(** The response of an extra ball to a paddle. *)
Definition extraBounce (paddle : Paddle) (faceX : R) (b : Ball) : M Ball :=
  let b := setVelocity b (- dx b) (dy b) in
  let b := setPosition b faceX (y b) in
  let paddleInfluence := 25 / 100 in
  let b := setVelocity b (dx b) (dy b + velocity paddle * paddleInfluence) in
  hitPosition <- divide (y b - (py paddle + height paddle / 2))
                        (height paddle / 2) ;;
  let b := setVelocity b (dx b) (dy b + hitPosition * (15 / 10)) in
  ret (setVelocity b (dx b) (Rmax (- 6) (Rmin 6 (dy b)))).

Definition extraBallStep (s : GameState) (b : Ball) : M Ball :=
  let b :=
    if (y b - radius b <=? 0) || (y b + radius b >=? cheight (canvas s))
    then setVelocity b (dx b) (- dy b) else b in
  let left := pleft (paddles s) in
  b <- (if (dx b <? 0) && checkPaddleCollision s b left Left
        then extraBounce left (px left + width left + radius b) b
        else ret b) ;;
  let right := pright (paddles s) in
  if (dx b >? 0) && checkPaddleCollision s b right Right
  then extraBounce right (px right - radius b) b
  else ret b.

Definition extraBallsPhase (s : GameState) : M GameState :=
  let mb := multiBall (activePowerUps s) in
  if mb_active mb then
    balls <- forEachBall (extraBallStep s) (extraBalls mb) ;;
    ret (setActivePowerUps s
           (setMultiBall (activePowerUps s)
              {| mb_active := mb_active mb; mb_timeLeft := mb_timeLeft mb;
                 extraBalls := balls |}))
  else ret s.

(** A point is scored: the rally ends, a long one earns experience, and
    the ball is served again. *)
Definition endRally (s : GameState) : M GameState :=
  let s := if rallies (session s) >=? 5
           then addXP s (rallies (session s) * 2) else s in
  let s := setSession s (setRallies (session s) 0) in
  resetBall s.

Definition scorePhase (s : GameState) : M GameState :=
  if x (ball s) <? 0 then
    endRally (setScore s {| sleft := sleft (score s);
                            sright := sright (score s) + 1 |})
  else if x (ball s) >? cwidth (canvas s) then
    endRally (setScore s {| sleft := sleft (score s) + 1;
                            sright := sright (score s) |})
  else ret s.

Definition winnerPhase (s : GameState) : M GameState :=
  if sleft (score s) >=? 11 then
    let s := setGameWinner s (Some Left) in
    let a := achievements s in
    let s :=
      if negb (firstWin a) then
        addXP (setAchievements s
                 {| firstWin := true; rally10 := rally10 a;
                    rally25 := rally25 a; rally50 := rally50 a;
                    speedDemon := speedDemon a;
                    powerUpMaster := powerUpMaster a;
                    quickReflexes := quickReflexes a |}) 200
      else s in
    now <- Date_now ;;
    let gameTime := now - gameStartTime s in
    let a := achievements s in
    let s :=
      if (gameTime <? 120000) && negb (quickReflexes a) then
        addXP (setAchievements s
                 {| firstWin := firstWin a; rally10 := rally10 a;
                    rally25 := rally25 a; rally50 := rally50 a;
                    speedDemon := speedDemon a;
                    powerUpMaster := powerUpMaster a;
                    quickReflexes := true |}) 150
      else s in
    ret (addXP s 100)
  else if sright (score s) >=? 11 then ret (setGameWinner s (Some Right))
  else ret s.

(** *** updateGame *)

(** The tick from the screen shake to the wall bounce of the primary ball:
    everything that runs before the paddles are tested. *)
Definition beforePaddles (fuel : nat) (s : GameState) : M GameState :=
  s <- updateScreenShake s ;;
  s <- spawnPhase s ;;
  s <- animatePhase s ;;
  let s := effectTimersPhase s in
  let s := leftPaddlePhase s in
  s <- rightPaddlePhase fuel s ;;
  s <- moveBallsPhase s ;;
  s <- pickupPhase s ;;
  s <- trailPhase s ;;
  ret (wallPhase s).

Definition afterPaddles (s : GameState) : M GameState :=
  s <- extraBallsPhase s ;;
  s <- scorePhase s ;;
  s <- winnerPhase s ;;
  ret (checkLevelUp s).

Definition isSome {A : Type} (o : option A) : bool :=
  match o with Some _ => true | None => false end.

Definition updateGame (fuel : nat) (s : GameState) : M GameState :=
  s <- handleResetKey s ;;
  if isSome (gameWinner s) then ret s
  else
    s <- beforePaddles fuel s ;;
    s <- leftBouncePhase s ;;
    s <- rightBouncePhase s ;;
    afterPaddles s.

(** *** What the host does between two ticks

    The event handlers of the page write the keys that are held and the
    touch of each side; the menu switches the opponent on or off and
    picks its difficulty. *)
Definition hostInput (k : Keys) (t : Touch) (aiEnabled : bool)
  (aiDifficulty : string) (s : GameState) : GameState :=
  let s := setKeys s k in
  let s := setTouch s t in
  setAi s {| enabled := aiEnabled; difficulty := aiDifficulty;
             targetY := targetY (ai s);
             reactionDelay := reactionDelay (ai s);
             lastReactionTime := lastReactionTime (ai s) |}.

(** The geometry the page gives the game: a canvas and two paddles with a
    positive height. *)
Definition wellFormed (s : GameState) : Prop :=
  0 < cheight (canvas s) /\
  0 < height (pleft (paddles s)) /\
  0 < height (pright (paddles s)).

(** The states of a game: it starts with [resetGame], then the host writes
    its inputs and [updateGame] runs, any number of times. *)
Inductive reachable : GameState -> Prop :=
| reach_reset (s0 s : GameState) (e e' : Env) :
    wellFormed s0 -> validRandoms e ->
    resetGame s0 e = Ok s e' -> reachable s
| reach_input (k : Keys) (t : Touch) (aiEnabled : bool) (aiDifficulty : string)
    (s : GameState) :
    reachable s -> reachable (hostInput k t aiEnabled aiDifficulty s)
| reach_tick (fuel : nat) (s s' : GameState) (e e' : Env) :
    reachable s -> validRandoms e ->
    updateGame fuel s e = Ok s' e' -> reachable s'.

(** The state the page creates, on a window large enough for the canvas
    of 800 by 400. *)
Definition initialGameState : GameState :=
  {| ball := {| x := 400; y := 200; dx := 4; dy := 3; radius := 8;
                trail := [] |};
     paddles :=
       {| pleft := {| px := 20; py := 150; width := 12; height := 80;
                      speed := 45 / 10; prevY := 150; velocity := 0 |};
          pright := {| px := 770; py := 150; width := 12; height := 80;
                       speed := 45 / 10; prevY := 150; velocity := 0 |} |};
     canvas := {| cwidth := 800; cheight := 400 |};
     keys := {| key_r := false; key_R := false; key_w := false;
                key_W := false; key_s := false; key_S := false;
                key_ArrowUp := false; key_ArrowDown := false |};
     touch := {| leftPaddle := {| active := false; startY := 0; currentY := 0 |};
                 rightPaddle := {| active := false; startY := 0; currentY := 0 |} |};
     score := {| sleft := 0; sright := 0 |};
     gameWinner := None;
     ai := {| enabled := false; difficulty := "medium"; targetY := 200;
              reactionDelay := 0; lastReactionTime := 0 |};
     screenShake := {| shakeX := 0; shakeY := 0; intensity := 0; duration := 0 |};
     powerUps := [];
     activePowerUps := noActivePowerUps;
     powerUpSpawnTimer := 180;
     gameStartTime := 0;
     session := {| rallies := 0; longestRally := 0; totalHits := 0;
                   sessionsPlayed := 0; playTime := 0;
                   lastBreakSuggestion := 0 |};
     achievements := {| firstWin := false; rally10 := false; rally25 := false;
                        rally50 := false; speedDemon := false;
                        powerUpMaster := false; quickReflexes := false |};
     progressBar := {| currentXP := 0; level := 1; xpToNext := 100 |} |}.

End GameLogic.

(** ** components/PongGame.tsx: how it resolves a paddle bounce

    The component runs the same tick on the extracted modules.  When the
    primary ball hits a paddle it takes the velocity from
    [calculatePaddleBounce], passes the ball through [applySpeedLimits],
    and puts it flush against the face of the paddle. *)

Module PongGame.

Definition resolvePaddleBounce (ball : Ball) (paddle : Paddle) (faceX : R)
  : M Ball :=
  bouncedBall <- PhysicsEngine.calculatePaddleBounce ball (py paddle)
                   (height paddle) (velocity paddle) DEFAULT_PHYSICS_CONFIG ;;
  let ball := setVelocity ball (vdx bouncedBall) (vdy bouncedBall) in
  match PhysicsEngine.applySpeedLimits ball DEFAULT_PHYSICS_CONFIG with
  | Some limited =>
      let ball := setVelocity ball (vdx limited) (vdy limited) in
      ret (setPosition ball faceX (y ball))
  | None => fail NonFinite
  end.

(** The positions the component gives the ball and the paddles for the
    size of its canvas, before the first frame. *)
Definition initializeGamePositions (s : GameLogic.GameState)
  : GameLogic.GameState :=
  let canvasSize := GameLogic.canvas s in
  let s := GameLogic.setBall s
             (setPosition (GameLogic.ball s)
                (GameLogic.cwidth canvasSize / 2)
                (GameLogic.cheight canvasSize / 2)) in
  let left := GameLogic.pleft (GameLogic.paddles s) in
  let s := GameLogic.setLeft s
             (GameLogic.setY left
                ((GameLogic.cheight canvasSize - height left) / 2)) in
  let right := GameLogic.pright (GameLogic.paddles s) in
  let right :=
    {| px := GameLogic.cwidth canvasSize - 40 - width right;
       py := py right; width := width right; height := height right;
       speed := speed right; prevY := prevY right;
       velocity := velocity right |} in
  let right :=
    GameLogic.setY right ((GameLogic.cheight canvasSize - height right) / 2) in
  let s := GameLogic.setRight s right in
  let s := GameLogic.setAi s
             {| GameLogic.enabled := GameLogic.enabled (GameLogic.ai s);
                GameLogic.difficulty := GameLogic.difficulty (GameLogic.ai s);
                GameLogic.targetY := GameLogic.cheight canvasSize / 2;
                GameLogic.reactionDelay :=
                  GameLogic.reactionDelay (GameLogic.ai s);
                GameLogic.lastReactionTime :=
                  GameLogic.lastReactionTime (GameLogic.ai s) |} in
  let left := GameLogic.pleft (GameLogic.paddles s) in
  let s := GameLogic.setLeft s (GameLogic.setPrevY left (py left)) in
  let right := GameLogic.pright (GameLogic.paddles s) in
  GameLogic.setRight s (GameLogic.setPrevY right (py right)).

End PongGame.

(** ** The ball right after a paddle bounce in a tick of useGameLogic

    [bouncedInTick s b]: some tick started in state [s] reaches the test
    of the left or of the right paddle with a hit, and [b] is the primary
    ball when the body of that test has run. *)
Inductive bouncedInTick (s : GameLogic.GameState) : Ball -> Prop :=
| bounced_left (fuel : nat) (e e0 e1 e2 : Env) (s0 s1 s2 : GameLogic.GameState) :
    validRandoms e ->
    GameLogic.handleResetKey s e = Ok s0 e0 ->
    GameLogic.gameWinner s0 = None ->
    GameLogic.beforePaddles fuel s0 e0 = Ok s1 e1 ->
    GameLogic.hitsLeftPaddle s1 = true ->
    GameLogic.leftBouncePhase s1 e1 = Ok s2 e2 ->
    bouncedInTick s (GameLogic.ball s2)
| bounced_right (fuel : nat) (e e0 e1 e2 e3 : Env)
    (s0 s1 s2 s3 : GameLogic.GameState) :
    validRandoms e ->
    GameLogic.handleResetKey s e = Ok s0 e0 ->
    GameLogic.gameWinner s0 = None ->
    GameLogic.beforePaddles fuel s0 e0 = Ok s1 e1 ->
    GameLogic.leftBouncePhase s1 e1 = Ok s2 e2 ->
    GameLogic.hitsRightPaddle s2 = true ->
    GameLogic.rightBouncePhase s2 e2 = Ok s3 e3 ->
    bouncedInTick s (GameLogic.ball s3).

(** ** Games and values the properties are stated on *)

Import GameLogic.

(** The ball of the specification's example: dx = 5, dy = -10, y = 50, a
    canvas 600 high, the target 200 frames away.  Four reflections. *)
Definition exampleBall : Ball :=
  {| x := 100; y := 50; dx := 5; dy := -10; radius := 8; trail := [] |}.

Definition insideCircle : CollisionDetector.Circle :=
  {| CollisionDetector.cx := 50; CollisionDetector.cy := 50;
     CollisionDetector.cradius := 10 |}.

Definition aroundRect : CollisionDetector.Rectangle :=
  {| CollisionDetector.rx := 0; CollisionDetector.ry := 0;
     CollisionDetector.rwidth := 200; CollisionDetector.rheight := 100 |}.

Definition paddleAt (paddleY : R) : Paddle :=
  {| px := 700; py := paddleY; width := 12; height := 80;
     speed := 65 / 10; prevY := 300; velocity := 0 |}.

(** The radius [updatePowerUpAnimation] computes at a given time. *)
Definition radiusAt (powerUp : PowerUp) (t : R) : R :=
  Rmin (maxFloatRadius powerUp * (1 + (t - spawnTime powerUp) / 1000 / 10)) 80.

(** A power-up as [spawnPowerUp] makes them, spawned at time 1000. *)
Definition spawnedPowerUp : PowerUp :=
  {| id := 1000; type := FastBall; color := "#ef4444"; symbol := "F";
     pux := 400; puy := 200; baseX := 400; baseY := 200; rotation := 0;
     bobOffset := 0; floatOffset := 0; floatSpeed := 2 / 100;
     floatRadius := 20; maxFloatRadius := 20; spawnTime := 1000 |}.

(** A power-up with a small [maxFloatRadius], and one with a negative
    one: well-formed values of the type, which the game never spawns. *)
Definition slowPowerUp : PowerUp :=
  {| id := 0; type := FastBall; color := "#ef4444"; symbol := "F";
     pux := 400; puy := 200; baseX := 400; baseY := 200; rotation := 0;
     bobOffset := 0; floatOffset := 0; floatSpeed := 2 / 100;
     floatRadius := 5; maxFloatRadius := 5; spawnTime := 0 |}.

Definition shrinkingPowerUp : PowerUp :=
  {| id := 0; type := FastBall; color := "#ef4444"; symbol := "F";
     pux := 400; puy := 200; baseX := 400; baseY := 200; rotation := 0;
     bobOffset := 0; floatOffset := 0; floatSpeed := 2 / 100;
     floatRadius := -1; maxFloatRadius := -1; spawnTime := 0 |}.

(** A game in which multi-ball is active, with its two extra balls, and a
    second multi-ball power-up floats on the field. *)
Definition multiBallPowerUp : PowerUp :=
  {| id := 5000; type := MultiBall; color := "#f59e0b"; symbol := "M";
     pux := 400; puy := 200; baseX := 400; baseY := 200; rotation := 0;
     bobOffset := 0; floatOffset := 0; floatSpeed := 2 / 100;
     floatRadius := 20; maxFloatRadius := 20; spawnTime := 5000 |}.

Definition multiBallGame : GameLogic.GameState :=
  GameLogic.setPowerUps
    (GameLogic.setActivePowerUps GameLogic.initialGameState
       (GameLogic.setMultiBall GameLogic.noActivePowerUps
          {| GameLogic.mb_active := true; GameLogic.mb_timeLeft := 300;
             GameLogic.extraBalls :=
               [ {| x := 450; y := 200; dx := -4; dy := 3; radius := 6;
                    trail := [] |};
                 {| x := 350; y := 200; dx := -4; dy := 3; radius := 6;
                    trail := [] |} ] |}))
    [multiBallPowerUp].

(** An environment whose random draws are all 1/2 and whose clock stands
    at 0. *)
Definition steadyEnv : Env :=
  {| randoms := fun _ => 1 / 2; nextRandom := 0;
     clock := fun _ => 0; nextClock := 0 |}.

(** The canvas height and the heights of the paddles. *)
Definition geometry (s : GameState) : R * R * R :=
  (cheight (canvas s), height (pleft (paddles s)), height (pright (paddles s))).

Definition atMostOne (s : GameState) : Prop :=
  (List.length (powerUps s) <= 1)%nat.

(** [keeps s s']: going from [s] to [s'] keeps the geometry, and the bound
    on the floating power-ups if it held. *)
Definition keeps (s s' : GameState) : Prop :=
  geometry s' = geometry s /\ (atMostOne s -> atMostOne s').

Definition noKeys : Keys :=
  {| key_r := false; key_R := false; key_w := false; key_W := false;
     key_s := false; key_S := false;
     key_ArrowUp := false; key_ArrowDown := false |}.

Definition noTouch : Touch :=
  {| leftPaddle := {| active := false; startY := 0; currentY := 0 |};
     rightPaddle := {| active := false; startY := 0; currentY := 0 |} |}.

(** The game of [initialGameState] after its first reset, while the ball
    flies level to the left from the centre: nothing is pressed, nothing
    floats, no effect is active, nothing has been hit yet. *)
Definition flight (ballX timer : R) (particles : list Particle) : GameState :=
  {| ball := {| x := ballX; y := 200; dx := - 6; dy := 0; radius := 8;
                trail := particles |};
     paddles := paddles initialGameState;
     canvas := canvas initialGameState;
     keys := noKeys;
     touch := noTouch;
     score := {| sleft := 0; sright := 0 |};
     gameWinner := None;
     ai := ai initialGameState;
     screenShake := screenShake initialGameState;
     powerUps := [];
     activePowerUps := noActivePowerUps;
     powerUpSpawnTimer := timer;
     gameStartTime := 0;
     session := {| rallies := 0; longestRally := 0; totalHits := 0;
                   sessionsPlayed := 1; playTime := 0;
                   lastBreakSuggestion := 0 |};
     achievements := achievements initialGameState;
     progressBar := progressBar initialGameState |}.

(** A tick under a given environment, and the game after a reset. *)
Definition tickWith (e : Env) (s : GameState) : GameState :=
  match updateGame 0 s e with
  | Ok s' _ => s'
  | Err _ => s
  end.

Definition resetState : GameState :=
  match resetGame initialGameState steadyEnv with
  | Ok s _ => s
  | Err _ => initialGameState
  end.

(** The player drags the left paddle down by 62.5 just before the tick in
    which the ball arrives: the paddle moves by 62.5 * 0.8 = 50. *)
Definition dragTouch : Touch :=
  {| leftPaddle := {| active := true; startY := 0; currentY := 125 / 2 |};
     rightPaddle := {| active := false; startY := 0; currentY := 0 |} |}.

(** The game after a reset and 59 ticks with nothing pressed, when the
    drag has been recorded. *)
Definition beforeHit : GameState :=
  hostInput noKeys dragTouch false "medium"
    (Nat.iter 59 (tickWith steadyEnv) resetState).

(** The state of the next tick when the paddles are tested. *)
Definition atHit (particles : list Particle) : GameState :=
  {| ball := {| x := 40; y := 200; dx := - 6; dy := 0; radius := 8;
                trail := particles |};
     paddles :=
       {| pleft := {| px := 20; py := 200; width := 12; height := 80;
                      speed := 45 / 10; prevY := 150; velocity := 50 |};
          pright := pright (paddles initialGameState) |};
     canvas := canvas initialGameState;
     keys := noKeys;
     touch := {| leftPaddle := {| active := true; startY := 125 / 2;
                                  currentY := 125 / 2 |};
                 rightPaddle := {| active := false; startY := 0;
                                   currentY := 0 |} |};
     score := {| sleft := 0; sright := 0 |};
     gameWinner := None;
     ai := ai initialGameState;
     screenShake := screenShake initialGameState;
     powerUps := [];
     activePowerUps := noActivePowerUps;
     powerUpSpawnTimer := 120;
     gameStartTime := 0;
     session := {| rallies := 0; longestRally := 0; totalHits := 0;
                   sessionsPlayed := 1; playTime := 0;
                   lastBreakSuggestion := 0 |};
     achievements := achievements initialGameState;
     progressBar := progressBar initialGameState |}.

(** The primary ball of that tick after the test of the left paddle. *)
Definition ballAfterHit : Ball :=
  match beforePaddles 0 beforeHit steadyEnv with
  | Ok s1 e1 =>
      match leftBouncePhase s1 e1 with
      | Ok s2 _ => ball s2
      | Err _ => ball s1
      end
  | Err _ => ball beforeHit
  end.

(** What a phase leaves alone when it moves no paddle, scores no point
    and draws no trail. *)
Definition untouched (s s' : GameState) : Prop :=
  canvas s' = canvas s /\ paddles s' = paddles s /\ score s' = score s /\
  gameWinner s' = gameWinner s /\ trail (ball s') = trail (ball s).

(** A paddle that lies on the canvas, with a speed that is not negative. *)
Definition paddleOnCanvas (c : Canvas) (p : Paddle) : Prop :=
  0 <= speed p /\ 0 <= py p <= cheight c - height p.

Definition paddlesOnCanvas (s : GameState) : Prop :=
  paddleOnCanvas (canvas s) (pleft (paddles s)) /\
  paddleOnCanvas (canvas s) (pright (paddles s)).

(** What a tick does to a paddle: it moves it, records where it was and
    by how much it moved, and keeps it on the canvas if it was there. *)
Definition paddleStep (c : Canvas) (p p' : Paddle) : Prop :=
  px p' = px p /\ width p' = width p /\ height p' = height p /\
  speed p' = speed p /\ prevY p' = py p /\ velocity p' = py p' - py p /\
  (paddleOnCanvas c p -> paddleOnCanvas c p').

(** A trail whose particles fade in order: every particle has life left,
    and at most the lifetime less one for each frame since it was pushed,
    the particles after it in the array being younger. *)
Fixpoint fadingTrail (lifetime : R) (l : list Particle) : Prop :=
  match l with
  | [] => True
  | particle :: l' =>
      0 < life particle <= lifetime - 1 - INR (List.length l') /\
      fadingTrail lifetime l'
  end.

(** The countdown [effectTimersPhase] applies to each timed effect: the
    active flag and the time left after one tick. *)
Definition countdown (active : bool) (timeLeft : R) : bool * R :=
  if active
  then ((if timeLeft - 1 <=? 0 then false else active), timeLeft - 1)
  else (active, timeLeft).

(** * Properties *)

Lemma ltb_true (a b : R) : (a <? b) = true <-> a < b.
Proof. unfold ltb; destruct (Rlt_dec a b); split; intros; (congruence || lra). Qed.

Lemma ltb_false (a b : R) : (a <? b) = false <-> b <= a.
Proof. unfold ltb; destruct (Rlt_dec a b); split; intros; (congruence || lra). Qed.

Lemma leb_true (a b : R) : (a <=? b) = true <-> a <= b.
Proof. unfold leb; destruct (Rle_dec a b); split; intros; (congruence || lra). Qed.

Lemma leb_false (a b : R) : (a <=? b) = false <-> b < a.
Proof. unfold leb; destruct (Rle_dec a b); split; intros; (congruence || lra). Qed.

Lemma eqb_true (a b : R) : (a =? b) = true <-> a = b.
Proof. unfold eqb; destruct (Req_dec_T a b); split; intros; congruence. Qed.

Lemma eqb_false (a b : R) : (a =? b) = false <-> a <> b.
Proof. unfold eqb; destruct (Req_dec_T a b); split; intros; congruence. Qed.

(** Decide every comparison in sight, keeping the fact it decides. *)
Ltac rdec :=
  repeat match goal with
    | |- context [ltb ?a ?b] =>
        let E := fresh "E" in
        destruct (ltb a b) eqn:E;
        [apply ltb_true in E | apply ltb_false in E]
    | |- context [leb ?a ?b] =>
        let E := fresh "E" in
        destruct (leb a b) eqn:E;
        [apply leb_true in E | apply leb_false in E]
    | |- context [eqb ?a ?b] =>
        let E := fresh "E" in
        destruct (eqb a b) eqn:E;
        [apply eqb_true in E | apply eqb_false in E]
    end.

Lemma jsdiv_some (a b : R) : b <> 0 -> jsdiv a b = Some (a / b).
Proof. intros H; unfold jsdiv; rdec; [contradiction | reflexivity]. Qed.

Lemma jsdiv_zero (a : R) : jsdiv a 0 = None.
Proof. unfold jsdiv; rdec; [reflexivity | contradiction]. Qed.

(** ** Monotonicity of fuel *)

Lemma unfoldReflections_more_fuel (n k : nat) (H y v : R) :
  PhysicsEngine.unfoldReflections n H y = Some v ->
  PhysicsEngine.unfoldReflections (n + k) H y = Some v.
Proof.
  revert y; induction n as [|n IH]; intros y; simpl; [discriminate|].
  destruct ((y <? 0) || (y >? H)); [|auto].
  destruct (y <? 0); [apply IH|].
  destruct (y >? H); apply IH.
Qed.

Lemma unfoldReflections_in_range (n : nat) (H y : R) :
  0 <= y <= H -> PhysicsEngine.unfoldReflections (S n) H y = Some y.
Proof.
  intros Hy; simpl.
  rdec; simpl; try reflexivity; lra.
Qed.

(** [n] reflections bring back any value at most [n] heights away. *)
Lemma unfoldReflections_terminates (H : R) (n : nat) :
  0 < H ->
  (forall y, 0 <= y <= (INR n + 1) * H ->
     exists v, PhysicsEngine.unfoldReflections (S n) H y = Some v /\ 0 <= v <= H) /\
  (forall y, - (INR n * H) <= y < 0 ->
     exists v, PhysicsEngine.unfoldReflections (S n) H y = Some v /\ 0 <= v <= H).
Proof.
  intros HH; induction n as [|n [IHa IHb]].
  - simpl INR; split; intros y Hy; [|lra].
    exists y; split; [apply unfoldReflections_in_range|]; lra.
  - rewrite S_INR; split; intros y Hy.
    + destruct (Rle_dec y H) as [Hle|Hgt].
      * exists y; split; [apply unfoldReflections_in_range|]; lra.
      * assert (Hstep : PhysicsEngine.unfoldReflections (S (S n)) H y =
                        PhysicsEngine.unfoldReflections (S n) H (2 * H - y)).
        { cbn [PhysicsEngine.unfoldReflections].
          rdec; simpl; try reflexivity; lra. }
        rewrite Hstep.
        destruct (Rle_dec 0 (2 * H - y)) as [Hpos|Hneg].
        -- exists (2 * H - y); split; [apply unfoldReflections_in_range|]; lra.
        -- apply IHb; lra.
    + assert (Hstep : PhysicsEngine.unfoldReflections (S (S n)) H y =
                      PhysicsEngine.unfoldReflections (S n) H (- y)).
      { cbn [PhysicsEngine.unfoldReflections].
        rdec; simpl; try reflexivity; lra. }
      rewrite Hstep. apply IHa; lra.
Qed.

Lemma reflectionsBound_enough (H y : R) :
  0 < H -> Rabs y <= INR (Z.to_nat (up (Rabs y / H))) * H.
Proof.
  intros HH.
  destruct (archimed (Rabs y / H)) as [Hup _].
  assert (Hq : 0 <= Rabs y / H).
  { apply Rmult_le_pos; [apply Rabs_pos | left; apply Rinv_0_lt_compat; exact HH]. }
  assert (Hz : (0 <= up (Rabs y / H))%Z).
  { apply le_IZR; simpl; lra. }
  rewrite INR_IZR_INZ, Z2Nat.id by exact Hz.
  apply Rmult_lt_compat_r with (r := H) in Hup; [|exact HH].
  unfold Rdiv in Hup; rewrite Rmult_assoc, Rinv_l, Rmult_1_r in Hup; lra.
Qed.

Lemma unfoldReflections_bounded (H y : R) (fuel : nat) :
  0 < H -> (reflectionsBound H y <= fuel)%nat ->
  exists v, PhysicsEngine.unfoldReflections fuel H y = Some v /\ 0 <= v <= H.
Proof.
  intros HH Hfuel; unfold reflectionsBound in Hfuel.
  set (n := Z.to_nat (up (Rabs y / H))) in *.
  pose proof (reflectionsBound_enough H y HH) as Hn; fold n in Hn.
  destruct (unfoldReflections_terminates H n HH) as [Ha Hb].
  assert (Hex : exists v, PhysicsEngine.unfoldReflections (S n) H y = Some v /\ 0 <= v <= H).
  { destruct (Rle_dec 0 y) as [Hpos|Hneg].
    - apply Ha; rewrite Rabs_right in Hn by lra; lra.
    - apply Hb; rewrite Rabs_left in Hn by lra; lra. }
  destruct Hex as [v [Hv Hr]]; exists v; split; [|exact Hr].
  replace fuel with (S n + (fuel - S n))%nat by lia.
  apply unfoldReflections_more_fuel; exact Hv.
Qed.

(** ** Trajectory prediction *)

Lemma simulateWallBounces_unfoldReflections (fuel : nat) (H y : R) :
  AIController.simulateWallBounces fuel H y =
  PhysicsEngine.unfoldReflections fuel H y.
Proof.
  revert y; induction fuel as [|n IH]; intros y; simpl; [reflexivity|].
  rewrite !IH; reflexivity.
Qed.

Lemma predictBallPosition_predictBallY (fuel : nat) (ball : Ball) (tx H : R) :
  AIController.predictBallPosition fuel ball tx H =
  PhysicsEngine.predictBallY fuel ball tx H.
Proof.
  unfold AIController.predictBallPosition, PhysicsEngine.predictBallY.
  rewrite simulateWallBounces_unfoldReflections; reflexivity.
Qed.


Lemma exampleBall_bound :
  reflectionsBound 600 (y exampleBall + dy exampleBall *
                          ((1100 - x exampleBall) / dx exampleBall)) = 5%nat.
Proof.
  unfold reflectionsBound, exampleBall; simpl.
  replace (50 + -10 * ((1100 - 100) / 5)) with (- 1950) by lra.
  rewrite Rabs_left by lra.
  assert (Hup : up (- - 1950 / 600) = 4%Z).
  { symmetry; apply tech_up; simpl; lra. }
  rewrite Hup; reflexivity.
Qed.


(** ** Speed limits *)

Lemma speed_nonneg (ball : Ball) : 0 <= PhysicsEngine.calculateBallSpeed ball.
Proof. apply sqrt_pos. Qed.

Lemma speed_pos (ball : Ball) :
  dx ball <> 0 -> 0 < PhysicsEngine.calculateBallSpeed ball.
Proof.
  intros H; apply sqrt_lt_R0.
  assert (0 < dx ball * dx ball) by nra.
  assert (0 <= dy ball * dy ball) by nra.
  lra.
Qed.

Lemma scaled_speed (a b m : R) :
  0 <= m -> sqrt (a * m * (a * m) + b * m * (b * m)) = m * sqrt (a * a + b * b).
Proof.
  intros Hm.
  replace (a * m * (a * m) + b * m * (b * m)) with (m * m * (a * a + b * b)) by ring.
  rewrite sqrt_mult_alt by nra.
  rewrite sqrt_square by exact Hm; reflexivity.
Qed.

(** What [applySpeedLimits] does to a ball that moves, under limits in
    order: the three cases of the function, and the range of the result. *)
Lemma applySpeedLimits_moving (ball : Ball) (config : PhysicsConfig) :
  0 < PhysicsEngine.calculateBallSpeed ball ->
  0 < minBallSpeed config <= maxBallSpeed config ->
  exists v,
    PhysicsEngine.applySpeedLimits ball config = Some v /\
    let speed' := sqrt (vdx v * vdx v + vdy v * vdy v) in
    let speed := PhysicsEngine.calculateBallSpeed ball in
    minBallSpeed config <= speed' <= maxBallSpeed config /\
    (speed < minBallSpeed config -> speed' = minBallSpeed config) /\
    (speed > maxBallSpeed config -> speed' = maxBallSpeed config) /\
    (minBallSpeed config <= speed <= maxBallSpeed config ->
     v = {| vdx := dx ball; vdy := dy ball |}).
Proof.
  intros Hs [Hmin Hmax].
  unfold PhysicsEngine.applySpeedLimits.
  set (sp := PhysicsEngine.calculateBallSpeed ball) in *.
  assert (Hsp : sp = sqrt (dx ball * dx ball + dy ball * dy ball)) by reflexivity.
  rdec.
  - rewrite jsdiv_some by lra.
    eexists; split; [reflexivity|]; cbn [vdx vdy].
    assert (Hm : 0 <= minBallSpeed config / sp).
    { apply Rmult_le_pos; [lra | left; apply Rinv_0_lt_compat; exact Hs]. }
    rewrite scaled_speed by exact Hm; rewrite <- Hsp.
    assert (Heq : minBallSpeed config / sp * sp = minBallSpeed config)
      by (field; lra).
    rewrite Heq; repeat split; intros; lra.
  - rewrite jsdiv_some by lra.
    eexists; split; [reflexivity|]; cbn [vdx vdy].
    assert (Hm : 0 <= maxBallSpeed config / sp).
    { apply Rmult_le_pos; [lra | left; apply Rinv_0_lt_compat; exact Hs]. }
    rewrite scaled_speed by exact Hm; rewrite <- Hsp.
    assert (Heq : maxBallSpeed config / sp * sp = maxBallSpeed config)
      by (field; lra).
    rewrite Heq; repeat split; intros; lra.
  - eexists; split; [reflexivity|]; cbn [vdx vdy]; rewrite <- Hsp.
    repeat split; intros; lra.
Qed.

(** C2, at the input where the code departs from it.  A ball at rest has
    speed 0, below the minimum; the multiplier [minBallSpeed / 0] is not a
    number, and neither component of the returned velocity is: the speed
    is not brought up to the minimum. *)
Theorem applySpeedLimits_ball_at_rest (bx by' r : R) (tr : list Particle) :
  let ball :=
    {| x := bx; y := by'; dx := 0; dy := 0; radius := r; trail := tr |} in
  PhysicsEngine.calculateBallSpeed ball = 0 /\
  PhysicsEngine.applySpeedLimits ball DEFAULT_PHYSICS_CONFIG = None.
Proof.
  intros ball.
  assert (H0 : PhysicsEngine.calculateBallSpeed ball = 0).
  { unfold PhysicsEngine.calculateBallSpeed, ball; simpl.
    replace (0 * 0 + 0 * 0) with 0 by ring; apply sqrt_0. }
  split; [exact H0|].
  unfold PhysicsEngine.applySpeedLimits; rewrite H0; simpl.
  assert (E : (0 <? 4) = true) by (apply ltb_true; lra).
  rewrite E, jsdiv_zero; reflexivity.
Qed.

(** ** Degenerate collisions *)

(** C8.  When a collision is detected and the geometry is degenerate, the
    normal is still a unit vector: for a circle whose centre is its own
    closest point of the rectangle, the horizontal normal that points away
    from the middle of the rectangle, (-1, 0) left of it and (1, 0)
    otherwise; for two circles with the same centre, the normal (1, 0). *)
Theorem degenerate_collisions_have_unit_normal :
  (forall circle rect,
     CollisionDetector.cx circle =
       Rmax (CollisionDetector.rx rect)
            (Rmin (CollisionDetector.cx circle)
                  (CollisionDetector.rx rect + CollisionDetector.rwidth rect)) ->
     CollisionDetector.cy circle =
       Rmax (CollisionDetector.ry rect)
            (Rmin (CollisionDetector.cy circle)
                  (CollisionDetector.ry rect + CollisionDetector.rheight rect)) ->
     let info := CollisionDetector.checkCircleRectCollision circle rect in
     CollisionDetector.collided info = true ->
     exists n,
       CollisionDetector.normal info = Some n /\
       CollisionDetector.vx n =
         (if CollisionDetector.cx circle
             <? CollisionDetector.rx rect + CollisionDetector.rwidth rect / 2
          then -1 else 1) /\
       CollisionDetector.vy n = 0 /\
       CollisionDetector.norm n = 1) /\
  (forall circle1 circle2,
     CollisionDetector.cx circle1 = CollisionDetector.cx circle2 ->
     CollisionDetector.cy circle1 = CollisionDetector.cy circle2 ->
     let info := CollisionDetector.checkCircleCircleCollision circle1 circle2 in
     CollisionDetector.collided info = true ->
     CollisionDetector.normal info
       = Some {| CollisionDetector.vx := 1; CollisionDetector.vy := 0 |} /\
     CollisionDetector.norm
       {| CollisionDetector.vx := 1; CollisionDetector.vy := 0 |} = 1).
Proof.
  split.
  - intros circle rect Hx Hy info Hc; subst info.
    unfold CollisionDetector.checkCircleRectCollision in *.
    rewrite <- Hx, <- Hy in *.
    replace ((CollisionDetector.cx circle - CollisionDetector.cx circle) *
             (CollisionDetector.cx circle - CollisionDetector.cx circle) +
             (CollisionDetector.cy circle - CollisionDetector.cy circle) *
             (CollisionDetector.cy circle - CollisionDetector.cy circle))
      with 0 in * by ring.
    rewrite sqrt_0 in *.
    destruct (0 <=? CollisionDetector.cradius circle * CollisionDetector.cradius circle);
      simpl in Hc; [|discriminate].
    simpl.
    assert (E : (0 >? 0) = false) by (apply ltb_false; lra).
    rewrite E.
    eexists; split; [reflexivity|]; cbn.
    split; [reflexivity|]; split; [reflexivity|].
    unfold CollisionDetector.norm; cbn.
    rdec.
    + replace (-1 * -1 + 0 * 0) with 1 by ring; apply sqrt_1.
    + replace (1 * 1 + 0 * 0) with 1 by ring; apply sqrt_1.
  - intros c1 c2 Hx Hy info Hc; subst info.
    unfold CollisionDetector.checkCircleCircleCollision in *.
    rewrite Hx, Hy in *.
    replace ((CollisionDetector.cx c2 - CollisionDetector.cx c2) *
             (CollisionDetector.cx c2 - CollisionDetector.cx c2) +
             (CollisionDetector.cy c2 - CollisionDetector.cy c2) *
             (CollisionDetector.cy c2 - CollisionDetector.cy c2))
      with 0 in * by ring.
    rewrite sqrt_0 in *.
    destruct (0 <? CollisionDetector.cradius c1 + CollisionDetector.cradius c2);
      simpl in Hc; [|discriminate].
    simpl.
    assert (E : (0 >? 0) = false) by (apply ltb_false; lra).
    rewrite E; split; [reflexivity|].
    unfold CollisionDetector.norm; cbn.
    replace (1 * 1 + 0 * 0) with 1 by ring; apply sqrt_1.
Qed.

(** Evaluate [Rmax], [Rmin] and comparisons whose outcome [lra] decides. *)
Ltac rminmax :=
  repeat match goal with
    | |- context [Rmax ?a ?b] =>
        first [rewrite (Rmax_left a b) by lra | rewrite (Rmax_right a b) by lra]
    | |- context [Rmin ?a ?b] =>
        first [rewrite (Rmin_left a b) by lra | rewrite (Rmin_right a b) by lra]
    end.

Ltac rbool :=
  repeat match goal with
    | |- context [ltb ?a ?b] =>
        first [rewrite (proj2 (ltb_true a b)) by lra
              | rewrite (proj2 (ltb_false a b)) by lra]
    | |- context [leb ?a ?b] =>
        first [rewrite (proj2 (leb_true a b)) by lra
              | rewrite (proj2 (leb_false a b)) by lra]
    | |- context [eqb ?a ?b] =>
        first [rewrite (proj2 (eqb_true a b)) by lra
              | rewrite (proj2 (eqb_false a b)) by lra]
    end.

Lemma degenerate_collisions_have_unit_normal_witness :
  (exists n,
     CollisionDetector.normal
       (CollisionDetector.checkCircleRectCollision insideCircle aroundRect)
       = Some n /\
     CollisionDetector.vx n = (if 50 <? 0 + 200 / 2 then -1 else 1) /\
     CollisionDetector.vy n = 0 /\
     CollisionDetector.norm n = 1) /\
  (CollisionDetector.normal
     (CollisionDetector.checkCircleCircleCollision insideCircle insideCircle)
     = Some {| CollisionDetector.vx := 1; CollisionDetector.vy := 0 |} /\
   CollisionDetector.norm
     {| CollisionDetector.vx := 1; CollisionDetector.vy := 0 |} = 1).
Proof.
  destruct degenerate_collisions_have_unit_normal as [Hrect Hcircle].
  split.
  - apply (Hrect insideCircle aroundRect); simpl.
    + rminmax; reflexivity.
    + rminmax; reflexivity.
    + unfold CollisionDetector.checkCircleRectCollision; simpl.
      rminmax.
      replace ((50 - 50) * (50 - 50) + (50 - 50) * (50 - 50)) with 0 by ring.
      rbool; simpl. rewrite sqrt_0. rbool. reflexivity.
  - apply (Hcircle insideCircle insideCircle); simpl; try reflexivity.
    unfold CollisionDetector.checkCircleCircleCollision; simpl.
    replace ((50 - 50) * (50 - 50) + (50 - 50) * (50 - 50)) with 0 by ring.
    rewrite sqrt_0. rbool; simpl. rbool. reflexivity.
Defined.

(** ** The owner of a power-up *)

(** C9.  [getPowerUpOwner] answers the right side exactly when the ball
    moves to the right, and the left side otherwise, in particular when
    the ball has no horizontal velocity; the pickup loop of [updateGame]
    activates the first power-up the ball touches for the side given by
    the same rule. *)
Theorem getPowerUpOwner_by_direction :
  (forall ball,
     (PowerUpManager.getPowerUpOwner ball = Right <-> dx ball > 0) /\
     (PowerUpManager.getPowerUpOwner ball = Left <-> ~ dx ball > 0) /\
     (dx ball = 0 -> PowerUpManager.getPowerUpOwner ball = Left)) /\
  (forall s,
     GameLogic.pickupPhase s =
     match find (GameLogic.touchesPowerUp (GameLogic.ball s))
                (GameLogic.powerUps s) with
     | Some powerUp =>
         GameLogic.activatePowerUp powerUp
           (Some (PowerUpManager.getPowerUpOwner (GameLogic.ball s))) s
     | None => ret s
     end).
Proof.
  split.
  - intros ball; unfold PowerUpManager.getPowerUpOwner.
    rdec; repeat split; intros; try congruence; try lra.
  - intros s; unfold GameLogic.pickupPhase.
    induction (GameLogic.powerUps s) as [|p l IH]; simpl; [reflexivity|].
    destruct (GameLogic.touchesPowerUp (GameLogic.ball s) p); [reflexivity|].
    exact IH.
Qed.

(** ** The opponent's paddle at the hard tier *)

Lemma hard_step_down :
  AIController.updateAIPaddle (paddleAt 300) 343 600
    (AIController.getAIConfig AIController.hard) = 615 / 2.
Proof.
  unfold AIController.updateAIPaddle; simpl.
  replace (343 - (300 + 80 / 2)) with 3 by lra.
  rewrite Rabs_right by lra.
  rbool. rminmax. lra.
Qed.

Lemma hard_step_up :
  AIController.updateAIPaddle (paddleAt (615 / 2)) 343 600
    (AIController.getAIConfig AIController.hard) = 300.
Proof.
  unfold AIController.updateAIPaddle; simpl.
  replace (343 - (615 / 2 + 80 / 2)) with (- (9 / 2)) by lra.
  rewrite Rabs_left by lra.
  rbool. rminmax. lra.
Qed.

Lemma hard_cycle (n : nat) :
  AIController.iterateAIPaddle n (paddleAt 300) 343 600
    (AIController.getAIConfig AIController.hard)
    = (if Nat.even n then 300 else 615 / 2) /\
  AIController.iterateAIPaddle n (paddleAt (615 / 2)) 343 600
    (AIController.getAIConfig AIController.hard)
    = (if Nat.even n then 615 / 2 else 300).
Proof.
  induction n as [|n [IH1 IH2]]; [split; reflexivity|].
  cbn [AIController.iterateAIPaddle].
  rewrite hard_step_down, hard_step_up.
  change (AIController.movePaddleTo (paddleAt 300) (615 / 2))
    with (paddleAt (615 / 2)).
  change (AIController.movePaddleTo (paddleAt (615 / 2)) 300)
    with (paddleAt 300).
  rewrite IH1, IH2, Nat.even_succ, <- Nat.negb_even.
  destruct (Nat.even n); split; reflexivity.
Qed.

(** C4, at the input where the code departs from it.  At the hard tier
    (speed 7.5, dead zone 2) a paddle 80 high at y = 300 chasing the fixed
    target 343 on a canvas 600 high never settles: its centre is 3 short of
    the target, one step of 7.5 takes it 4.5 past it, the next step takes
    it back, and so on for ever. *)
Theorem updateAIPaddle_hard_oscillates (n : nat) :
  AIController.speed (AIController.getAIConfig AIController.hard) = 75 / 10 /\
  AIController.iterateAIPaddle (2 * n) (paddleAt 300) 343 600
    (AIController.getAIConfig AIController.hard) = 300 /\
  AIController.iterateAIPaddle (2 * n + 1) (paddleAt 300) 343 600
    (AIController.getAIConfig AIController.hard) = 615 / 2 /\
  300 + 80 / 2 < 343 < 615 / 2 + 80 / 2.
Proof.
  split; [reflexivity|].
  split; [|split; [|lra]].
  - rewrite (proj1 (hard_cycle (2 * n))).
    rewrite Nat.even_mul; reflexivity.
  - rewrite (proj1 (hard_cycle (2 * n + 1))).
    rewrite Nat.add_1_r, Nat.even_succ, <- Nat.negb_even, Nat.even_mul.
    reflexivity.
Qed.

(** ** The floating radius of a power-up *)

Lemma updatePowerUpAnimation_radius (p : PowerUp) (cw ch t : R) :
  floatRadius (PowerUpManager.updatePowerUpAnimation p cw ch t) = radiusAt p t.
Proof. reflexivity. Qed.

Lemma animationRadii_map (p : PowerUp) (cw ch : R) (times : list R) :
  PowerUpManager.animationRadii p cw ch times = map (radiusAt p) times.
Proof.
  revert p; induction times as [|t times IH]; intros p; simpl; [reflexivity|].
  rewrite IH; reflexivity.
Qed.

Lemma radiusAt_monotone (p : PowerUp) (t1 t2 : R) :
  0 <= maxFloatRadius p -> t1 <= t2 -> radiusAt p t1 <= radiusAt p t2.
Proof.
  intros Hm Ht; unfold radiusAt.
  apply Rle_min_compat_r.
  apply Rmult_le_compat_l; [exact Hm|lra].
Qed.

Lemma radiusAt_capped (p : PowerUp) (t : R) : radiusAt p t <= 80.
Proof. unfold radiusAt; apply Rmin_r. Qed.

Lemma radiusAt_cap_reached (p : PowerUp) (t : R) :
  80 / 11 <= maxFloatRadius p -> 100 * 1000 <= t - spawnTime p ->
  radiusAt p t = 80.
Proof.
  intros Hm Ht; unfold radiusAt.
  apply Rmin_right.
  assert (H11 : 11 <= 1 + (t - spawnTime p) / 1000 / 10) by lra.
  assert (H0 : 0 < maxFloatRadius p) by lra.
  nra.
Qed.

Lemma nonDecreasing_map_radiusAt (p : PowerUp) (t0 : R) (times : list R) :
  0 <= maxFloatRadius p ->
  nonDecreasing (t0 :: times) ->
  nonDecreasing (map (radiusAt p) (t0 :: times)).
Proof.
  intros Hm; revert t0; induction times as [|t times IH]; intros t0 Hs.
  - exact I.
  - destruct Hs as [Hle Hs]; split.
    + apply radiusAt_monotone; assumption.
    + apply IH; exact Hs.
Qed.

Lemma nonDecreasing_tail (a : R) (l : list R) :
  nonDecreasing (a :: l) -> nonDecreasing l.
Proof. destruct l as [|b l]; [intros; exact I | intros [_ H]; exact H]. Qed.

Lemma animatePowerUp_updatePowerUpAnimation
  (c : GameLogic.Canvas) (p : PowerUp) (now : R) :
  GameLogic.animatePowerUp c p now =
  PowerUpManager.updatePowerUpAnimation p
    (GameLogic.cwidth c) (GameLogic.cheight c) now.
Proof. reflexivity. Qed.




(** ** Activating a power-up while multi-ball is active *)

Lemma activatePowerUp_multiBall_active
  (powerUp : PowerUp) (player : option Side) (s : GameLogic.GameState) (e : Env) :
  type powerUp = MultiBall ->
  GameLogic.mb_active (GameLogic.multiBall (GameLogic.activePowerUps s)) = true ->
  GameLogic.activatePowerUp powerUp player s e =
  Ok (GameLogic.addScreenShake 8 15
        (GameLogic.setPowerUpSpawnTimer
           (GameLogic.setPowerUps s
              (filter (fun p => negb (id p =? id powerUp))
                      (GameLogic.powerUps s)))
           ((2 + randoms e (nextRandom e) * 8) * 60)))
     {| randoms := randoms e; nextRandom := S (nextRandom e);
        clock := clock e; nextClock := nextClock e |}.
Proof.
  intros Ht Ha; unfold GameLogic.activatePowerUp.
  rewrite Ht, Ha; reflexivity.
Qed.

(** C5.  When the multi-ball effect is active, activating a multi-ball
    power-up leaves the multi-ball slot as it was: the active flag, the
    time left and the list of extra balls, hence their number. *)
Theorem activatePowerUp_multiBall_no_stacking
  (powerUp : PowerUp) (player : option Side) (s : GameLogic.GameState) (e : Env) :
  type powerUp = MultiBall ->
  GameLogic.mb_active (GameLogic.multiBall (GameLogic.activePowerUps s)) = true ->
  exists s' e',
    GameLogic.activatePowerUp powerUp player s e = Ok s' e' /\
    GameLogic.multiBall (GameLogic.activePowerUps s')
      = GameLogic.multiBall (GameLogic.activePowerUps s) /\
    List.length (GameLogic.extraBalls
                   (GameLogic.multiBall (GameLogic.activePowerUps s')))
      = List.length (GameLogic.extraBalls
                       (GameLogic.multiBall (GameLogic.activePowerUps s))).
Proof.
  intros Ht Ha.
  rewrite (activatePowerUp_multiBall_active powerUp player s e Ht Ha).
  eexists; eexists; split; [reflexivity|]; split; reflexivity.
Qed.

Lemma activatePowerUp_multiBall_no_stacking_witness :
  exists s' e',
    GameLogic.activatePowerUp multiBallPowerUp (Some Left) multiBallGame steadyEnv
      = Ok s' e' /\
    GameLogic.multiBall (GameLogic.activePowerUps s')
      = GameLogic.multiBall (GameLogic.activePowerUps multiBallGame) /\
    List.length (GameLogic.extraBalls
                   (GameLogic.multiBall (GameLogic.activePowerUps s')))
      = 2%nat.
Proof.
  apply (activatePowerUp_multiBall_no_stacking multiBallPowerUp (Some Left)
           multiBallGame steadyEnv); reflexivity.
Defined.

Lemma filter_removes_id (powerUp : PowerUp) (l : list PowerUp) :
  ~ In powerUp (filter (fun p => negb (id p =? id powerUp)) l).
Proof.
  intros Hin; apply filter_In in Hin; destruct Hin as [_ Hne].
  assert (E : (id powerUp =? id powerUp) = true) by (apply eqb_true; reflexivity).
  rewrite E in Hne; discriminate.
Qed.

(** C10.  When the multi-ball effect is active, activating a multi-ball
    power-up still consumes it: the power-up leaves the list of floating
    power-ups and the spawn timer is drawn again, (2 + 8 r) * 60 frames for
    the next random number r, between 120 and 600; the active effects,
    with the extra balls and the time left of multi-ball, and the ball stay
    as they were. *)
Theorem activatePowerUp_multiBall_consumes_pickup
  (powerUp : PowerUp) (player : option Side) (s : GameLogic.GameState) (e : Env) :
  type powerUp = MultiBall ->
  GameLogic.mb_active (GameLogic.multiBall (GameLogic.activePowerUps s)) = true ->
  exists s' e',
    GameLogic.activatePowerUp powerUp player s e = Ok s' e' /\
    GameLogic.powerUps s'
      = filter (fun p => negb (id p =? id powerUp)) (GameLogic.powerUps s) /\
    ~ In powerUp (GameLogic.powerUps s') /\
    GameLogic.powerUpSpawnTimer s' = (2 + randoms e (nextRandom e) * 8) * 60 /\
    nextRandom e' = S (nextRandom e) /\
    (validRandoms e -> 120 <= GameLogic.powerUpSpawnTimer s' < 600) /\
    GameLogic.activePowerUps s' = GameLogic.activePowerUps s /\
    GameLogic.ball s' = GameLogic.ball s.
Proof.
  intros Ht Ha.
  rewrite (activatePowerUp_multiBall_active powerUp player s e Ht Ha).
  eexists; eexists; split; [reflexivity|]; cbn.
  split; [reflexivity|].
  split; [apply filter_removes_id|].
  split; [reflexivity|].
  split; [reflexivity|].
  split; [|split; reflexivity].
  intros Hv; specialize (Hv (nextRandom e)); lra.
Qed.

Lemma activatePowerUp_multiBall_consumes_pickup_witness :
  exists s' e',
    GameLogic.activatePowerUp multiBallPowerUp (Some Left) multiBallGame steadyEnv
      = Ok s' e' /\
    GameLogic.powerUps s'
      = filter (fun p => negb (id p =? id multiBallPowerUp))
               (GameLogic.powerUps multiBallGame) /\
    ~ In multiBallPowerUp (GameLogic.powerUps s') /\
    GameLogic.powerUpSpawnTimer s' = (2 + 1 / 2 * 8) * 60 /\
    nextRandom e' = 1%nat /\
    (validRandoms steadyEnv -> 120 <= GameLogic.powerUpSpawnTimer s' < 600) /\
    GameLogic.activePowerUps s' = GameLogic.activePowerUps multiBallGame /\
    GameLogic.ball s' = GameLogic.ball multiBallGame.
Proof.
  apply (activatePowerUp_multiBall_consumes_pickup multiBallPowerUp (Some Left)
           multiBallGame steadyEnv); reflexivity.
Defined.

(** ** What a tick keeps: the geometry and the bound on floating power-ups *)

Lemma keeps_refl (s : GameState) : keeps s s.
Proof. split; [reflexivity | auto]. Qed.

Lemma keeps_trans (s1 s2 s3 : GameState) :
  keeps s1 s2 -> keeps s2 s3 -> keeps s1 s3.
Proof.
  intros [G1 B1] [G2 B2]; split; [congruence | auto].
Qed.

Lemma bind_ok {A B} (c : M A) (k : A -> M B) (e e' : Env) (b : B) :
  bind c k e = Ok b e' ->
  exists a e1, c e = Ok a e1 /\ k a e1 = Ok b e'.
Proof.
  unfold bind; destruct (c e) as [a e1|f]; [|discriminate].
  intros H; exists a, e1; split; [reflexivity | exact H].
Qed.

Lemma ret_ok {A} (a b : A) (e e' : Env) : ret a e = Ok b e' -> a = b /\ e = e'.
Proof. unfold ret; intros H; inversion H; split; reflexivity. Qed.

(** Take a successful run apart, one call at a time. *)
Ltac mstep H :=
  match type of H with
  | bind _ _ _ = Ok _ _ =>
      let a := fresh "a" in
      let e := fresh "e" in
      let Hc := fresh "Hc" in
      apply bind_ok in H; destruct H as (a & e & Hc & H)
  | ret _ _ = Ok _ _ =>
      apply ret_ok in H; destruct H as [? ?]; subst
  | fail _ _ = Ok _ _ => discriminate H
  | Err _ = Ok _ _ => discriminate H
  | Ok _ _ = Ok _ _ => inversion H; subst; clear H
  end.

(** Take apart every run in the context, deciding the tests on the way. *)
Ltac mrun :=
  repeat match goal with
    | H : bind _ _ _ = Ok _ _ |- _ =>
        apply bind_ok in H; destruct H as (? & ? & ? & H)
    | H : ret _ _ = Ok _ _ |- _ =>
        apply ret_ok in H; destruct H as [? ?]; subst
    | H : fail _ _ = Ok _ _ |- _ => discriminate H
    | H : Err _ = Ok _ _ |- _ => discriminate H
    | H : Math_random _ = Ok _ _ |- _ =>
        unfold Math_random in H; inversion H; subst; clear H
    | H : Date_now _ = Ok _ _ |- _ =>
        unfold Date_now in H; inversion H; subst; clear H
    | H : divide _ _ _ = Ok _ _ |- _ =>
        unfold divide in H; destruct (jsdiv _ _) in H
    | H : (if ?c then _ else _) _ = Ok _ _ |- _ => destruct c
    | H : Ok _ _ = Ok _ _ |- _ => inversion H; subst; clear H
    end.

(** A state built by assignments and tests keeps what they do not write. *)
Ltac frame :=
  split; [unfold geometry | unfold atMostOne];
  repeat (cbn; match goal with
               | |- context [if ?c then _ else _] => destruct c
               end);
  cbn; auto.

Lemma resetBall_keeps (s s' : GameState) (e e' : Env) :
  resetBall s e = Ok s' e' ->
  keeps s s' /\ powerUps s' = powerUps s /\
  (validRandoms e ->
   (dx (ball s') = 6 \/ dx (ball s') = - 6) /\
   - (24 / 10) <= dy (ball s') <= 24 / 10).
Proof.
  unfold resetBall, bind, ret, Math_random; intros H; inversion H; subst; clear H.
  split; [split; [reflexivity | auto]|].
  split; [reflexivity|].
  intros Hv; cbn.
  pose proof (Hv (nextRandom e)) as H1.
  pose proof (Hv (S (nextRandom e))) as H2.
  split; [rdec; auto | lra].
Qed.

Lemma resetGame_keeps (s s' : GameState) (e e' : Env) :
  resetGame s e = Ok s' e' ->
  geometry s' = geometry s /\ powerUps s' = [].
Proof.
  unfold resetGame; intros H.
  mstep H. mstep H.
  apply resetBall_keeps in H; destruct H as [[G _] [P _]].
  rewrite G, P; clear G P.
  split; repeat (cbn; match goal with
                      | |- context [if ?c then _ else _] => destruct c
                      end); reflexivity.
Qed.

Lemma handleResetKey_keeps (s s' : GameState) (e e' : Env) :
  handleResetKey s e = Ok s' e' -> keeps s s'.
Proof.
  unfold handleResetKey; intros H.
  destruct (key_r (keys s) || key_R (keys s)).
  - mstep H. mstep H.
    apply resetGame_keeps in Hc; destruct Hc as [G P].
    split; [exact G|].
    intros _; unfold atMostOne; cbn; rewrite P; simpl; lia.
  - mstep H; apply keeps_refl.
Qed.

Lemma updateScreenShake_keeps (s s' : GameState) (e e' : Env) :
  updateScreenShake s e = Ok s' e' -> keeps s s'.
Proof. unfold updateScreenShake; intros H; mrun; frame. Qed.

Lemma spawnPowerUp_appends (s s' : GameState) (e e' : Env) :
  spawnPowerUp s e = Ok s' e' ->
  geometry s' = geometry s /\
  exists powerUp, powerUps s' = powerUps s ++ [powerUp].
Proof.
  unfold spawnPowerUp; intros H.
  mstep H.
  destruct (arrayGet _ _) as [[[ty co] sy]|]; [|discriminate H].
  repeat mstep H.
  split; [reflexivity|].
  eexists; reflexivity.
Qed.

(** The spawn scheduler adds a power-up only when the timer has run out
    and no power-up floats. *)
Lemma spawnPhase_rule (s s' : GameState) (e e' : Env) :
  spawnPhase s e = Ok s' e' ->
  geometry s' = geometry s /\
  (powerUps s' = powerUps s \/
   (powerUpSpawnTimer s - 1 <= 0 /\ powerUps s = [] /\
    exists powerUp, powerUps s' = [powerUp])).
Proof.
  unfold spawnPhase; intros H.
  cbn [powerUpSpawnTimer powerUps setPowerUpSpawnTimer] in H.
  destruct (powerUpSpawnTimer s - 1 <=? 0) eqn:Et; simpl in H.
  - destruct (powerUps s) as [|p l] eqn:El; simpl in H.
    + apply spawnPowerUp_appends in H; destruct H as [G [p Hp]].
      cbn in Hp; rewrite El in Hp.
      split; [exact G|]; right.
      apply leb_true in Et.
      split; [exact Et|]; split; [reflexivity|].
      exists p; exact Hp.
    + mstep H; split; [reflexivity|]; left; cbn; exact El.
  - mstep H; split; [reflexivity|]; left; reflexivity.
Qed.

Lemma spawnPhase_keeps (s s' : GameState) (e e' : Env) :
  spawnPhase s e = Ok s' e' -> keeps s s'.
Proof.
  intros H; apply spawnPhase_rule in H; destruct H as [G [P|[_ [_ [p P]]]]];
    (split; [exact G|]); unfold atMostOne; rewrite P; simpl; auto.
Qed.

Lemma animateAll_length (c : Canvas) (l l' : list PowerUp) (e e' : Env) :
  animateAll c l e = Ok l' e' -> List.length l' = List.length l.
Proof.
  revert l' e e'; induction l as [|p l IH]; intros l' e e' H; simpl in H.
  - mstep H; reflexivity.
  - mstep H. mstep H. mstep H.
    simpl; f_equal; eapply IH; eassumption.
Qed.

Lemma animatePhase_keeps (s s' : GameState) (e e' : Env) :
  animatePhase s e = Ok s' e' -> keeps s s'.
Proof.
  unfold animatePhase; intros H.
  mstep H. mstep H.
  apply animateAll_length in Hc.
  split; [reflexivity|].
  unfold atMostOne; cbn; rewrite Hc; auto.
Qed.

Lemma effectTimersPhase_keeps (s : GameState) : keeps s (effectTimersPhase s).
Proof. split; [reflexivity | auto]. Qed.

Lemma movePaddle_height (c : Canvas) (up down : bool) (t : TouchPaddle)
  (p : Paddle) : height (fst (movePaddle c up down t p)) = height p.
Proof.
  unfold movePaddle; destruct up, down, (active t); reflexivity.
Qed.

Lemma leftPaddlePhase_keeps (s : GameState) : keeps s (leftPaddlePhase s).
Proof.
  split; [|auto].
  unfold leftPaddlePhase, geometry; cbn.
  rewrite movePaddle_height; reflexivity.
Qed.

Lemma updateAI_keeps (fuel : nat) (s s' : GameState) (e e' : Env) :
  updateAI fuel s e = Ok s' e' -> keeps s s'.
Proof.
  unfold updateAI; intros H.
  destruct (negb (enabled (ai s))); [mstep H; apply keeps_refl|].
  destruct (dx (ball s) >? 0); [|mstep H; apply keeps_refl].
  mstep H. mstep H.
  assert (Ka : keeps s a0).
  { destruct (_ >? _) in Hc0; [|mstep Hc0; apply keeps_refl].
    repeat mstep Hc0. split; [reflexivity | auto]. }
  apply (keeps_trans _ _ _ Ka).
  destruct (Rabs _ >? 5); [|mstep H; apply keeps_refl].
  mstep H.
  split; [|auto].
  destruct (_ <? 0); reflexivity.
Qed.

Lemma rightPaddlePhase_keeps (fuel : nat) (s s' : GameState) (e e' : Env) :
  rightPaddlePhase fuel s e = Ok s' e' -> keeps s s'.
Proof.
  unfold rightPaddlePhase; intros H.
  mstep H. mstep H.
  set (s1 := setRight s (setPrevY (pright (paddles s)) (py (pright (paddles s))))) in *.
  assert (K1 : keeps s s1) by (split; [reflexivity | auto]).
  assert (K2 : keeps s1 a).
  { destruct (negb (enabled (ai s1))).
    - mstep Hc. split; [|auto].
      unfold geometry; cbn. rewrite movePaddle_height; reflexivity.
    - eapply updateAI_keeps; eassumption. }
  apply (keeps_trans _ _ _ K1), (keeps_trans _ _ _ K2).
  split; [reflexivity | auto].
Qed.

Lemma moveBallsPhase_keeps (s s' : GameState) (e e' : Env) :
  moveBallsPhase s e = Ok s' e' -> keeps s s'.
Proof.
  unfold moveBallsPhase; intros H.
  destruct (mb_active (multiBall (activePowerUps _))).
  - repeat mstep H; split; [reflexivity | auto].
  - mstep H; split; [reflexivity | auto].
Qed.

Lemma filter_length_le {A} (f : A -> bool) (l : list A) :
  (List.length (filter f l) <= List.length l)%nat.
Proof.
  induction l as [|a l IH]; simpl; [lia|].
  destruct (f a); simpl; lia.
Qed.

Lemma activatePowerUp_keeps (p : PowerUp) (pl : option Side)
  (s s' : GameState) (e e' : Env) :
  activatePowerUp p pl s e = Ok s' e' ->
  keeps s s' /\
  powerUps s' = filter (fun q => negb (id q =? id p)) (powerUps s).
Proof.
  unfold activatePowerUp; intros H.
  mstep H. mstep H. mstep H.
  assert (G : geometry a = geometry s /\ powerUps a = powerUps s).
  { destruct (type p).
    - mstep Hc; split; reflexivity.
    - mstep Hc; split; reflexivity.
    - destruct (negb _).
      + mstep Hc. mstep Hc. split; reflexivity.
      + mstep Hc; split; reflexivity.
    - mstep Hc; split; reflexivity. }
  destruct G as [G P].
  split; [|cbn; rewrite P; reflexivity].
  split; [exact G|].
  unfold atMostOne; cbn; rewrite P.
  pose proof (filter_length_le (fun q => negb (id q =? id p)) (powerUps s)).
  lia.
Qed.

Lemma pickupLoop_keeps (l : list PowerUp) (s s' : GameState) (e e' : Env) :
  pickupLoop l s e = Ok s' e' -> keeps s s'.
Proof.
  induction l as [|p l IH]; simpl; intros H.
  - mstep H; apply keeps_refl.
  - destruct (touchesPowerUp (ball s) p); [|auto].
    apply activatePowerUp_keeps in H; apply H.
Qed.

Lemma trailPhase_keeps (s s' : GameState) (e e' : Env) :
  trailPhase s e = Ok s' e' -> keeps s s'.
Proof. unfold trailPhase; intros H; mrun; frame. Qed.

Lemma wallPhase_keeps (s : GameState) : keeps s (wallPhase s).
Proof.
  unfold wallPhase; destruct (_ || _); (split; [reflexivity | auto]).
Qed.

Lemma beforePaddles_keeps (fuel : nat) (s s' : GameState) (e e' : Env) :
  beforePaddles fuel s e = Ok s' e' -> keeps s s'.
Proof.
  unfold beforePaddles; intros H.
  repeat mstep H.
  apply updateScreenShake_keeps in Hc.
  apply spawnPhase_keeps in Hc0.
  apply animatePhase_keeps in Hc1.
  apply rightPaddlePhase_keeps in Hc2.
  apply moveBallsPhase_keeps in Hc3.
  apply pickupLoop_keeps in Hc4.
  apply trailPhase_keeps in Hc5.
  eapply keeps_trans; [exact Hc|].
  eapply keeps_trans; [exact Hc0|].
  eapply keeps_trans; [exact Hc1|].
  eapply keeps_trans; [apply effectTimersPhase_keeps|].
  eapply keeps_trans; [apply leftPaddlePhase_keeps|].
  eapply keeps_trans; [exact Hc2|].
  eapply keeps_trans; [exact Hc3|].
  eapply keeps_trans; [exact Hc4|].
  eapply keeps_trans; [exact Hc5|].
  apply wallPhase_keeps.
Qed.

Lemma paddleBounce_keeps (paddle : Paddle) (faceX : R)
  (s s' : GameState) (e e' : Env) :
  paddleBounce paddle faceX s e = Ok s' e' -> keeps s s'.
Proof.
  unfold paddleBounce; intros H.
  mstep H. mstep H. mstep H. mstep H. mstep H.
  clear Hc Hc0 Hc1 Hc2.
  frame.
Qed.

Lemma leftBouncePhase_keeps (s s' : GameState) (e e' : Env) :
  leftBouncePhase s e = Ok s' e' -> keeps s s'.
Proof.
  unfold leftBouncePhase; intros H.
  destruct (hitsLeftPaddle s).
  - eapply paddleBounce_keeps; eassumption.
  - mstep H; apply keeps_refl.
Qed.

Lemma rightBouncePhase_keeps (s s' : GameState) (e e' : Env) :
  rightBouncePhase s e = Ok s' e' -> keeps s s'.
Proof.
  unfold rightBouncePhase; intros H.
  destruct (hitsRightPaddle s).
  - eapply paddleBounce_keeps; eassumption.
  - mstep H; apply keeps_refl.
Qed.

Lemma extraBallsPhase_keeps (s s' : GameState) (e e' : Env) :
  extraBallsPhase s e = Ok s' e' -> keeps s s'.
Proof.
  unfold extraBallsPhase; intros H.
  destruct (mb_active (multiBall (activePowerUps s))).
  - repeat mstep H; split; [reflexivity | auto].
  - mstep H; apply keeps_refl.
Qed.

Lemma endRally_keeps (s s' : GameState) (e e' : Env) :
  endRally s e = Ok s' e' -> keeps s s'.
Proof.
  unfold endRally; intros H.
  apply resetBall_keeps in H; destruct H as [[G B] _].
  split.
  - rewrite G; unfold geometry; destruct (_ >=? 5); reflexivity.
  - intros Hb; apply B; unfold atMostOne in *.
    destruct (_ >=? 5); exact Hb.
Qed.

Lemma scorePhase_keeps (s s' : GameState) (e e' : Env) :
  scorePhase s e = Ok s' e' -> keeps s s'.
Proof.
  unfold scorePhase; intros H.
  destruct (x (ball s) <? 0).
  - apply endRally_keeps in H; destruct H as [G B]; split; [exact G | exact B].
  - destruct (x (ball s) >? cwidth (canvas s)).
    + apply endRally_keeps in H; destruct H as [G B]; split; [exact G | exact B].
    + mstep H; apply keeps_refl.
Qed.

Lemma winnerPhase_keeps (s s' : GameState) (e e' : Env) :
  winnerPhase s e = Ok s' e' -> keeps s s'.
Proof. unfold winnerPhase; intros H; mrun; frame. Qed.

Lemma checkLevelUp_keeps (s : GameState) : keeps s (checkLevelUp s).
Proof. unfold checkLevelUp; frame. Qed.

Lemma afterPaddles_keeps (s s' : GameState) (e e' : Env) :
  afterPaddles s e = Ok s' e' -> keeps s s'.
Proof.
  unfold afterPaddles; intros H.
  repeat mstep H.
  apply extraBallsPhase_keeps in Hc.
  apply scorePhase_keeps in Hc0.
  apply winnerPhase_keeps in Hc1.
  eapply keeps_trans; [exact Hc|].
  eapply keeps_trans; [exact Hc0|].
  eapply keeps_trans; [exact Hc1|].
  apply checkLevelUp_keeps.
Qed.

Lemma updateGame_keeps (fuel : nat) (s s' : GameState) (e e' : Env) :
  updateGame fuel s e = Ok s' e' -> keeps s s'.
Proof.
  unfold updateGame; intros H.
  mstep H.
  apply handleResetKey_keeps in Hc.
  apply (keeps_trans _ _ _ Hc).
  destruct (isSome (gameWinner a)); [mstep H; apply keeps_refl|].
  repeat mstep H.
  apply beforePaddles_keeps in Hc0.
  apply leftBouncePhase_keeps in Hc1.
  apply rightBouncePhase_keeps in Hc2.
  apply afterPaddles_keeps in H.
  eapply keeps_trans; [exact Hc0|].
  eapply keeps_trans; [exact Hc1|].
  eapply keeps_trans; [exact Hc2|].
  exact H.
Qed.

Lemma wellFormed_geometry (s s' : GameState) :
  geometry s' = geometry s -> wellFormed s -> wellFormed s'.
Proof.
  unfold geometry, wellFormed; intros G; inversion G as [[G1 G2 G3]].
  rewrite G1, G2, G3; auto.
Qed.

Lemma keeps_wellFormed (s s' : GameState) :
  keeps s s' -> wellFormed s -> wellFormed s'.
Proof. intros [G _]; apply wellFormed_geometry; exact G. Qed.

(** Every state of a game has the geometry of a well-formed one and at
    most one floating power-up. *)
Lemma reachable_invariant (s : GameState) :
  reachable s -> wellFormed s /\ atMostOne s.
Proof.
  induction 1 as [s0 s e e' Hwf Hv Hr | k t a d s Hs [IHw IHb]
                 | fuel s s' e e' Hs [IHw IHb] Hv Ht].
  - apply resetGame_keeps in Hr; destruct Hr as [G P]; split.
    + apply (wellFormed_geometry s0 s G Hwf).
    + unfold atMostOne; rewrite P; simpl; lia.
  - split; [exact IHw | exact IHb].
  - apply updateGame_keeps in Ht; destruct Ht as [G B]; split.
    + apply (wellFormed_geometry s s' G IHw).
    + apply B; exact IHb.
Qed.
(** ** The response to a paddle *)

Lemma divide_ok (a b : R) (e : Env) : b <> 0 -> divide a b e = Ok (a / b) e.
Proof. intros H; unfold divide; rewrite jsdiv_some by exact H; reflexivity. Qed.

Lemma speed_lower_bound_cases (vx vy : R) :
  vx <> 0 ->
  let sp := sqrt (vx * vx + vy * vy) in
  0 < sp /\
  (sp < 4 ->
   sqrt (vx * (4 / sp) * (vx * (4 / sp)) + vy * (4 / sp) * (vy * (4 / sp))) = 4).
Proof.
  intros Hv sp.
  assert (Hpos : 0 < sp).
  { apply sqrt_lt_R0. assert (0 < vx * vx) by nra. nra. }
  split; [exact Hpos|]; intros _.
  rewrite scaled_speed.
  - fold sp; field; lra.
  - apply Rmult_le_pos; [lra | left; apply Rinv_0_lt_compat; exact Hpos].
Qed.

(** Decide the tests left in the goal. *)
Ltac split_ifs :=
  repeat (cbn; match goal with
               | |- context [if ?c then _ else _] => destruct c
               end);
  cbn.

(** The response to a paddle returns, and leaves the ball with a speed of
    at least 4. *)
Lemma paddleBounce_speed (paddle : Paddle) (faceX : R) (s : GameState) (e : Env) :
  0 < height paddle -> dx (ball s) <> 0 ->
  exists s' e',
    paddleBounce paddle faceX s e = Ok s' e' /\
    4 <= PhysicsEngine.calculateBallSpeed (ball s').
Proof.
  intros Hh Hdx; unfold paddleBounce.
  unfold bind at 1; rewrite divide_ok by lra.
  unfold bind at 1; unfold Math_random at 1.
  set (r := randoms e (nextRandom e)).
  cbn [setVelocity setPosition x y dx dy radius trail].
  set (dy1 := Rmax (-15) (Rmin 15 _)).
  set (dx1 := - dx (ball s) * (11 / 10)).
  assert (Hdx1 : dx1 <> 0) by (unfold dx1; lra).
  destruct (r <? 25 / 100).
  - unfold bind at 1, bind at 1, Math_random at 1, ret at 1.
    cbn [setVelocity setPosition x y dx dy radius trail randoms nextRandom].
    set (dy2 := dy1 + _).
    destruct (speed_lower_bound_cases dx1 dy2 Hdx1) as [Hpos Hscaled].
    destruct (sqrt (dx1 * dx1 + dy2 * dy2) <? 4) eqn:E.
    + apply ltb_true in E.
      unfold bind at 1, bind at 1; rewrite divide_ok by lra.
      unfold ret at 1.
      eexists; eexists; split; [reflexivity|].
      unfold PhysicsEngine.calculateBallSpeed; split_ifs;
        rewrite (Hscaled E); lra.
    + apply ltb_false in E.
      unfold bind at 1, ret at 1.
      eexists; eexists; split; [reflexivity|].
      unfold PhysicsEngine.calculateBallSpeed; split_ifs; lra.
  - unfold bind at 1, ret at 1.
    cbn [setVelocity setPosition x y dx dy radius trail randoms nextRandom].
    destruct (speed_lower_bound_cases dx1 dy1 Hdx1) as [Hpos Hscaled].
    destruct (sqrt (dx1 * dx1 + dy1 * dy1) <? 4) eqn:E.
    + apply ltb_true in E.
      unfold bind at 1, bind at 1; rewrite divide_ok by lra.
      unfold ret at 1.
      eexists; eexists; split; [reflexivity|].
      unfold PhysicsEngine.calculateBallSpeed; split_ifs;
        rewrite (Hscaled E); lra.
    + apply ltb_false in E.
      unfold bind at 1, ret at 1.
      eexists; eexists; split; [reflexivity|].
      unfold PhysicsEngine.calculateBallSpeed; split_ifs; lra.
Qed.

Lemma hitsLeftPaddle_dx (s : GameState) :
  hitsLeftPaddle s = true -> dx (ball s) <> 0.
Proof.
  unfold hitsLeftPaddle; intros H.
  apply andb_true_iff in H; destruct H as [H _].
  apply ltb_true in H; lra.
Qed.

Lemma hitsRightPaddle_dx (s : GameState) :
  hitsRightPaddle s = true -> dx (ball s) <> 0.
Proof.
  unfold hitsRightPaddle; intros H.
  apply andb_true_iff in H; destruct H as [H _].
  apply ltb_true in H; lra.
Qed.

Lemma leftBouncePhase_total (s : GameState) (e : Env) :
  wellFormed s ->
  exists s' e',
    leftBouncePhase s e = Ok s' e' /\
    (hitsLeftPaddle s = true -> 4 <= PhysicsEngine.calculateBallSpeed (ball s')).
Proof.
  intros [_ [Hl _]]; unfold leftBouncePhase.
  destruct (hitsLeftPaddle s) eqn:Hit.
  - destruct (paddleBounce_speed (pleft (paddles s))
                (px (pleft (paddles s)) + width (pleft (paddles s))
                 + radius (ball s))
                s e Hl (hitsLeftPaddle_dx s Hit)) as (s' & e' & Hb & Hs).
    exists s', e'; split; [exact Hb | intros _; exact Hs].
  - eexists; eexists; split; [reflexivity | discriminate].
Qed.

Lemma rightBouncePhase_total (s : GameState) (e : Env) :
  wellFormed s ->
  exists s' e',
    rightBouncePhase s e = Ok s' e' /\
    (hitsRightPaddle s = true -> 4 <= PhysicsEngine.calculateBallSpeed (ball s')).
Proof.
  intros [_ [_ Hr]]; unfold rightBouncePhase.
  destruct (hitsRightPaddle s) eqn:Hit.
  - destruct (paddleBounce_speed (pright (paddles s))
                (px (pright (paddles s)) - radius (ball s))
                s e Hr (hitsRightPaddle_dx s Hit)) as (s' & e' & Hb & Hs).
    exists s', e'; split; [exact Hb | intros _; exact Hs].
  - eexists; eexists; split; [reflexivity | discriminate].
Qed.

(** The bounce of PongGame.tsx: the velocity of [calculatePaddleBounce]
    passed through [applySpeedLimits] has a speed between 4 and 15. *)
Lemma resolvePaddleBounce_speed (b : Ball) (paddle : Paddle) (faceX : R) (e : Env) :
  height paddle <> 0 -> dx b <> 0 ->
  exists b' e',
    PongGame.resolvePaddleBounce b paddle faceX e = Ok b' e' /\
    minBallSpeed DEFAULT_PHYSICS_CONFIG
      <= PhysicsEngine.calculateBallSpeed b'
      <= maxBallSpeed DEFAULT_PHYSICS_CONFIG.
Proof.
  intros Hh Hdx; unfold PongGame.resolvePaddleBounce.
  assert (Hb : exists v e',
             PhysicsEngine.calculatePaddleBounce b (py paddle) (height paddle)
               (velocity paddle) DEFAULT_PHYSICS_CONFIG e = Ok v e' /\
             vdx v = - dx b * (11 / 10)).
  { unfold PhysicsEngine.calculatePaddleBounce.
    unfold bind at 1; rewrite divide_ok by lra.
    unfold bind at 1, Math_random at 1.
    destruct (_ <? _).
    - unfold bind, Math_random, ret; eexists; eexists; split; reflexivity.
    - unfold bind, ret; eexists; eexists; split; reflexivity. }
  destruct Hb as (v & e' & Hb & Hv).
  unfold bind; rewrite Hb.
  set (b1 := setVelocity b (vdx v) (vdy v)).
  assert (Hpos : 0 < PhysicsEngine.calculateBallSpeed b1).
  { apply speed_pos; unfold b1; cbn; rewrite Hv; lra. }
  destruct (applySpeedLimits_moving b1 DEFAULT_PHYSICS_CONFIG Hpos)
    as (v' & Ha & Hr & _); [simpl; lra|].
  rewrite Ha; unfold ret.
  eexists; eexists; split; [reflexivity|].
  unfold PhysicsEngine.calculateBallSpeed; cbn; exact Hr.
Qed.
(** ** A tick returns *)

Lemma resetBall_total (s : GameState) (e : Env) :
  exists s' e', resetBall s e = Ok s' e' /\ randoms e' = randoms e.
Proof.
  unfold resetBall, bind, ret, Math_random.
  eexists; eexists; split; reflexivity.
Qed.

Lemma resetGame_total (s : GameState) (e : Env) :
  exists s' e', resetGame s e = Ok s' e' /\ randoms e' = randoms e.
Proof.
  unfold resetGame.
  unfold bind at 1, Date_now at 1, bind at 1, Date_now at 1.
  match goal with
  | |- context [resetBall ?s1 ?e1] =>
      destruct (resetBall_total s1 e1) as (s' & e' & H & He)
  end.
  exists s', e'; split; [exact H | exact He].
Qed.

Lemma handleResetKey_total (s : GameState) (e : Env) :
  exists s' e', handleResetKey s e = Ok s' e' /\ randoms e' = randoms e.
Proof.
  unfold handleResetKey.
  destruct (key_r (keys s) || key_R (keys s)).
  - destruct (resetGame_total s e) as (s' & e' & H & He).
    unfold bind; rewrite H; unfold ret.
    eexists; eexists; split; [reflexivity | exact He].
  - eexists; eexists; split; reflexivity.
Qed.

Lemma updateScreenShake_total (s : GameState) (e : Env) :
  exists s' e', updateScreenShake s e = Ok s' e' /\ randoms e' = randoms e.
Proof.
  unfold updateScreenShake.
  destruct (_ >? 0).
  - unfold bind, Math_random, ret; eexists; eexists; split; reflexivity.
  - eexists; eexists; split; reflexivity.
Qed.

Lemma Int_part_range (r : R) :
  0 <= r < 4 -> (0 <= Int_part r <= 3)%Z.
Proof.
  intros [H0 H4].
  destruct (base_Int_part r) as [Hle Hgt].
  split.
  - assert (H : -1 < IZR (Int_part r)) by lra.
    apply lt_IZR in H; lia.
  - assert (H : IZR (Int_part r) < 4) by lra.
    apply lt_IZR in H; lia.
Qed.

Lemma powerUpTypes_get (i : Z) :
  (0 <= i <= 3)%Z -> exists t, arrayGet powerUpTypes i = Some t.
Proof.
  intros Hi; unfold arrayGet.
  destruct (Z.ltb_spec i 0) as [Hneg|_]; [lia|].
  assert (Hn : (Z.to_nat i < 4)%nat) by lia.
  destruct (Z.to_nat i) as [|[|[|[|n]]]]; simpl; try (eexists; reflexivity); lia.
Qed.

Lemma bind_random_total {A} (k : R -> M A) (e : Env) :
  (forall r e1, exists a e', k r e1 = Ok a e') ->
  exists a e', bind Math_random k e = Ok a e'.
Proof. intros H; unfold bind, Math_random; apply H. Qed.

Lemma bind_now_total {A} (k : R -> M A) (e : Env) :
  (forall t e1, exists a e', k t e1 = Ok a e') ->
  exists a e', bind Date_now k e = Ok a e'.
Proof. intros H; unfold bind, Date_now; apply H. Qed.

Lemma spawnPowerUp_total (s : GameState) (e : Env) :
  validRandoms e -> exists s' e', spawnPowerUp s e = Ok s' e'.
Proof.
  intros Hv; unfold spawnPowerUp.
  unfold bind at 1, Math_random at 1.
  pose proof (Hv (nextRandom e)) as Hr.
  destruct (powerUpTypes_get (Math_floor (randoms e (nextRandom e) * INR 4)))
    as [[[ty co] sy] Ht].
  { apply Int_part_range; simpl; lra. }
  change (List.length powerUpTypes) with 4%nat.
  rewrite Ht.
  cbv beta.
  repeat (first [apply bind_random_total | apply bind_now_total]; intros ? ?).
  unfold ret; eexists; eexists; reflexivity.
Qed.

Lemma spawnPhase_total (s : GameState) (e : Env) :
  validRandoms e -> exists s' e', spawnPhase s e = Ok s' e'.
Proof.
  intros Hv; unfold spawnPhase.
  destruct (_ && _); [apply spawnPowerUp_total; exact Hv|].
  eexists; eexists; reflexivity.
Qed.

Lemma animateAll_total (c : Canvas) (l : list PowerUp) (e : Env) :
  exists l' e', animateAll c l e = Ok l' e'.
Proof.
  revert e; induction l as [|p l IH]; intros e; simpl.
  - eexists; eexists; reflexivity.
  - cbv beta iota delta [bind Date_now ret].
    match goal with
    | |- context [animateAll c l ?e1] => destruct (IH e1) as (l' & e' & H)
    end.
    rewrite H; eexists; eexists; reflexivity.
Qed.

Lemma animatePhase_total (s : GameState) (e : Env) :
  exists s' e', animatePhase s e = Ok s' e'.
Proof.
  unfold animatePhase.
  destruct (animateAll_total (canvas s) (powerUps s) e) as (l & e' & H).
  unfold bind; rewrite H; unfold ret.
  eexists; eexists; reflexivity.
Qed.

Lemma predictBallY_total (s : GameState) (b : Ball) (paddleX : R) (e : Env) :
  0 < cheight (canvas s) ->
  exists n, forall fuel, (n <= fuel)%nat ->
    exists v, GameLogic.predictBallY fuel s b paddleX e = Ok v e.
Proof.
  intros HH; unfold GameLogic.predictBallY.
  destruct (dx b =? 0).
  - exists 0%nat; intros fuel _; eexists; reflexivity.
  - exists (reflectionsBound (cheight (canvas s))
              (y b + dy b * ((paddleX - x b) / dx b))).
    intros fuel Hfuel.
    destruct (unfoldReflections_bounded _ _ fuel HH Hfuel) as (v & Hv & _).
    rewrite Hv; eexists; reflexivity.
Qed.

Lemma updateAI_total (s : GameState) (e : Env) :
  0 < cheight (canvas s) ->
  exists n, forall fuel, (n <= fuel)%nat ->
    exists s' e', updateAI fuel s e = Ok s' e'.
Proof.
  intros HH; unfold updateAI.
  destruct (negb (enabled (ai s)));
    [exists 0%nat; intros; eexists; eexists; reflexivity|].
  destruct (dx (ball s) >? 0);
    [|exists 0%nat; intros; eexists; eexists; reflexivity].
  unfold bind at 1, Date_now at 1.
  set (e1 := {| randoms := randoms e; nextRandom := nextRandom e;
                clock := clock e; nextClock := S (nextClock e) |}).
  assert (Hfinish : forall s1 e2,
            exists s' e',
              (let right := pright (paddles s1) in
               let paddleCenterY := py right + height right / 2 in
               let difference := targetY (ai s1) - paddleCenterY in
               if Rabs difference >? 5
               then
                 let prevY := py right in
                 let right0 :=
                   if difference <? 0
                   then setY right
                          (Rmax 0 (py right
                                   - AIController.speed
                                       (getAISettings (difficulty (ai s)))))
                   else setY right
                          (Rmin (cheight (canvas s1) - height right)
                                (py right
                                 + AIController.speed
                                     (getAISettings (difficulty (ai s))))) in
                 ret (setRight s1 (setPaddleVelocity right0 (py right0 - prevY)))
               else ret s1) e2 = Ok s' e').
  { intros s1 e2; cbv zeta.
    destruct (Rabs _ >? 5); eexists; eexists; reflexivity. }
  destruct (_ >? _).
  - destruct (AIController.predictionEnabled (getAISettings (difficulty (ai s)))).
    + destruct (predictBallY_total s (ball s) (px (pright (paddles s))) e1 HH)
        as (n & Hn).
      exists n; intros fuel Hfuel.
      destruct (Hn fuel Hfuel) as (v & Hv).
      unfold bind at 1, bind at 1; rewrite Hv.
      unfold bind at 1, Math_random at 1, bind at 1, Date_now at 1, ret at 1.
      apply Hfinish.
    + exists 0%nat; intros fuel _.
      unfold bind at 1, bind at 1, ret at 1.
      unfold bind at 1, Math_random at 1, bind at 1, Date_now at 1, ret at 1.
      apply Hfinish.
  - exists 0%nat; intros fuel _.
    unfold bind at 1, ret at 1.
    apply Hfinish.
Qed.

Lemma rightPaddlePhase_total (s : GameState) (e : Env) :
  0 < cheight (canvas s) ->
  exists n, forall fuel, (n <= fuel)%nat ->
    exists s' e', rightPaddlePhase fuel s e = Ok s' e'.
Proof.
  intros HH; unfold rightPaddlePhase.
  set (s1 := setRight s _).
  destruct (negb (enabled (ai s1))).
  - exists 0%nat; intros fuel _.
    unfold bind, ret; eexists; eexists; reflexivity.
  - destruct (updateAI_total s1 e HH) as (n & Hn).
    exists n; intros fuel Hfuel.
    destruct (Hn fuel Hfuel) as (s' & e' & H).
    unfold bind; rewrite H; unfold ret.
    eexists; eexists; reflexivity.
Qed.

Lemma forEachBall_moveExtraBall_total (m : R) (l : list Ball) (e : Env) :
  exists l' e', forEachBall (moveExtraBall m) l e = Ok l' e'.
Proof.
  revert e; induction l as [|b l IH]; intros e; simpl.
  - eexists; eexists; reflexivity.
  - assert (Hb : exists b' e1, moveExtraBall m b e = Ok b' e1).
    { unfold moveExtraBall, bind, Math_random, ret.
      eexists; eexists; reflexivity. }
    destruct Hb as (b' & e1 & Hb).
    destruct (IH e1) as (l' & e' & H).
    unfold bind; rewrite Hb, H; unfold ret.
    eexists; eexists; reflexivity.
Qed.

Lemma moveBallsPhase_total (s : GameState) (e : Env) :
  exists s' e', moveBallsPhase s e = Ok s' e'.
Proof.
  unfold moveBallsPhase.
  destruct (mb_active (multiBall (activePowerUps _))).
  - match goal with
    | |- context [forEachBall (moveExtraBall ?m) ?l] =>
        destruct (forEachBall_moveExtraBall_total m l e) as (l' & e' & H)
    end.
    unfold bind; rewrite H; unfold ret; eexists; eexists; reflexivity.
  - eexists; eexists; reflexivity.
Qed.

Lemma activatePowerUp_total (p : PowerUp) (pl : option Side)
  (s : GameState) (e : Env) :
  exists s' e', activatePowerUp p pl s e = Ok s' e'.
Proof.
  unfold activatePowerUp.
  destruct (type p).
  - unfold bind, ret, Math_random; eexists; eexists; reflexivity.
  - unfold bind, ret, Math_random; eexists; eexists; reflexivity.
  - destruct (negb _).
    + unfold spawnExtraBalls, bind, ret, Math_random.
      eexists; eexists; reflexivity.
    + unfold bind, ret, Math_random; eexists; eexists; reflexivity.
  - unfold bind, ret, Math_random; eexists; eexists; reflexivity.
Qed.

Lemma pickupPhase_total (s : GameState) (e : Env) :
  exists s' e', pickupPhase s e = Ok s' e'.
Proof.
  unfold pickupPhase.
  induction (powerUps s) as [|p l IH]; simpl.
  - eexists; eexists; reflexivity.
  - destruct (touchesPowerUp (ball s) p);
      [apply activatePowerUp_total | exact IH].
Qed.

Lemma trailPhase_total (s : GameState) (e : Env) :
  exists s' e', trailPhase s e = Ok s' e'.
Proof.
  unfold trailPhase, bind, Math_random, ret; eexists; eexists; reflexivity.
Qed.

Lemma beforePaddles_total (s : GameState) (e : Env) :
  wellFormed s -> validRandoms e ->
  exists n, forall fuel, (n <= fuel)%nat ->
    exists s' e', beforePaddles fuel s e = Ok s' e'.
Proof.
  intros Hwf Hv; unfold beforePaddles.
  destruct (updateScreenShake_total s e) as (s0 & e0 & H0 & He0).
  assert (Hv0 : validRandoms e0) by (intros n; rewrite He0; apply Hv).
  destruct (spawnPhase_total s0 e0 Hv0) as (s1 & e1 & H1).
  destruct (animatePhase_total s1 e1) as (s2 & e2 & H2).
  assert (Hwf3 : wellFormed (leftPaddlePhase (effectTimersPhase s2))).
  { apply updateScreenShake_keeps in H0.
    apply spawnPhase_keeps in H1; apply animatePhase_keeps in H2.
    apply (keeps_wellFormed _ _ (leftPaddlePhase_keeps _)),
          (keeps_wellFormed _ _ (effectTimersPhase_keeps _)),
          (keeps_wellFormed _ _ H2), (keeps_wellFormed _ _ H1),
          (keeps_wellFormed _ _ H0), Hwf. }
  destruct (rightPaddlePhase_total _ e2 (proj1 Hwf3)) as (n & Hn).
  exists n; intros fuel Hfuel.
  destruct (Hn fuel Hfuel) as (s4 & e4 & H4).
  destruct (moveBallsPhase_total s4 e4) as (s5 & e5 & H5).
  destruct (pickupPhase_total s5 e5) as (s6 & e6 & H6).
  destruct (trailPhase_total s6 e6) as (s7 & e7 & H7).
  unfold bind at 1; rewrite H0.
  unfold bind at 1; rewrite H1.
  unfold bind at 1; rewrite H2.
  unfold bind at 1; rewrite H4.
  unfold bind at 1; rewrite H5.
  unfold bind at 1; rewrite H6.
  unfold bind at 1; rewrite H7.
  eexists; eexists; reflexivity.
Qed.

Lemma extraBounce_total (paddle : Paddle) (faceX : R) (b : Ball) (e : Env) :
  0 < height paddle -> exists b', extraBounce paddle faceX b e = Ok b' e.
Proof.
  intros Hh; unfold extraBounce.
  unfold bind; rewrite divide_ok by lra.
  eexists; reflexivity.
Qed.

Lemma extraBallStep_total (s : GameState) (b : Ball) (e : Env) :
  wellFormed s -> exists b', extraBallStep s b e = Ok b' e.
Proof.
  intros [_ [Hl Hr]]; unfold extraBallStep; cbv zeta.
  set (b1 := if (y b - radius b <=? 0) || (y b + radius b >=? cheight (canvas s))
             then setVelocity b (dx b) (- dy b) else b).
  assert (H1 : exists b2,
            (if (dx b1 <? 0)
                && checkPaddleCollision s b1 (pleft (paddles s)) Left
             then extraBounce (pleft (paddles s))
                    (px (pleft (paddles s)) + width (pleft (paddles s))
                     + radius b1) b1
             else ret b1) e = Ok b2 e).
  { destruct (_ && _); [apply extraBounce_total; exact Hl|].
    eexists; reflexivity. }
  destruct H1 as (b2 & H1).
  unfold bind; rewrite H1; clear H1.
  destruct ((dx b2 >? 0) && checkPaddleCollision s b2 (pright (paddles s)) Right);
    [apply extraBounce_total; exact Hr|].
  eexists; reflexivity.
Qed.

Lemma forEachBall_total (s : GameState) (l : list Ball) (e : Env) :
  wellFormed s -> exists l', forEachBall (extraBallStep s) l e = Ok l' e.
Proof.
  intros Hwf; induction l as [|b l (l' & IH)]; simpl.
  - eexists; reflexivity.
  - destruct (extraBallStep_total s b e Hwf) as (b' & Hb).
    unfold bind; rewrite Hb, IH; unfold ret.
    eexists; reflexivity.
Qed.

Lemma scorePhase_total (s : GameState) (e : Env) :
  exists s' e', scorePhase s e = Ok s' e'.
Proof.
  unfold scorePhase, endRally.
  destruct (_ <? 0).
  - match goal with
    | |- context [resetBall ?s1 e] =>
        destruct (resetBall_total s1 e) as (s2 & e2 & H & _)
    end; eexists; eexists; exact H.
  - destruct (_ >? _).
    + match goal with
      | |- context [resetBall ?s1 e] =>
          destruct (resetBall_total s1 e) as (s2 & e2 & H & _)
      end; eexists; eexists; exact H.
    + eexists; eexists; reflexivity.
Qed.

Lemma winnerPhase_total (s : GameState) (e : Env) :
  exists s' e', winnerPhase s e = Ok s' e'.
Proof.
  unfold winnerPhase.
  destruct (_ >=? 11).
  - unfold bind, Date_now, ret; eexists; eexists; reflexivity.
  - destruct (_ >=? 11); eexists; eexists; reflexivity.
Qed.

Lemma afterPaddles_total (s : GameState) (e : Env) :
  wellFormed s -> exists s' e', afterPaddles s e = Ok s' e'.
Proof.
  intros Hwf; unfold afterPaddles.
  assert (H1 : exists s1, extraBallsPhase s e = Ok s1 e).
  { unfold extraBallsPhase.
    destruct (mb_active (multiBall (activePowerUps s))).
    - destruct (forEachBall_total s
                  (extraBalls (multiBall (activePowerUps s))) e Hwf) as (l & Hl).
      unfold bind; rewrite Hl; unfold ret; eexists; reflexivity.
    - eexists; reflexivity. }
  destruct H1 as (s1 & H1).
  destruct (scorePhase_total s1 e) as (s2 & e2 & H2).
  destruct (winnerPhase_total s2 e2) as (s3 & e3 & H3).
  unfold bind at 1; rewrite H1.
  unfold bind at 1; rewrite H2.
  unfold bind at 1; rewrite H3.
  eexists; eexists; reflexivity.
Qed.

(** With a well-formed geometry and random numbers in [0, 1), a tick
    returns a state once the fuel covers the reflections the opponent's
    prediction unfolds. *)
Lemma updateGame_total (s : GameState) (e : Env) :
  wellFormed s -> validRandoms e ->
  exists n, forall fuel, (n <= fuel)%nat ->
    exists s' e', updateGame fuel s e = Ok s' e'.
Proof.
  intros Hwf Hv; unfold updateGame.
  destruct (handleResetKey_total s e) as (s0 & e0 & H0 & He0).
  assert (Hwf0 : wellFormed s0).
  { apply handleResetKey_keeps in H0; apply (keeps_wellFormed _ _ H0 Hwf). }
  assert (Hv0 : validRandoms e0).
  { intros n; rewrite He0; apply Hv. }
  destruct (isSome (gameWinner s0)) eqn:Hw.
  - exists 0%nat; intros fuel _.
    unfold bind; rewrite H0, Hw; eexists; eexists; reflexivity.
  - destruct (beforePaddles_total s0 e0 Hwf0 Hv0) as (n & Hn).
    exists n; intros fuel Hfuel.
    destruct (Hn fuel Hfuel) as (s1 & e1 & H1).
    assert (Hwf1 : wellFormed s1).
    { apply beforePaddles_keeps in H1; apply (keeps_wellFormed _ _ H1 Hwf0). }
    destruct (leftBouncePhase_total s1 e1 Hwf1) as (s2 & e2 & H2 & _).
    assert (Hwf2 : wellFormed s2).
    { apply leftBouncePhase_keeps in H2; apply (keeps_wellFormed _ _ H2 Hwf1). }
    destruct (rightBouncePhase_total s2 e2 Hwf2) as (s3 & e3 & H3 & _).
    assert (Hwf3 : wellFormed s3).
    { apply rightBouncePhase_keeps in H3; apply (keeps_wellFormed _ _ H3 Hwf2). }
    destruct (afterPaddles_total s3 e3 Hwf3) as (s4 & e4 & H4).
    unfold bind at 1; rewrite H0, Hw.
    unfold bind at 1; rewrite H1.
    unfold bind at 1; rewrite H2.
    unfold bind at 1; rewrite H3.
    eexists; eexists; exact H4.
Qed.

(** ** At most one floating power-up *)


(** ** The speed of the ball after a paddle bounce *)


(** ** A game in which the bounce exceeds the maximum *)

Lemma steadyEnv_valid : validRandoms steadyEnv.
Proof. intros n; simpl; lra. Qed.

Lemma ball_eq (x1 y1 dx1 dy1 r1 x2 y2 dx2 dy2 r2 : R) (t : list Particle) :
  x1 = x2 -> y1 = y2 -> dx1 = dx2 -> dy1 = dy2 -> r1 = r2 ->
  {| x := x1; y := y1; dx := dx1; dy := dy1; radius := r1; trail := t |} =
  {| x := x2; y := y2; dx := dx2; dy := dy2; radius := r2; trail := t |}.
Proof. intros; subst; reflexivity. Qed.

Lemma paddle_eq (a1 b1 c1 d1 e1 f1 g1 a2 b2 c2 d2 e2 f2 g2 : R) :
  a1 = a2 -> b1 = b2 -> c1 = c2 -> d1 = d2 -> e1 = e2 -> f1 = f2 -> g1 = g2 ->
  {| px := a1; py := b1; width := c1; height := d1; speed := e1;
     prevY := f1; velocity := g1 |} =
  {| px := a2; py := b2; width := c2; height := d2; speed := e2;
     prevY := f2; velocity := g2 |}.
Proof. intros; subst; reflexivity. Qed.

Lemma session_eq (a1 b1 c1 d1 e1 f1 a2 b2 c2 d2 e2 f2 : R) :
  a1 = a2 -> b1 = b2 -> c1 = c2 -> d1 = d2 -> e1 = e2 -> f1 = f2 ->
  {| rallies := a1; longestRally := b1; totalHits := c1;
     sessionsPlayed := d1; playTime := e1; lastBreakSuggestion := f1 |} =
  {| rallies := a2; longestRally := b2; totalHits := c2;
     sessionsPlayed := d2; playTime := e2; lastBreakSuggestion := f2 |}.
Proof. intros; subst; reflexivity. Qed.

Lemma Int_part_small (r : R) : 0 <= r < 1 -> Int_part r = 0%Z.
Proof.
  intros [H0 H1].
  destruct (base_Int_part r) as [Hle Hgt].
  assert (Ha : -1 < IZR (Int_part r)) by lra.
  assert (Hb : IZR (Int_part r) < 1) by lra.
  apply lt_IZR in Ha; apply lt_IZR in Hb; lia.
Qed.

Lemma first_session_no_break : (remainder (0 + 1) 8 =? 0) = false.
Proof.
  apply eqb_false; unfold remainder, Math_floor.
  rewrite Int_part_small by lra.
  simpl; lra.
Qed.

Lemma reset_starts_flight :
  exists e', resetGame initialGameState steadyEnv = Ok (flight 400 180 []) e'.
Proof.
  unfold resetGame.
  unfold bind at 1, Date_now at 1, bind at 1, Date_now at 1.
  cbn [session sessionsPlayed setSession setGameStartTime setActivePowerUps
       setPowerUpSpawnTimer setPowerUps setGameWinner setScore
       initialGameState].
  rewrite first_session_no_break, andb_false_r.
  unfold resetBall, bind, ret, Math_random; cbn.
  rbool.
  eexists; f_equal.
  unfold flight, setBall; cbn; f_equal.
  - apply ball_eq; lra.
  - apply session_eq; lra.
Qed.

Lemma resetState_flight : resetState = flight 400 180 [].
Proof.
  unfold resetState; destruct reset_starts_flight as [e' H].
  rewrite H; reflexivity.
Qed.

Lemma no_collision_right_of (s : GameState) (b : Ball) (p : Paddle) (side : Side) :
  0 <= width p -> 0 <= radius b -> px p + width p + radius b < x b ->
  checkPaddleCollision s b p side = false.
Proof.
  intros Hw Hr Hx; unfold checkPaddleCollision.
  set (cX := Rmax (px p) (Rmin (x b) (px p + width p))).
  assert (HcX : cX <= px p + width p).
  { unfold cX; apply Rmax_lub; [lra | apply Rmin_r]. }
  apply leb_false.
  set (dY := y b - _).
  assert (0 <= dY * dY) by nra.
  assert (radius b * radius b < (x b - cX) * (x b - cX)) by nra.
  lra.
Qed.

Lemma flight_updateScreenShake (ballX timer : R) (tr : list Particle) (e : Env) :
  updateScreenShake (flight ballX timer tr) e = Ok (flight ballX timer tr) e.
Proof.
  unfold updateScreenShake.
  cbn [flight screenShake initialGameState duration].
  rbool; reflexivity.
Qed.

Lemma flight_spawnPhase (ballX timer : R) (tr : list Particle) (e : Env) :
  0 < timer - 1 ->
  spawnPhase (flight ballX timer tr) e = Ok (flight ballX (timer - 1) tr) e.
Proof.
  intros Ht; unfold spawnPhase.
  cbn [flight setPowerUpSpawnTimer powerUpSpawnTimer powerUps].
  rbool. reflexivity.
Qed.

Lemma flight_animatePhase (ballX timer : R) (tr : list Particle) (e : Env) :
  animatePhase (flight ballX timer tr) e = Ok (flight ballX timer tr) e.
Proof. reflexivity. Qed.

Lemma flight_effectTimersPhase (ballX timer : R) (tr : list Particle) :
  effectTimersPhase (flight ballX timer tr) = flight ballX timer tr.
Proof. reflexivity. Qed.

Lemma flight_leftPaddlePhase (ballX timer : R) (tr : list Particle) :
  leftPaddlePhase (flight ballX timer tr) = flight ballX timer tr.
Proof.
  unfold leftPaddlePhase, flight, setLeft, setPaddles, setTouch; cbn.
  f_equal. f_equal. apply paddle_eq; cbn; lra.
Qed.

Lemma flight_rightPaddlePhase (fuel : nat) (ballX timer : R)
  (tr : list Particle) (e : Env) :
  rightPaddlePhase fuel (flight ballX timer tr) e
    = Ok (flight ballX timer tr) e.
Proof.
  unfold rightPaddlePhase, flight, bind, ret, setRight, setPaddles, setTouch; cbn.
  f_equal. f_equal. f_equal. apply paddle_eq; cbn; lra.
Qed.

Lemma flight_moveBallsPhase (ballX timer : R) (tr : list Particle) (e : Env) :
  moveBallsPhase (flight ballX timer tr) e
    = Ok (flight (ballX - 6) timer tr) e.
Proof.
  unfold moveBallsPhase, flight, setBall, advance, ret; cbn.
  f_equal. f_equal. apply ball_eq; cbn; lra.
Qed.

Lemma flight_pickupPhase (ballX timer : R) (tr : list Particle) (e : Env) :
  pickupPhase (flight ballX timer tr) e = Ok (flight ballX timer tr) e.
Proof. reflexivity. Qed.

Lemma flight_trailPhase (ballX timer : R) (tr : list Particle) (e : Env) :
  exists tr' e',
    trailPhase (flight ballX timer tr) e = Ok (flight ballX timer tr') e'.
Proof.
  unfold trailPhase, bind, Math_random, ret.
  eexists; eexists; reflexivity.
Qed.

Lemma flight_wallPhase (ballX timer : R) (tr : list Particle) :
  wallPhase (flight ballX timer tr) = flight ballX timer tr.
Proof.
  unfold wallPhase; cbn [flight ball y radius canvas cheight initialGameState].
  rbool; reflexivity.
Qed.

(** One tick of level flight: the ball advances by 6, the spawn timer
    loses a frame, the trail gets one particle. *)
Lemma flight_beforePaddles (fuel : nat) (ballX timer : R)
  (tr : list Particle) (e : Env) :
  0 < timer - 1 ->
  exists tr' e',
    beforePaddles fuel (flight ballX timer tr) e
      = Ok (flight (ballX - 6) (timer - 1) tr') e'.
Proof.
  intros Ht; unfold beforePaddles.
  destruct (flight_trailPhase (ballX - 6) (timer - 1) tr e) as (tr' & e' & H).
  exists tr', e'.
  unfold bind at 1; rewrite flight_updateScreenShake.
  unfold bind at 1; rewrite flight_spawnPhase by exact Ht.
  unfold bind at 1; rewrite flight_animatePhase.
  rewrite flight_effectTimersPhase, flight_leftPaddlePhase.
  unfold bind at 1; rewrite flight_rightPaddlePhase.
  unfold bind at 1; rewrite flight_moveBallsPhase.
  unfold bind at 1; rewrite flight_pickupPhase.
  unfold bind at 1; rewrite H.
  rewrite flight_wallPhase; reflexivity.
Qed.

Lemma flight_leftBouncePhase (ballX timer : R) (tr : list Particle) (e : Env) :
  40 < ballX ->
  leftBouncePhase (flight ballX timer tr) e = Ok (flight ballX timer tr) e.
Proof.
  intros Hx; unfold leftBouncePhase, hitsLeftPaddle.
  rewrite no_collision_right_of by (cbn; lra).
  rewrite andb_false_r; reflexivity.
Qed.

Lemma flight_rightBouncePhase (ballX timer : R) (tr : list Particle) (e : Env) :
  rightBouncePhase (flight ballX timer tr) e = Ok (flight ballX timer tr) e.
Proof.
  unfold rightBouncePhase, hitsRightPaddle.
  cbn [flight ball dx].
  rbool; reflexivity.
Qed.

Lemma flight_afterPaddles (ballX timer : R) (tr : list Particle) (e : Env) :
  0 <= ballX <= 800 ->
  afterPaddles (flight ballX timer tr) e = Ok (flight ballX timer tr) e.
Proof.
  intros Hx; unfold afterPaddles, extraBallsPhase, scorePhase.
  cbn [flight activePowerUps noActivePowerUps multiBall mb_active].
  unfold bind at 1, ret at 1.
  cbn [flight ball x canvas cwidth initialGameState].
  rbool. unfold bind at 1, ret at 1.
  unfold winnerPhase.
  cbn [flight score sleft sright].
  rbool. unfold bind, ret, checkLevelUp.
  cbn [flight progressBar initialGameState currentXP xpToNext].
  rbool; reflexivity.
Qed.

Lemma flight_updateGame (fuel : nat) (ballX timer : R)
  (tr : list Particle) (e : Env) :
  0 < timer - 1 -> 46 < ballX <= 800 ->
  exists tr' e',
    updateGame fuel (flight ballX timer tr) e
      = Ok (flight (ballX - 6) (timer - 1) tr') e'.
Proof.
  intros Ht Hx; unfold updateGame, handleResetKey.
  destruct (flight_beforePaddles fuel ballX timer tr e Ht) as (tr' & e' & H).
  exists tr', e'.
  cbn [flight keys noKeys key_r key_R orb].
  unfold bind at 1, ret at 1.
  cbn [flight gameWinner isSome].
  unfold bind at 1; rewrite H.
  unfold bind at 1; rewrite flight_leftBouncePhase by lra.
  unfold bind at 1; rewrite flight_rightBouncePhase.
  apply flight_afterPaddles; lra.
Qed.

(** After [n] ticks of level flight, for [n] up to 59. *)
Lemma flight_after (n : nat) :
  (n <= 59)%nat ->
  exists tr,
    Nat.iter n (tickWith steadyEnv) resetState
      = flight (400 - 6 * INR n) (180 - INR n) tr /\
    reachable (flight (400 - 6 * INR n) (180 - INR n) tr).
Proof.
  induction n as [|n IH]; intros Hn.
  - exists []; simpl Nat.iter; rewrite resetState_flight.
    replace (400 - 6 * INR 0) with 400 by (simpl; lra).
    replace (180 - INR 0) with 180 by (simpl; lra).
    split; [reflexivity|].
    destruct reset_starts_flight as [e' Hr].
    apply (reach_reset initialGameState _ steadyEnv e');
      [unfold wellFormed; cbn; lra | apply steadyEnv_valid | exact Hr].
  - destruct (IH ltac:(lia)) as (tr & Hiter & Hreach).
    assert (Hle : INR n <= 58).
    { replace 58 with (INR 58) by (simpl; lra). apply le_INR; lia. }
    pose proof (pos_INR n) as Hpos.
    destruct (flight_updateGame 0 (400 - 6 * INR n) (180 - INR n) tr steadyEnv)
      as (tr' & e' & Ht); [lra | lra |].
    exists tr'.
    rewrite S_INR.
    replace (400 - 6 * (INR n + 1)) with (400 - 6 * INR n - 6) by lra.
    replace (180 - (INR n + 1)) with (180 - INR n - 1) by lra.
    split.
    + simpl Nat.iter; rewrite Hiter; unfold tickWith; rewrite Ht; reflexivity.
    + apply (reach_tick 0 _ _ steadyEnv e' Hreach steadyEnv_valid Ht).
Qed.

Lemma beforeHit_shape :
  exists tr,
    beforeHit = hostInput noKeys dragTouch false "medium" (flight 46 121 tr) /\
    reachable beforeHit.
Proof.
  destruct (flight_after 59 ltac:(lia)) as (tr & Hiter & Hreach).
  replace (400 - 6 * INR 59) with 46 in * by (simpl; lra).
  replace (180 - INR 59) with 121 in * by (simpl; lra).
  exists tr; unfold beforeHit; rewrite Hiter.
  split; [reflexivity | apply reach_input; exact Hreach].
Qed.

Lemma state_eq (b1 b2 : Ball) (p1 p2 : Paddles) (c : Canvas) (k : Keys)
  (t : Touch) (sc : Score) (w : option Side) (a : AI) (sh : ScreenShake)
  (l : list PowerUp) (ap : ActivePowerUps) (tm1 tm2 g : R) (n : Session)
  (ac : Achievements) (pb : ProgressBar) :
  b1 = b2 -> p1 = p2 -> tm1 = tm2 ->
  {| ball := b1; paddles := p1; canvas := c; keys := k; touch := t;
     score := sc; gameWinner := w; ai := a; screenShake := sh;
     powerUps := l; activePowerUps := ap; powerUpSpawnTimer := tm1;
     gameStartTime := g; session := n; achievements := ac;
     progressBar := pb |} =
  {| ball := b2; paddles := p2; canvas := c; keys := k; touch := t;
     score := sc; gameWinner := w; ai := a; screenShake := sh;
     powerUps := l; activePowerUps := ap; powerUpSpawnTimer := tm2;
     gameStartTime := g; session := n; achievements := ac;
     progressBar := pb |}.
Proof. intros; subst; reflexivity. Qed.

Lemma drag_beforePaddles (tr : list Particle) (e : Env) :
  exists tr' e',
    beforePaddles 0
      (hostInput noKeys dragTouch false "medium" (flight 46 121 tr)) e
      = Ok (atHit tr') e' /\
    randoms e' = randoms e /\ nextRandom e' = S (nextRandom e).
Proof.
  set (s0 := hostInput noKeys dragTouch false "medium" (flight 46 121 tr)).
  unfold beforePaddles.
  assert (H0 : updateScreenShake s0 e = Ok s0 e).
  { unfold updateScreenShake.
    cbn [s0 hostInput flight setKeys setTouch setAi screenShake
         initialGameState duration].
    rbool; reflexivity. }
  assert (H1 : spawnPhase s0 e = Ok (setPowerUpSpawnTimer s0 (121 - 1)) e).
  { unfold spawnPhase.
    cbn [s0 hostInput flight setKeys setTouch setAi
         setPowerUpSpawnTimer powerUpSpawnTimer powerUps].
    rbool; reflexivity. }
  unfold bind at 1; rewrite H0.
  unfold bind at 1; rewrite H1.
  unfold bind at 1.
  change (animatePhase (setPowerUpSpawnTimer s0 (121 - 1)) e)
    with (Ok (setPowerUpSpawnTimer s0 (121 - 1)) e).
  cbv beta iota.
  set (s2 := leftPaddlePhase
               (effectTimersPhase (setPowerUpSpawnTimer s0 (121 - 1)))).
  set (mid := fun (bx : R) (particles : list Particle) =>
    {| ball := {| x := bx; y := 200; dx := - 6; dy := 0; radius := 8;
                  trail := particles |};
       paddles := paddles (atHit tr); canvas := canvas (atHit tr);
       keys := noKeys; touch := touch (atHit tr); score := score (atHit tr);
       gameWinner := None; ai := ai (atHit tr);
       screenShake := screenShake (atHit tr); powerUps := [];
       activePowerUps := noActivePowerUps; powerUpSpawnTimer := 120;
       gameStartTime := 0; session := session (atHit tr);
       achievements := achievements (atHit tr);
       progressBar := progressBar (atHit tr) |}).
  assert (H2 : s2 = mid 46 tr).
  { unfold s2, s0, mid, leftPaddlePhase, movePaddle.
    cbn - [Rmax Rmin].
    rminmax.
    unfold setLeft, setPaddles, setTouch; cbn.
    apply state_eq; [reflexivity | | lra].
    f_equal. apply paddle_eq; cbn; lra. }
  rewrite H2; clear H2 s2.
  assert (H3 : rightPaddlePhase 0 (mid 46 tr) e = Ok (mid 46 tr) e).
  { unfold rightPaddlePhase, mid, bind, ret, setRight, setPaddles, setTouch; cbn.
    f_equal. f_equal. f_equal. apply paddle_eq; cbn; lra. }
  unfold bind at 1; rewrite H3.
  assert (H4 : moveBallsPhase (mid 46 tr) e = Ok (mid 40 tr) e).
  { unfold moveBallsPhase, mid, setBall, advance, ret; cbn.
    f_equal. f_equal. apply ball_eq; cbn; lra. }
  unfold bind at 1; rewrite H4.
  unfold bind at 1.
  change (pickupPhase (mid 40 tr) e) with (Ok (mid 40 tr) e).
  cbv beta iota.
  unfold trailPhase, bind, Math_random, ret.
  eexists; eexists; split;
    [unfold wallPhase; cbn; rbool; reflexivity | split; reflexivity].
Qed.

Lemma sqrt_above (a v : R) : 0 <= a -> a * a < v -> a < sqrt v.
Proof.
  intros Ha Hv.
  rewrite <- (sqrt_square a) by exact Ha.
  apply sqrt_lt_1_alt; split; [nra | exact Hv].
Qed.

Lemma atHit_hitsLeftPaddle (tr : list Particle) :
  hitsLeftPaddle (atHit tr) = true.
Proof.
  unfold hitsLeftPaddle, checkPaddleCollision; cbn - [Rmax Rmin].
  rewrite (proj2 (ltb_true (- 6) 0)) by lra.
  rminmax.
  apply leb_true; lra.
Qed.

Lemma atHit_leftBouncePhase (tr : list Particle) (e : Env) :
  randoms e (nextRandom e) = 1 / 2 ->
  exists s' e',
    leftBouncePhase (atHit tr) e = Ok s' e' /\
    ball s' = {| x := 40; y := 200; dx := 66 / 10; dy := 15; radius := 8;
                 trail := tr |}.
Proof.
  intros Hr.
  unfold leftBouncePhase; rewrite atHit_hitsLeftPaddle.
  unfold paddleBounce.
  unfold bind at 1; rewrite divide_ok by (cbn; lra).
  unfold bind at 1, Math_random at 1.
  rewrite Hr.
  rewrite (proj2 (ltb_false (1 / 2) (25 / 100))) by lra.
  unfold bind at 1, ret at 1.
  cbn [atHit ball paddles pleft setVelocity setPosition x y dx dy radius trail
       px py width height velocity].
  set (dy1 := Rmax (-15) (Rmin 15 _)).
  assert (Hdy : dy1 = 15) by (unfold dy1; rminmax; reflexivity).
  rewrite Hdy; clear Hdy dy1.
  assert (Hs : 4 < sqrt (- - 6 * (11 / 10) * (- - 6 * (11 / 10)) + 15 * 15))
    by (apply sqrt_above; lra).
  rewrite (proj2 (ltb_false _ 4)) by lra.
  unfold bind at 1, ret at 1, ret.
  eexists; eexists; split; [reflexivity|].
  split_ifs; unfold setVelocity, setPosition; cbn; apply ball_eq; cbn; lra.
Qed.

Lemma ballAfterHit_value :
  exists tr,
    ballAfterHit = {| x := 40; y := 200; dx := 66 / 10; dy := 15; radius := 8;
                      trail := tr |} /\
    bouncedInTick beforeHit ballAfterHit.
Proof.
  destruct beforeHit_shape as (tr & Hshape & _).
  destruct (drag_beforePaddles tr steadyEnv) as (tr' & e1 & H1 & Hr1 & Hn1).
  destruct (atHit_leftBouncePhase tr' e1) as (s2 & e2 & H2 & Hb).
  { rewrite Hr1; reflexivity. }
  rewrite <- Hshape in H1.
  assert (Hball : ballAfterHit = ball s2).
  { unfold ballAfterHit; rewrite H1, H2; reflexivity. }
  exists tr'; split; [rewrite Hball; exact Hb|].
  rewrite Hball.
  apply (bounced_left beforeHit 0 steadyEnv steadyEnv e1 e2
           beforeHit (atHit tr') s2).
  - exact steadyEnv_valid.
  - rewrite Hshape; reflexivity.
  - rewrite Hshape; reflexivity.
  - exact H1.
  - apply atHit_hitsLeftPaddle.
  - exact H2.
Qed.




(** * Further properties: the rest of the modules *)

(** ** PhysicsEngine: the serve, the walls, the paddles *)

Lemma validRandoms_at (e : Env) (n : nat) :
  validRandoms e -> 0 <= randoms e n < 1.
Proof. intros H; apply H. Qed.

(** [resetBall] puts the ball at the centre of the canvas, sends it left or
    right at the full horizontal speed, by the first random number, and
    gives it a vertical speed of at most 80% of [initialSpeedY]; it draws
    two random numbers.  The [resetBall] of useGameLogic is this function
    at the speeds 6 and 3. *)
Theorem resetBall_serves_from_centre
  (canvasWidth canvasHeight speedX speedY : R) (e : Env) :
  validRandoms e -> 0 <= speedY ->
  exists served e',
    PhysicsEngine.resetBall canvasWidth canvasHeight speedX speedY e
      = Ok served e' /\
    PhysicsEngine.resetX served = canvasWidth / 2 /\
    PhysicsEngine.resetY served = canvasHeight / 2 /\
    PhysicsEngine.resetDx served
      = (if randoms e (nextRandom e) >? 5 / 10 then speedX else - speedX) /\
    Rabs (PhysicsEngine.resetDy served) <= 8 / 10 * speedY /\
    nextRandom e' = S (S (nextRandom e)) /\
    (forall s,
       cwidth (canvas s) = canvasWidth -> cheight (canvas s) = canvasHeight ->
       speedX = 6 -> speedY = 3 ->
       exists s',
         GameLogic.resetBall s e = Ok s' e' /\
         ball s' =
           {| x := PhysicsEngine.resetX served; y := PhysicsEngine.resetY served;
              dx := PhysicsEngine.resetDx served;
              dy := PhysicsEngine.resetDy served;
              radius := radius (ball s); trail := trail (ball s) |}).
Proof.
  intros Hv Hs.
  unfold PhysicsEngine.resetBall, bind, Math_random, ret.
  eexists; eexists; split; [reflexivity|]; cbn.
  pose proof (Hv (S (nextRandom e))) as Hr.
  split; [reflexivity|]; split; [reflexivity|]; split; [reflexivity|].
  split.
  - apply Rabs_le; split; nra.
  - split; [reflexivity|].
    intros s Hw Hh Hx Hy; subst.
    unfold GameLogic.resetBall, bind, Math_random, ret.
    eexists; split; [reflexivity|]; cbn.
    apply ball_eq; try reflexivity; lra.
Qed.

Lemma resetBall_serves_from_centre_witness :
  exists served e',
    PhysicsEngine.resetBall 800 400 6 3 steadyEnv = Ok served e' /\
    PhysicsEngine.resetX served = 800 / 2 /\
    PhysicsEngine.resetDx served = - 6 /\
    Rabs (PhysicsEngine.resetDy served) <= 8 / 10 * 3.
Proof.
  destruct (resetBall_serves_from_centre 800 400 6 3 steadyEnv)
    as (served & e' & H & Hx & _ & Hdx & Hdy & _).
  - intros n; simpl; lra.
  - lra.
  - exists served, e'; split; [exact H|]; split; [exact Hx|].
    split; [|exact Hdy].
    rewrite Hdx; simpl.
    rewrite (proj2 (ltb_false (5 / 10) (1 / 2))) by lra; reflexivity.
Defined.

(** [updatePaddlePosition] never returns a negative position; when the
    paddle fits the canvas the result leaves the whole paddle on it, and
    when the paddle is taller than the canvas the result is 0.  Clamping
    again changes nothing.  From a position on the canvas the paddle moves
    by at most the movement asked for, and by exactly that when the target
    is on the canvas. *)
Theorem updatePaddlePosition_stays_on_canvas
  (currentY movement paddleHeight canvasHeight : R) :
  let newY :=
    PhysicsEngine.updatePaddlePosition currentY movement paddleHeight
      canvasHeight in
  0 <= newY /\
  (paddleHeight <= canvasHeight -> newY <= canvasHeight - paddleHeight) /\
  (canvasHeight < paddleHeight -> newY = 0) /\
  PhysicsEngine.updatePaddlePosition newY 0 paddleHeight canvasHeight = newY /\
  (0 <= currentY <= canvasHeight - paddleHeight ->
   Rabs (PhysicsEngine.calculatePaddleVelocity newY currentY) <= Rabs movement /\
   (0 <= currentY + movement <= canvasHeight - paddleHeight ->
    newY = currentY + movement)).
Proof.
  unfold PhysicsEngine.updatePaddlePosition,
    PhysicsEngine.calculatePaddleVelocity; cbv zeta.
  set (top := canvasHeight - paddleHeight).
  set (m := Rmin top (currentY + movement)).
  assert (Hm1 : m <= top) by apply Rmin_l.
  assert (Hm2 : m <= currentY + movement) by apply Rmin_r.
  assert (Hm3 : m = top \/ m = currentY + movement).
  { unfold m, Rmin; destruct (Rle_dec top (currentY + movement)); auto. }
  assert (Hn : Rmax 0 m = 0 \/ Rmax 0 m = m).
  { unfold Rmax; destruct (Rle_dec 0 m); auto. }
  assert (Hn0 : 0 <= Rmax 0 m) by apply Rmax_l.
  assert (Hn1 : m <= Rmax 0 m) by apply Rmax_r.
  split; [exact Hn0|].
  split; [intros Hfit; unfold top in *; destruct Hn; lra|].
  split; [intros Htall; unfold top in *; destruct Hn; lra|].
  split.
  - rewrite Rplus_0_r.
    assert (Hin : Rmin top (Rmax 0 m) = Rmax 0 m \/ Rmin top (Rmax 0 m) = top).
    { unfold Rmin; destruct (Rle_dec top (Rmax 0 m)); auto. }
    assert (Hle : Rmin top (Rmax 0 m) <= Rmax 0 m) by apply Rmin_r.
    assert (Hle' : Rmin top (Rmax 0 m) <= top) by apply Rmin_l.
    destruct Hin as [Hin|Hin]; rewrite Hin.
    + unfold Rmax at 1; destruct (Rle_dec 0 (Rmax 0 m)); [reflexivity | lra].
    + rewrite Hin in Hle.
      unfold Rmax at 1; destruct (Rle_dec 0 top) as [Ht|Ht].
      * destruct Hn as [Hn|Hn]; rewrite Hn in *; lra.
      * destruct Hn as [Hn|Hn]; rewrite Hn in *; lra.
  - intros Hc; split.
    + apply Rabs_le; split.
      * destruct Hn as [Hn|Hn]; rewrite Hn;
          destruct Hm3 as [Hm3|Hm3]; unfold Rabs;
          destruct (Rcase_abs movement); lra.
      * destruct Hn as [Hn|Hn]; rewrite Hn;
          destruct Hm3 as [Hm3|Hm3]; unfold Rabs;
          destruct (Rcase_abs movement); lra.
    + intros Ht.
      destruct Hn as [Hn|Hn]; rewrite Hn; destruct Hm3 as [Hm3|Hm3]; lra.
Qed.

Lemma velocity_eta (v : Velocity) : {| vdx := vdx v; vdy := vdy v |} = v.
Proof. destruct v; reflexivity. Qed.

(** For a ball that moves, under limits in order, [applySpeedLimits]
    returns the velocity of the ball times a positive factor, so the
    direction is kept; the speed of the result is within the limits; and
    limiting the result again returns it unchanged. *)
Theorem applySpeedLimits_keeps_direction (ball : Ball) (config : PhysicsConfig) :
  0 < PhysicsEngine.calculateBallSpeed ball ->
  0 < minBallSpeed config <= maxBallSpeed config ->
  exists v k,
    PhysicsEngine.applySpeedLimits ball config = Some v /\
    0 < k /\ vdx v = dx ball * k /\ vdy v = dy ball * k /\
    minBallSpeed config
      <= PhysicsEngine.calculateBallSpeed (setVelocity ball (vdx v) (vdy v))
      <= maxBallSpeed config /\
    PhysicsEngine.applySpeedLimits (setVelocity ball (vdx v) (vdy v)) config
      = Some v.
Proof.
  intros Hs Hlim.
  destruct (applySpeedLimits_moving ball config Hs Hlim)
    as (v & Hv & Hrange & _).
  cbv zeta in Hrange.
  assert (Hk : exists k, 0 < k /\ vdx v = dx ball * k /\ vdy v = dy ball * k).
  { revert Hv; unfold PhysicsEngine.applySpeedLimits.
    set (sp := PhysicsEngine.calculateBallSpeed ball) in *.
    rdec.
    - rewrite jsdiv_some by lra; intros Hv; inversion Hv; subst; cbn.
      exists (minBallSpeed config / sp); split; [|split; reflexivity].
      apply Rdiv_lt_0_compat; lra.
    - rewrite jsdiv_some by lra; intros Hv; inversion Hv; subst; cbn.
      exists (maxBallSpeed config / sp); split; [|split; reflexivity].
      apply Rdiv_lt_0_compat; lra.
    - intros Hv; inversion Hv; subst; cbn.
      exists 1; split; [lra|]; split; ring. }
  destruct Hk as (k & Hk & Hx & Hy).
  exists v, k.
  split; [exact Hv|]; split; [exact Hk|]; split; [exact Hx|]; split; [exact Hy|].
  split; [exact Hrange|].
  unfold PhysicsEngine.applySpeedLimits, PhysicsEngine.calculateBallSpeed.
  cbn [setVelocity dx dy].
  rewrite (proj2 (ltb_false _ _)) by lra.
  rewrite (proj2 (ltb_false _ _)) by lra.
  rewrite velocity_eta; reflexivity.
Qed.

Lemma applySpeedLimits_keeps_direction_witness :
  exists v k,
    PhysicsEngine.applySpeedLimits
      {| x := 0; y := 0; dx := 30; dy := 40; radius := 8; trail := [] |}
      DEFAULT_PHYSICS_CONFIG = Some v /\
    0 < k /\ vdx v = 30 * k /\ vdy v = 40 * k.
Proof.
  destruct (applySpeedLimits_keeps_direction
              {| x := 0; y := 0; dx := 30; dy := 40; radius := 8; trail := [] |}
              DEFAULT_PHYSICS_CONFIG)
    as (v & k & Hv & Hk & Hx & Hy & _).
  - apply speed_pos; simpl; lra.
  - simpl; lra.
  - exists v, k; auto.
Defined.

(** [calculatePaddleBounce], for a paddle with a height: the horizontal
    velocity is reversed and multiplied by [ballSpeedMultiplier]; the
    vertical velocity ends within [maxBallSpeed] of zero whatever the
    paddle's momentum, the hit position and the chaos nudge, which are
    added before the clamp; one random number is drawn, and a second one
    exactly when the first is below [chaosChance]. *)
Theorem calculatePaddleBounce_reverses_and_clamps (ball : Ball)
  (paddleY paddleHeight paddleVelocity : R) (config : PhysicsConfig) (e : Env) :
  paddleHeight <> 0 -> 0 <= maxBallSpeed config ->
  exists v e',
    PhysicsEngine.calculatePaddleBounce ball paddleY paddleHeight
      paddleVelocity config e = Ok v e' /\
    vdx v = - dx ball * ballSpeedMultiplier config /\
    - maxBallSpeed config <= vdy v <= maxBallSpeed config /\
    nextRandom e'
      = (if randoms e (nextRandom e) <? chaosChance config
         then S (S (nextRandom e)) else S (nextRandom e)) /\
    (chaosChance config <= randoms e (nextRandom e) ->
     vdy v =
       Rmax (- maxBallSpeed config)
         (Rmin (maxBallSpeed config)
            (dy ball * ballSpeedMultiplier config
             + paddleVelocity * paddleInfluence config
             + (y ball - (paddleY + paddleHeight / 2)) / (paddleHeight / 2)
               * bounceAngleFactor config))).
Proof.
  intros Hh Hmax.
  unfold PhysicsEngine.calculatePaddleBounce.
  unfold bind at 1; rewrite divide_ok by lra.
  unfold bind at 1, Math_random at 1.
  assert (Hclamp : forall v,
             - maxBallSpeed config
               <= Rmax (- maxBallSpeed config) (Rmin (maxBallSpeed config) v)
               <= maxBallSpeed config).
  { intros v; split; [apply Rmax_l|].
    apply Rmax_lub; [lra | apply Rmin_l]. }
  destruct (randoms e (nextRandom e) <? chaosChance config) eqn:E.
  - unfold bind, Math_random, ret.
    eexists; eexists; split; [reflexivity|]; cbn.
    split; [reflexivity|]; split; [apply Hclamp|]; split; [reflexivity|].
    apply ltb_true in E; intros; lra.
  - unfold bind, ret.
    eexists; eexists; split; [reflexivity|]; cbn.
    split; [reflexivity|]; split; [apply Hclamp|]; split; reflexivity.
Qed.

Lemma calculatePaddleBounce_reverses_and_clamps_witness :
  exists v e',
    PhysicsEngine.calculatePaddleBounce
      {| x := 40; y := 200; dx := - 6; dy := 0; radius := 8; trail := [] |}
      200 80 50 DEFAULT_PHYSICS_CONFIG steadyEnv = Ok v e' /\
    vdx v = - - 6 * (11 / 10) /\
    - 15 <= vdy v <= 15.
Proof.
  destruct (calculatePaddleBounce_reverses_and_clamps
              {| x := 40; y := 200; dx := - 6; dy := 0; radius := 8; trail := [] |}
              200 80 50 DEFAULT_PHYSICS_CONFIG steadyEnv)
    as (v & e' & H & Hx & Hy & _).
  - lra.
  - simpl; lra.
  - exists v, e'; split; [exact H|]; split; [exact Hx | exact Hy].
Defined.

(** [applyChaosEffect] moves each component of the velocity by at most
    half the intensity, and leaves the velocity as it is at intensity 0. *)
Theorem applyChaosEffect_bounded_nudge (ball : Ball) (intensity : R) (e : Env) :
  validRandoms e ->
  exists v e',
    PhysicsEngine.applyChaosEffect ball intensity e = Ok v e' /\
    Rabs (vdx v - dx ball) <= Rabs intensity / 2 /\
    Rabs (vdy v - dy ball) <= Rabs intensity / 2 /\
    (intensity = 0 -> vdx v = dx ball /\ vdy v = dy ball) /\
    nextRandom e' = S (S (nextRandom e)).
Proof.
  intros Hv.
  unfold PhysicsEngine.applyChaosEffect, bind, Math_random, ret.
  eexists; eexists; split; [reflexivity|]; cbn.
  pose proof (Hv (nextRandom e)) as H1.
  pose proof (Hv (S (nextRandom e))) as H2.
  assert (Hb : forall r, 0 <= r < 1 ->
                         Rabs ((r - 5 / 10) * intensity) <= Rabs intensity / 2).
  { intros r Hr; rewrite Rabs_mult.
    assert (Rabs (r - 5 / 10) <= 1 / 2) by (apply Rabs_le; lra).
    pose proof (Rabs_pos intensity); nra. }
  split; [|split; [|split; [|reflexivity]]].
  - replace (dx ball + _ - dx ball)
      with ((randoms e (nextRandom e) - 5 / 10) * intensity) by ring.
    apply Hb, H1.
  - replace (dy ball + _ - dy ball)
      with ((randoms e (S (nextRandom e)) - 5 / 10) * intensity) by ring.
    apply Hb, H2.
  - intros Hi; subst; split; ring.
Qed.

Lemma applyChaosEffect_bounded_nudge_witness :
  exists v e',
    PhysicsEngine.applyChaosEffect exampleBall 2 steadyEnv = Ok v e' /\
    Rabs (vdx v - 5) <= Rabs 2 / 2 /\
    Rabs (vdy v - -10) <= Rabs 2 / 2.
Proof.
  destruct (applyChaosEffect_bounded_nudge exampleBall 2 steadyEnv)
    as (v & e' & H & Hx & Hy & _).
  - intros n; simpl; lra.
  - exists v, e'; split; [exact H|]; split; [exact Hx | exact Hy].
Defined.

(** [checkWallCollision] answers no exactly for a ball strictly between
    the two walls; on a canvas no higher than the ball is wide it answers
    yes wherever the ball is.  It does not look at the direction: a ball
    that overlaps the top wall and already moves down is reported too, and
    [bounceOffWall] then sends it up, into the wall.  For a ball that
    moves up into the top wall, the bounced velocity carries it down, and
    bouncing twice gives back the vertical velocity. *)
Theorem checkWallCollision_ignores_direction (ball : Ball) (canvasHeight : R) :
  (PhysicsEngine.checkWallCollision ball canvasHeight = false <->
   0 < y ball - radius ball /\ y ball + radius ball < canvasHeight) /\
  (canvasHeight <= 2 * radius ball ->
   PhysicsEngine.checkWallCollision ball canvasHeight = true) /\
  (y ball - radius ball <= 0 -> 0 < dy ball ->
   PhysicsEngine.checkWallCollision ball canvasHeight = true /\
   PhysicsEngine.bounceOffWall ball < 0) /\
  (y ball - radius ball <= 0 -> dy ball < 0 ->
   forall speedMultiplier, 0 < speedMultiplier ->
     y ball <
     PhysicsEngine.posY
       (PhysicsEngine.updateBallPosition
          (setVelocity ball (dx ball) (PhysicsEngine.bounceOffWall ball))
          speedMultiplier)) /\
  PhysicsEngine.bounceOffWall
    (setVelocity ball (dx ball) (PhysicsEngine.bounceOffWall ball)) = dy ball.
Proof.
  unfold PhysicsEngine.checkWallCollision, PhysicsEngine.bounceOffWall,
    PhysicsEngine.updateBallPosition; cbn.
  split; [|split; [|split; [|split]]].
  - rewrite orb_false_iff, leb_false, leb_false; reflexivity.
  - intros Hc.
    destruct (y ball - radius ball <=? 0) eqn:E1; [reflexivity|].
    apply leb_false in E1; simpl; apply leb_true; lra.
  - intros Ht Hd; split; [|lra].
    rewrite (proj2 (leb_true _ _) Ht); reflexivity.
  - intros Ht Hd m Hm; nra.
  - ring.
Qed.

(** [checkBallOutOfBounds] reports no side exactly when the centre of the
    ball is on the canvas, borders included; the left side is tested
    first.  The scoring step of useGameLogic tests the same sides: out on
    the left is a point for the right player. *)
Theorem checkBallOutOfBounds_sides (ball : Ball) (canvasWidth : R) :
  (PhysicsEngine.checkBallOutOfBounds ball canvasWidth = None <->
   0 <= x ball <= canvasWidth) /\
  (PhysicsEngine.checkBallOutOfBounds ball canvasWidth
     = Some PhysicsEngine.out_left <-> x ball < 0) /\
  (PhysicsEngine.checkBallOutOfBounds ball canvasWidth
     = Some PhysicsEngine.out_right <-> 0 <= x ball /\ canvasWidth < x ball) /\
  (forall s,
     ball = GameLogic.ball s -> canvasWidth = cwidth (canvas s) ->
     scorePhase s =
     match PhysicsEngine.checkBallOutOfBounds ball canvasWidth with
     | Some PhysicsEngine.out_left =>
         endRally (setScore s {| sleft := sleft (score s);
                                 sright := sright (score s) + 1 |})
     | Some PhysicsEngine.out_right =>
         endRally (setScore s {| sleft := sleft (score s) + 1;
                                 sright := sright (score s) |})
     | None => ret s
     end).
Proof.
  unfold PhysicsEngine.checkBallOutOfBounds.
  split; [|split; [|split]].
  - rdec; split; intros H; try discriminate; try reflexivity; lra.
  - rdec; split; intros H; try discriminate; try reflexivity; lra.
  - rdec; split; intros H; try discriminate; try reflexivity; lra.
  - intros s Hb Hw; subst; unfold scorePhase.
    destruct (x (GameLogic.ball s) <? 0); [reflexivity|].
    destruct (x (GameLogic.ball s) >? cwidth (canvas s)); reflexivity.
Qed.

(** ** CollisionDetector: circles, rectangles, boxes *)

Section CollisionProperties.

Import CollisionDetector.

Lemma clamp_cases (lo hi v : R) :
  lo <= hi ->
  lo <= Rmax lo (Rmin v hi) <= hi /\
  (forall q, lo <= q <= hi -> Rabs (v - Rmax lo (Rmin v hi)) <= Rabs (v - q)).
Proof.
  intros Hle.
  unfold Rmax, Rmin.
  destruct (Rle_dec v hi) as [H1|H1];
    [destruct (Rle_dec lo v) as [H2|H2] | destruct (Rle_dec lo hi) as [H2|H2]];
    (split; [lra|]); intros q Hq;
    unfold Rabs; repeat destruct (Rcase_abs _); lra.
Qed.

Lemma square_le_of_abs (a b : R) : Rabs a <= Rabs b -> a * a <= b * b.
Proof.
  intros H.
  rewrite <- (Rabs_right (a * a)), <- (Rabs_right (b * b)) by nra.
  rewrite !Rabs_mult.
  pose proof (Rabs_pos a); pose proof (Rabs_pos b); nra.
Qed.

Lemma sqrt_sum_le (a b r : R) :
  0 <= r -> a * a + b * b <= r * r -> sqrt (a * a + b * b) <= r.
Proof.
  intros Hr H.
  rewrite <- (sqrt_square r) by exact Hr.
  apply sqrt_le_1_alt; exact H.
Qed.

Lemma sqrt_sum_square (a b : R) :
  sqrt (a * a + b * b) * sqrt (a * a + b * b) = a * a + b * b.
Proof. apply sqrt_sqrt; nra. Qed.

Lemma abs_le_sqrt_sum (a b : R) : Rabs a <= sqrt (a * a + b * b).
Proof.
  rewrite <- (sqrt_square (Rabs a)) by apply Rabs_pos.
  apply sqrt_le_1_alt.
  replace (Rabs a * Rabs a) with (a * a).
  - nra.
  - rewrite <- Rabs_mult; rewrite Rabs_right; [reflexivity | nra].
Qed.

Lemma abs_le_sqrt_sum_r (a b : R) : Rabs b <= sqrt (a * a + b * b).
Proof. rewrite Rplus_comm; apply abs_le_sqrt_sum. Qed.

Lemma unit_quotient (a b : R) :
  0 < sqrt (a * a + b * b) ->
  sqrt (a / sqrt (a * a + b * b) * (a / sqrt (a * a + b * b))
        + b / sqrt (a * a + b * b) * (b / sqrt (a * a + b * b))) = 1.
Proof.
  intros Hd.
  pose proof (sqrt_sum_square a b) as Hdd.
  set (d := sqrt (a * a + b * b)) in *.
  replace (a / d * (a / d) + b / d * (b / d))
    with ((a * a + b * b) / (d * d)) by (field; lra).
  rewrite Hdd.
  replace ((a * a + b * b) / (a * a + b * b)) with 1.
  - apply sqrt_1.
  - field; rewrite <- Hdd; nra.
Qed.

Lemma collided_checkCircleRectCollision (circle : Circle) (rect : Rectangle) :
  collided (checkCircleRectCollision circle rect) =
  let closestX := Rmax (rx rect) (Rmin (cx circle) (rx rect + rwidth rect)) in
  let closestY := Rmax (ry rect) (Rmin (cy circle) (ry rect + rheight rect)) in
  ((cx circle - closestX) * (cx circle - closestX)
   + (cy circle - closestY) * (cy circle - closestY)
   <=? cradius circle * cradius circle).
Proof.
  unfold checkCircleRectCollision; cbv zeta.
  destruct (_ <=? _); simpl; [|reflexivity].
  destruct (_ >? 0); reflexivity.
Qed.

(** The circle-rectangle test is the geometric one: for a rectangle with
    sides that are not negative, it reports a collision exactly when some
    point of the rectangle, border included, is within the radius of the
    centre of the circle. *)
Theorem checkCircleRectCollision_is_geometric (circle : Circle) (rect : Rectangle) :
  0 <= rwidth rect -> 0 <= rheight rect ->
  (collided (checkCircleRectCollision circle rect) = true <->
   exists qx qy,
     isPointInRect qx qy rect = true /\
     isPointInCircle qx qy circle = true).
Proof.
  intros Hw Hh.
  rewrite collided_checkCircleRectCollision; cbv zeta.
  destruct (clamp_cases (rx rect) (rx rect + rwidth rect) (cx circle))
    as [Hcx Hnx]; [lra|].
  destruct (clamp_cases (ry rect) (ry rect + rheight rect) (cy circle))
    as [Hcy Hny]; [lra|].
  set (closestX := Rmax (rx rect) (Rmin (cx circle) (rx rect + rwidth rect))) in *.
  set (closestY := Rmax (ry rect) (Rmin (cy circle) (ry rect + rheight rect))) in *.
  unfold isPointInRect, isPointInCircle.
  rewrite leb_true; split.
  - intros H; exists closestX, closestY; split.
    + rewrite !andb_true_iff, !leb_true; lra.
    + apply leb_true; cbv zeta; nra.
  - intros (qx & qy & Hin & Hc).
    rewrite !andb_true_iff, !leb_true in Hin.
    apply leb_true in Hc; cbv zeta in Hc.
    pose proof (square_le_of_abs _ _ (Hnx qx ltac:(lra))).
    pose proof (square_le_of_abs _ _ (Hny qy ltac:(lra))).
    nra.
Qed.

Lemma checkCircleRectCollision_is_geometric_witness :
  collided (checkCircleRectCollision insideCircle aroundRect) = true <->
  exists qx qy,
    isPointInRect qx qy aroundRect = true /\
    isPointInCircle qx qy insideCircle = true.
Proof.
  apply checkCircleRectCollision_is_geometric; simpl; lra.
Defined.

(** When the circle-rectangle test reports a collision, for a radius and
    sides that are not negative: the penetration depth is between 0 and
    the radius, the normal is a unit vector, the contact point is a point
    of the rectangle, at the radius less the depth from the centre, and
    the centre lies from the contact point along the normal. *)
Theorem checkCircleRectCollision_contact (circle : Circle) (rect : Rectangle) :
  0 <= cradius circle -> 0 <= rwidth rect -> 0 <= rheight rect ->
  collided (checkCircleRectCollision circle rect) = true ->
  exists depth n p,
    penetrationDepth (checkCircleRectCollision circle rect) = Some depth /\
    normal (checkCircleRectCollision circle rect) = Some n /\
    contactPoint (checkCircleRectCollision circle rect) = Some p /\
    0 <= depth <= cradius circle /\
    norm n = 1 /\
    isPointInRect (vx p) (vy p) rect = true /\
    getDistance (vx p) (vy p) (cx circle) (cy circle) = cradius circle - depth /\
    cx circle = vx p + (cradius circle - depth) * vx n /\
    cy circle = vy p + (cradius circle - depth) * vy n.
Proof.
  intros Hr Hw Hh Hc.
  rewrite collided_checkCircleRectCollision in Hc; cbv zeta in Hc.
  apply leb_true in Hc.
  unfold checkCircleRectCollision; cbv zeta.
  destruct (clamp_cases (rx rect) (rx rect + rwidth rect) (cx circle))
    as [Hcx _]; [lra|].
  destruct (clamp_cases (ry rect) (ry rect + rheight rect) (cy circle))
    as [Hcy _]; [lra|].
  set (closestX := Rmax (rx rect) (Rmin (cx circle) (rx rect + rwidth rect))) in *.
  set (closestY := Rmax (ry rect) (Rmin (cy circle) (ry rect + rheight rect))) in *.
  set (a := cx circle - closestX) in *.
  set (b := cy circle - closestY) in *.
  rewrite (proj2 (leb_true _ _) Hc); simpl.
  pose proof (sqrt_sum_le a b _ Hr Hc) as Hd.
  pose proof (sqrt_pos (a * a + b * b)) as Hd0.
  assert (Hin : isPointInRect closestX closestY rect = true).
  { unfold isPointInRect; rewrite !andb_true_iff, !leb_true; lra. }
  assert (Hdist : getDistance closestX closestY (cx circle) (cy circle)
                  = cradius circle - (cradius circle - sqrt (a * a + b * b))).
  { unfold getDistance; cbv zeta; fold a b; ring. }
  destruct (sqrt (a * a + b * b) >? 0) eqn:E.
  - apply ltb_true in E.
    eexists; eexists; eexists.
    split; [reflexivity|]; split; [reflexivity|]; split; [reflexivity|]; cbn.
    split; [lra|].
    split; [unfold norm; cbn; apply unit_quotient; exact E|].
    split; [exact Hin|].
    split; [exact Hdist|].
    subst a b; split; field; lra.
  - apply ltb_false in E.
    assert (Hz : sqrt (a * a + b * b) = 0) by lra.
    assert (Hab : a * a + b * b = 0).
    { rewrite <- sqrt_sum_square, Hz; ring. }
    assert (Ha : a = 0) by nra.
    assert (Hb : b = 0) by nra.
    eexists; eexists; eexists.
    split; [reflexivity|]; split; [reflexivity|]; split; [reflexivity|]; cbn.
    split; [lra|].
    split.
    { unfold norm; cbn; rdec.
      - replace (-1 * -1 + 0 * 0) with 1 by ring; apply sqrt_1.
      - replace (1 * 1 + 0 * 0) with 1 by ring; apply sqrt_1. }
    split; [exact Hin|].
    split; [exact Hdist|].
    rewrite Hz; unfold a, b in *; split; lra.
Qed.

Lemma checkCircleRectCollision_contact_witness :
  exists depth n p,
    penetrationDepth (checkCircleRectCollision insideCircle aroundRect)
      = Some depth /\
    normal (checkCircleRectCollision insideCircle aroundRect) = Some n /\
    contactPoint (checkCircleRectCollision insideCircle aroundRect) = Some p /\
    0 <= depth <= 10 /\
    norm n = 1.
Proof.
  destruct (checkCircleRectCollision_contact insideCircle aroundRect)
    as (depth & n & p & H1 & H2 & H3 & H4 & H5 & _).
  - simpl; lra.
  - simpl; lra.
  - simpl; lra.
  - rewrite collided_checkCircleRectCollision; cbn.
    apply leb_true; rminmax; lra.
  - exists depth, n, p; auto.
Defined.

(** The collision test of useGameLogic, written out in the hook, and
    [checkBallPaddleCollision] agree: the hook's test for a player is the
    module's at the multiplier 2 when the big paddle is active for that
    player, and at the multiplier 1 otherwise. *)
Theorem checkBallPaddleCollision_agrees_with_hook
  (s : GameState) (ball : Ball) (paddle : Paddle) (player : Side) :
  checkPaddleCollision s ball paddle player =
  checkBallPaddleCollision ball paddle
    (if bp_active (bigPaddle (activePowerUps s))
        && isPlayer (bp_player (bigPaddle (activePowerUps s))) player
     then 2 else 1).
Proof.
  unfold checkPaddleCollision, checkBallPaddleCollision.
  rewrite collided_checkCircleRectCollision; cbn.
  destruct (bp_active _ && isPlayer _ _).
  - rewrite (proj2 (ltb_true 1 2)) by lra.
    replace (py paddle - (height paddle * 2 - height paddle) / 2)
      with (py paddle - height paddle / 2) by field.
    reflexivity.
  - rewrite (proj2 (ltb_false 1 1)) by lra.
    replace (height paddle * 1) with (height paddle) by ring.
    reflexivity.
Qed.

Lemma sqrt_swap (a b c d : R) :
  sqrt ((a - b) * (a - b) + (c - d) * (c - d))
  = sqrt ((b - a) * (b - a) + (d - c) * (d - c)).
Proof. f_equal; ring. Qed.

(** The four tests of a ball against a floating power-up agree: the one of
    PowerUpManager, the one of CollisionDetector, the general test of two
    circles, and, at the radius 20, the one written out in the pickup loop
    of useGameLogic. *)
Theorem powerUp_collision_tests_agree
  (ball : Ball) (powerUp : PowerUp) (powerUpRadius : R) :
  PowerUpManager.checkPowerUpCollision ball powerUp powerUpRadius
    = checkBallPowerUpCollision ball (pux powerUp) (puy powerUp) powerUpRadius /\
  PowerUpManager.checkPowerUpCollision ball powerUp powerUpRadius
    = collided
        (checkCircleCircleCollision
           {| cx := x ball; cy := y ball; cradius := radius ball |}
           {| cx := pux powerUp; cy := puy powerUp;
              cradius := powerUpRadius |}) /\
  touchesPowerUp ball powerUp
    = PowerUpManager.checkPowerUpCollision ball powerUp 20.
Proof.
  split; [reflexivity|]; split; [|reflexivity].
  unfold PowerUpManager.checkPowerUpCollision, checkCircleCircleCollision; cbn.
  rewrite (sqrt_swap (pux powerUp) (x ball) (puy powerUp) (y ball)).
  destruct (_ <? _); simpl; [|reflexivity].
  destruct (_ >? 0); reflexivity.
Qed.

(** The test of two circles does not depend on their order: the same
    verdict and the same penetration depth, which lies between 0,
    excluded, and the sum of the radii.  With distinct centres the two
    normals are opposite unit vectors; with the same centre both orders
    give the same normal. *)
Theorem checkCircleCircleCollision_symmetric (circle1 circle2 : Circle) :
  collided (checkCircleCircleCollision circle1 circle2)
    = collided (checkCircleCircleCollision circle2 circle1) /\
  penetrationDepth (checkCircleCircleCollision circle1 circle2)
    = penetrationDepth (checkCircleCircleCollision circle2 circle1) /\
  (collided (checkCircleCircleCollision circle1 circle2) = true ->
   exists depth n12 n21,
     penetrationDepth (checkCircleCircleCollision circle1 circle2)
       = Some depth /\
     0 < depth <= cradius circle1 + cradius circle2 /\
     normal (checkCircleCircleCollision circle1 circle2) = Some n12 /\
     normal (checkCircleCircleCollision circle2 circle1) = Some n21 /\
     norm n12 = 1 /\ norm n21 = 1 /\
     ((cx circle1 <> cx circle2 \/ cy circle1 <> cy circle2) ->
      vx n21 = - vx n12 /\ vy n21 = - vy n12) /\
     (cx circle1 = cx circle2 -> cy circle1 = cy circle2 -> n21 = n12)).
Proof.
  unfold checkCircleCircleCollision; cbv zeta.
  rewrite (sqrt_swap (cx circle1) (cx circle2) (cy circle1) (cy circle2)).
  rewrite (Rplus_comm (cradius circle2) (cradius circle1)).
  set (a := cx circle2 - cx circle1).
  set (b := cy circle2 - cy circle1).
  replace (cx circle1 - cx circle2) with (- a) by (unfold a; ring).
  replace (cy circle1 - cy circle2) with (- b) by (unfold b; ring).
  replace (- a * - a + - b * - b) with (a * a + b * b) by ring.
  pose proof (sqrt_pos (a * a + b * b)) as Hd0.
  destruct (sqrt (a * a + b * b) <? cradius circle1 + cradius circle2) eqn:Ec;
    simpl.
  - apply ltb_true in Ec.
    destruct (sqrt (a * a + b * b) >? 0) eqn:E.
    + apply ltb_true in E.
      split; [reflexivity|]; split; [reflexivity|]; intros _.
      eexists; eexists; eexists.
      split; [reflexivity|]; split; [lra|].
      split; [reflexivity|]; split; [reflexivity|].
      unfold norm; cbn.
      split; [apply unit_quotient; exact E|].
      split.
      { replace (- a / sqrt (a * a + b * b) * (- a / sqrt (a * a + b * b))
                 + - b / sqrt (a * a + b * b) * (- b / sqrt (a * a + b * b)))
          with (a / sqrt (a * a + b * b) * (a / sqrt (a * a + b * b))
                + b / sqrt (a * a + b * b) * (b / sqrt (a * a + b * b)))
          by (field; lra).
        apply unit_quotient; exact E. }
      split.
      * intros _; split; field; lra.
      * intros Hx Hy; exfalso.
        assert (Ha : a = 0) by (unfold a; lra).
        assert (Hb : b = 0) by (unfold b; lra).
        rewrite Ha, Hb in E.
        replace (0 * 0 + 0 * 0) with 0 in E by ring.
        rewrite sqrt_0 in E; lra.
    + apply ltb_false in E.
      split; [reflexivity|]; split; [reflexivity|]; intros _.
      eexists; eexists; eexists.
      split; [reflexivity|]; split; [lra|].
      split; [reflexivity|]; split; [reflexivity|].
      assert (Hone : norm {| vx := 1; vy := 0 |} = 1).
      { unfold norm; cbn.
        replace (1 * 1 + 0 * 0) with 1 by ring; apply sqrt_1. }
      split; [exact Hone|]; split; [exact Hone|].
      split; [|reflexivity].
      intros Hne; exfalso.
      assert (Hz : a * a + b * b = 0).
      { rewrite <- sqrt_sum_square.
        replace (sqrt (a * a + b * b)) with 0 by lra; ring. }
      assert (Ha : a = 0) by nra.
      assert (Hb : b = 0) by nra.
      unfold a, b in *; destruct Hne; lra.
  - split; [reflexivity|]; split; [reflexivity|]; discriminate.
Qed.

(** [checkAABBCollision] does not depend on the order of the boxes, and
    the boxes of two circles overlap whenever the circles collide: used
    as a first test, the box test never discards a collision of
    circles.  A box overlaps itself exactly when its width and height are
    positive: a box flattened to a segment or a point does not. *)
Theorem checkAABBCollision_keeps_circle_collisions :
  (forall rect1 rect2,
     checkAABBCollision rect1 rect2 = checkAABBCollision rect2 rect1) /\
  (forall circle1 circle2,
     collided (checkCircleCircleCollision circle1 circle2) = true ->
     checkAABBCollision (getCircleBounds circle1) (getCircleBounds circle2)
       = true) /\
  (forall rect,
     checkAABBCollision rect rect = true <->
     0 < rwidth rect /\ 0 < rheight rect).
Proof.
  split; [|split].
  - intros r1 r2; unfold checkAABBCollision.
    destruct (rx r1 <? rx r2 + rwidth r2), (rx r1 + rwidth r1 >? rx r2),
      (ry r1 <? ry r2 + rheight r2), (ry r1 + rheight r1 >? ry r2);
      reflexivity.
  - intros c1 c2 Hc.
    unfold checkCircleCircleCollision in Hc; cbv zeta in Hc.
    set (a := cx c2 - cx c1) in *.
    set (b := cy c2 - cy c1) in *.
    destruct (sqrt (a * a + b * b) <? cradius c1 + cradius c2) eqn:E;
      [|discriminate Hc].
    apply ltb_true in E.
    pose proof (abs_le_sqrt_sum a b) as Ha.
    pose proof (abs_le_sqrt_sum b a) as Hb.
    rewrite (Rplus_comm (b * b)) in Hb.
    assert (Ha' : - (cradius c1 + cradius c2) < a < cradius c1 + cradius c2).
    { revert Ha; unfold Rabs; destruct (Rcase_abs a); lra. }
    assert (Hb' : - (cradius c1 + cradius c2) < b < cradius c1 + cradius c2).
    { revert Hb; unfold Rabs; destruct (Rcase_abs b); lra. }
    unfold checkAABBCollision, getCircleBounds; cbn.
    unfold a, b in *.
    rewrite !andb_true_iff, !ltb_true; lra.
  - intros r; unfold checkAABBCollision.
    rewrite !andb_true_iff, !ltb_true; lra.
Qed.

(** A point that [isPointInCircle] accepts lies in the box
    [getCircleBounds] gives for the circle, when the radius is not
    negative.  The test only uses the square of the radius: a circle with
    the radius -r holds the same points as the circle with the radius r,
    and its box, of negative width, holds none. *)
Theorem isPointInCircle_inside_bounds (pointX pointY : R) (circle : Circle) :
  (0 <= cradius circle ->
   isPointInCircle pointX pointY circle = true ->
   isPointInRect pointX pointY (getCircleBounds circle) = true) /\
  isPointInCircle pointX pointY
    {| cx := cx circle; cy := cy circle; cradius := - cradius circle |}
    = isPointInCircle pointX pointY circle /\
  (cradius circle < 0 ->
   isPointInRect pointX pointY (getCircleBounds circle) = false).
Proof.
  unfold isPointInCircle, isPointInRect, getCircleBounds; cbn.
  split; [|split].
  - intros Hr Hc; apply leb_true in Hc.
    set (a := pointX - cx circle) in *.
    set (b := pointY - cy circle) in *.
    assert (Ha : Rabs a <= cradius circle).
    { eapply Rle_trans; [apply (abs_le_sqrt_sum a b)|].
      apply sqrt_sum_le; assumption. }
    assert (Hb : Rabs b <= cradius circle).
    { eapply Rle_trans; [apply (abs_le_sqrt_sum b a)|].
      apply sqrt_sum_le; [assumption | lra]. }
    assert (Ha' : - cradius circle <= a <= cradius circle).
    { revert Ha; unfold Rabs; destruct (Rcase_abs a); lra. }
    assert (Hb' : - cradius circle <= b <= cradius circle).
    { revert Hb; unfold Rabs; destruct (Rcase_abs b); lra. }
    unfold a, b in *.
    rewrite !andb_true_iff, !leb_true; lra.
  - replace (- cradius circle * - cradius circle)
      with (cradius circle * cradius circle) by ring.
    reflexivity.
  - intros Hr.
    destruct (pointX >=? cx circle - cradius circle) eqn:E1; [|reflexivity].
    apply leb_true in E1.
    rewrite (proj2 (leb_false pointX _)) by lra.
    reflexivity.
Qed.

(** [getDistanceSquared] is the square of [getDistance], so comparing
    squared distances orders pairs of points as comparing distances does;
    the distance does not depend on the order of the two points, is never
    negative, and is 0 only between a point and itself. *)
Theorem getDistanceSquared_orders_like_getDistance
  (x1 y1 x2 y2 x3 y3 x4 y4 : R) :
  getDistanceSquared x1 y1 x2 y2
    = getDistance x1 y1 x2 y2 * getDistance x1 y1 x2 y2 /\
  (getDistance x1 y1 x2 y2 <= getDistance x3 y3 x4 y4 <->
   getDistanceSquared x1 y1 x2 y2 <= getDistanceSquared x3 y3 x4 y4) /\
  getDistance x1 y1 x2 y2 = getDistance x2 y2 x1 y1 /\
  0 <= getDistance x1 y1 x2 y2 /\
  (getDistance x1 y1 x2 y2 = 0 <-> x1 = x2 /\ y1 = y2).
Proof.
  unfold getDistanceSquared, getDistance; cbv zeta.
  set (a := x2 - x1). set (b := y2 - y1).
  set (c := x4 - x3). set (d := y4 - y3).
  pose proof (sqrt_sum_square a b) as Hab.
  pose proof (sqrt_sum_square c d) as Hcd.
  pose proof (sqrt_pos (a * a + b * b)) as H1.
  pose proof (sqrt_pos (c * c + d * d)) as H2.
  split; [symmetry; exact Hab|].
  split; [split; intros H; nra|].
  split; [unfold a, b; apply sqrt_swap|].
  split; [exact H1|].
  split.
  - intros Hz; rewrite Hz in Hab.
    assert (a = 0) by nra. assert (b = 0) by nra.
    unfold a, b in *; lra.
  - intros [Hx Hy].
    replace (a * a + b * b) with 0 by (unfold a, b; subst; ring).
    apply sqrt_0.
Qed.

End CollisionProperties.

(** ** AIController: the opponent *)

Lemma Rabs_bounds (a b : R) : Rabs a <= b <-> - b <= a <= b.
Proof.
  split.
  - intros H; unfold Rabs in H; destruct (Rcase_abs a); lra.
  - intros H; apply Rabs_le; exact H.
Qed.

Lemma Rabs_lt_bounds (a b : R) : Rabs a < b <-> - b < a < b.
Proof.
  split.
  - intros H; unfold Rabs in H; destruct (Rcase_abs a); lra.
  - intros H; unfold Rabs; destruct (Rcase_abs a); lra.
Qed.

(** One frame of [updateAIPaddle], for a paddle on the canvas and a speed
    that is not negative: the paddle stays on the canvas, moves by at most
    the speed, never away from the target, and not at all when its centre
    is within 2 of the target; its centre ends no farther from the target
    than it was, or than one step of the speed. *)
Theorem updateAIPaddle_step (paddle : Paddle) (targetY canvasHeight : R)
  (config : AIController.AIConfig) :
  0 <= AIController.speed config ->
  0 <= py paddle <= canvasHeight - height paddle ->
  let newY := AIController.updateAIPaddle paddle targetY canvasHeight config in
  let difference := targetY - (py paddle + height paddle / 2) in
  let difference' := targetY - (newY + height paddle / 2) in
  0 <= newY <= canvasHeight - height paddle /\
  Rabs (newY - py paddle) <= AIController.speed config /\
  (Rabs difference < 2 -> newY = py paddle) /\
  (0 <= difference -> py paddle <= newY) /\
  (difference <= 0 -> newY <= py paddle) /\
  Rabs difference' <= Rmax (Rabs difference) (AIController.speed config).
Proof.
  intros Hs Hp; cbv zeta.
  unfold AIController.updateAIPaddle.
  set (d := targetY - (py paddle + height paddle / 2)).
  pose proof (Rmax_l (Rabs d) (AIController.speed config)) as Hm1.
  pose proof (Rmax_r (Rabs d) (AIController.speed config)) as Hm2.
  set (M := Rmax (Rabs d) (AIController.speed config)) in *.
  assert (Hfin : forall n,
             0 <= n <= canvasHeight - height paddle ->
             Rabs (n - py paddle) <= AIController.speed config ->
             (Rabs d < 2 -> n = py paddle) ->
             (0 <= d -> py paddle <= n) ->
             (d <= 0 -> n <= py paddle) ->
             - M <= targetY - (n + height paddle / 2) <= M ->
             0 <= n <= canvasHeight - height paddle /\
             Rabs (n - py paddle) <= AIController.speed config /\
             (Rabs d < 2 -> n = py paddle) /\
             (0 <= d -> py paddle <= n) /\
             (d <= 0 -> n <= py paddle) /\
             Rabs (targetY - (n + height paddle / 2)) <= M).
  { intros n H1 H2 H3 H4 H5 H6; repeat (split; [assumption|]).
    apply Rabs_bounds; exact H6. }
  destruct (Rabs d <? 2) eqn:E.
  - apply ltb_true in E.
    apply Hfin; try lra.
    + replace (py paddle - py paddle) with 0 by ring; rewrite Rabs_R0; lra.
    + fold d; apply Rabs_bounds; exact Hm1.
  - apply ltb_false in E.
    destruct (d <? 0) eqn:E2.
    + apply ltb_true in E2.
      rewrite Rabs_left in E, Hm1 by lra.
      pose proof (Rmax_l 0 (py paddle - AIController.speed config)) as Hn1.
      pose proof (Rmax_r 0 (py paddle - AIController.speed config)) as Hn2.
      assert (Hn3 : Rmax 0 (py paddle - AIController.speed config) <= py paddle)
        by (apply Rmax_lub; lra).
      set (n := Rmax 0 (py paddle - AIController.speed config)) in *.
      apply Hfin; try lra.
      * apply Rabs_bounds; lra.
      * intros Hlt; apply Rabs_lt_bounds in Hlt; lra.
      * unfold d in *; lra.
    + apply ltb_false in E2.
      rewrite Rabs_right in E, Hm1 by lra.
      pose proof (Rmin_l (canvasHeight - height paddle)
                    (py paddle + AIController.speed config)) as Hn1.
      pose proof (Rmin_r (canvasHeight - height paddle)
                    (py paddle + AIController.speed config)) as Hn2.
      assert (Hn3 : py paddle <= Rmin (canvasHeight - height paddle)
                                   (py paddle + AIController.speed config))
        by (apply Rmin_glb; lra).
      set (n := Rmin (canvasHeight - height paddle)
                  (py paddle + AIController.speed config)) in *.
      apply Hfin; try lra.
      * apply Rabs_bounds; lra.
      * intros Hlt; apply Rabs_lt_bounds in Hlt; lra.
      * unfold d in *; lra.
Qed.

Lemma updateAIPaddle_step_witness :
  let newY :=
    AIController.updateAIPaddle (paddleAt 300) 343 600
      (AIController.getAIConfig AIController.hard) in
  0 <= newY <= 600 - 80 /\ Rabs (newY - 300) <= 75 / 10.
Proof.
  destruct (updateAIPaddle_step (paddleAt 300) 343 600
              (AIController.getAIConfig AIController.hard))
    as (H1 & H2 & _).
  - simpl; lra.
  - simpl; lra.
  - split; [exact H1 | exact H2].
Defined.

Lemma clamp_lipschitz (H a b : R) :
  0 <= H -> Rabs (Rmax 0 (Rmin H a) - Rmax 0 (Rmin H b)) <= Rabs (a - b).
Proof.
  intros HH; unfold Rmax, Rmin.
  repeat destruct (Rle_dec _ _); unfold Rabs;
    repeat destruct (Rcase_abs _); lra.
Qed.

Lemma predictBallPosition_total (ball : Ball) (targetX canvasHeight : R) :
  0 < canvasHeight ->
  exists n, forall fuel, (n <= fuel)%nat ->
    exists v,
      AIController.predictBallPosition fuel ball targetX canvasHeight = Some v.
Proof.
  intros HH; unfold AIController.predictBallPosition.
  destruct (dx ball =? 0).
  - exists 0%nat; intros fuel _; eexists; reflexivity.
  - exists (reflectionsBound canvasHeight
              (y ball + dy ball * ((targetX - x ball) / dx ball))).
    intros fuel Hfuel.
    destruct (unfoldReflections_bounded _ _ fuel HH Hfuel) as (v & Hv & _).
    exists v; rewrite <- Hv.
    apply simulateWallBounces_unfoldReflections.
Qed.



Lemma updateAIPaddle_bounds (paddle : Paddle) (targetY canvasHeight : R)
  (config : AIController.AIConfig) :
  0 <= AIController.speed config ->
  0 <= py paddle <= canvasHeight - height paddle ->
  0 <= AIController.updateAIPaddle paddle targetY canvasHeight config
    <= canvasHeight - height paddle /\
  Rabs (AIController.updateAIPaddle paddle targetY canvasHeight config
        - py paddle) <= AIController.speed config.
Proof.
  intros Hs Hp; unfold AIController.updateAIPaddle.
  destruct (_ <? 2).
  - replace (py paddle - py paddle) with 0 by ring; rewrite Rabs_R0; lra.
  - destruct (_ <? 0).
    + pose proof (Rmax_l 0 (py paddle - AIController.speed config)).
      pose proof (Rmax_r 0 (py paddle - AIController.speed config)).
      assert (Rmax 0 (py paddle - AIController.speed config) <= py paddle)
        by (apply Rmax_lub; lra).
      split; [lra | apply Rabs_bounds; lra].
    + pose proof (Rmin_l (canvasHeight - height paddle)
                    (py paddle + AIController.speed config)).
      pose proof (Rmin_r (canvasHeight - height paddle)
                    (py paddle + AIController.speed config)).
      assert (py paddle <= Rmin (canvasHeight - height paddle)
                             (py paddle + AIController.speed config))
        by (apply Rmin_glb; lra).
      split; [lra | apply Rabs_bounds; lra].
Qed.

Lemma calculateAITarget_returns (ball : Ball) (paddle : Paddle)
  (canvasHeight : R) (config : AIController.AIConfig) (e : Env) :
  validRandoms e -> 0 < canvasHeight -> AIController.accuracy config <= 1 ->
  exists n, forall fuel, (n <= fuel)%nat ->
    exists target e',
      AIController.calculateAITarget fuel ball paddle canvasHeight config e
        = Ok target e' /\
      0 <= target <= canvasHeight.
Proof.
  intros Hv HH Hacc.
  assert (Hfin : forall t, 0 <= Rmax 0 (Rmin canvasHeight t) <= canvasHeight).
  { intros t; split; [apply Rmax_l|].
    apply Rmax_lub; [lra | apply Rmin_l]. }
  unfold AIController.calculateAITarget.
  destruct (AIController.predictionEnabled config).
  - destruct (predictBallPosition_total ball (px paddle) canvasHeight HH)
      as [n Hn].
    exists n; intros fuel Hfuel.
    destruct (Hn fuel Hfuel) as [aim Haim].
    rewrite Haim; unfold bind, ret, Math_random.
    eexists; eexists; split; [reflexivity | apply Hfin].
  - exists 0%nat; intros fuel _; unfold bind, ret, Math_random.
    eexists; eexists; split; [reflexivity | apply Hfin].
Qed.

Lemma getAIConfig_speed (difficulty : AIController.AIDifficulty) :
  0 <= AIController.speed (AIController.getAIConfig difficulty) <= 75 / 10 /\
  AIController.accuracy (AIController.getAIConfig difficulty) <= 1.
Proof. destruct difficulty; simpl; lra. Qed.

(** [computeAIMove], for a paddle on the canvas, returns given fuel enough
    for the prediction.  The paddle it answers is on the canvas and within
    7.5 of where it was.  When the ball does not approach, nothing
    changes: the state of the opponent and the position are given back and
    no random number is drawn.  Otherwise the state is either given back
    as it was, or holds the current time as the time of the last reaction
    and a target on the canvas, and this only when the delay of the tier
    has passed. *)
Theorem computeAIMove_moves_within_bounds (ball : Ball) (paddle : Paddle)
  (aiState : AIController.AIState) (canvasHeight : R)
  (difficulty : AIController.AIDifficulty) (currentTime : R) (e : Env) :
  validRandoms e -> 0 < canvasHeight ->
  0 <= py paddle <= canvasHeight - height paddle ->
  exists n, forall fuel, (n <= fuel)%nat ->
    exists move e',
      AIController.computeAIMove fuel ball paddle aiState canvasHeight
        difficulty currentTime e = Ok move e' /\
      0 <= AIController.newPaddleY move <= canvasHeight - height paddle /\
      Rabs (AIController.newPaddleY move - py paddle) <= 75 / 10 /\
      (AIController.isBallApproaching ball (px paddle) = false ->
       move = {| AIController.newAIState := aiState;
                 AIController.newPaddleY := py paddle |} /\ e' = e) /\
      (AIController.newAIState move = aiState /\ e' = e \/
       AIController.shouldReact currentTime
         (AIController.lastReactionTime aiState)
         (AIController.getAIConfig difficulty) = true /\
       AIController.lastReactionTime (AIController.newAIState move)
         = currentTime /\
       0 <= AIController.targetY (AIController.newAIState move)
         <= canvasHeight).
Proof.
  intros Hv HH Hp.
  destruct (getAIConfig_speed difficulty) as [Hs Hacc].
  set (config := AIController.getAIConfig difficulty) in *.
  assert (Hstep : forall t,
             0 <= AIController.updateAIPaddle paddle t canvasHeight config
               <= canvasHeight - height paddle /\
             Rabs (AIController.updateAIPaddle paddle t canvasHeight config
                   - py paddle) <= 75 / 10).
  { intros t.
    destruct (updateAIPaddle_bounds paddle t canvasHeight config)
      as (H1 & H2); [lra | exact Hp|].
    split; [exact H1 | lra]. }
  unfold AIController.computeAIMove; fold config.
  destruct (AIController.isBallApproaching ball (px paddle)) eqn:Ea; simpl.
  - destruct (AIController.shouldReact currentTime _ config) eqn:Er; simpl.
    + destruct (calculateAITarget_returns ball paddle canvasHeight config e
                  Hv HH Hacc) as [n Hn].
      exists n; intros fuel Hfuel.
      destruct (Hn fuel Hfuel) as (target & e' & Ht & Hrange).
      unfold bind; rewrite Ht; unfold ret.
      eexists; eexists; split; [reflexivity|]; cbn.
      destruct (Hstep target) as [H1 H2].
      split; [exact H1|]; split; [exact H2|].
      split; [discriminate|].
      right; split; [reflexivity|]; split; [reflexivity | exact Hrange].
    + exists 0%nat; intros fuel _; unfold ret.
      eexists; eexists; split; [reflexivity|]; cbn.
      destruct (Hstep (AIController.targetY aiState)) as [H1 H2].
      split; [exact H1|]; split; [exact H2|].
      split; [discriminate|].
      left; split; reflexivity.
  - exists 0%nat; intros fuel _; unfold ret.
    eexists; eexists; split; [reflexivity|]; cbn.
    split; [lra|].
    split; [replace (py paddle - py paddle) with 0 by ring;
            rewrite Rabs_R0; lra|].
    split; [intros _; split; reflexivity|].
    left; split; reflexivity.
Qed.

Lemma computeAIMove_moves_within_bounds_witness :
  exists n, forall fuel, (n <= fuel)%nat ->
    exists move e',
      AIController.computeAIMove fuel exampleBall (paddleAt 300)
        {| AIController.targetY := 343; AIController.lastReactionTime := 0 |}
        600 AIController.hard 1000 steadyEnv = Ok move e' /\
      0 <= AIController.newPaddleY move <= 600 - 80 /\
      Rabs (AIController.newPaddleY move - 300) <= 75 / 10.
Proof.
  destruct (computeAIMove_moves_within_bounds exampleBall (paddleAt 300)
              {| AIController.targetY := 343;
                 AIController.lastReactionTime := 0 |}
              600 AIController.hard 1000 steadyEnv) as [n Hn].
  - intros k; simpl; lra.
  - lra.
  - simpl; lra.
  - exists n; intros fuel Hfuel.
    destruct (Hn fuel Hfuel) as (move & e' & H & H1 & H2 & _).
    exists move, e'; split; [exact H|]; split; [exact H1 | exact H2].
Defined.

(** [isBallApproaching] takes a paddle for the right one when its x is
    above 400.  A ball with no horizontal velocity approaches no paddle.
    The component PongGame.tsx puts the right paddle at the canvas width
    less 52: on a canvas at most 452 wide that paddle is taken for the
    left one, and while the ball flies to the right, towards it,
    [computeAIMove] leaves the opponent where it is. *)
Theorem isBallApproaching_assumes_wide_canvas :
  (forall ball paddleX,
     dx ball = 0 -> AIController.isBallApproaching ball paddleX = false) /\
  (forall ball paddleX,
     400 < paddleX ->
     (AIController.isBallApproaching ball paddleX = true <-> 0 < dx ball)) /\
  (forall ball paddleX,
     paddleX <= 400 ->
     (AIController.isBallApproaching ball paddleX = true <-> dx ball < 0)) /\
  (forall s fuel ball aiState difficulty currentTime e,
     width (pright (paddles s)) = 12 ->
     cwidth (canvas s) <= 452 ->
     0 <= dx ball ->
     let right := pright (paddles (PongGame.initializeGamePositions s)) in
     px right = cwidth (canvas s) - 52 /\
     AIController.computeAIMove fuel ball right aiState (cheight (canvas s))
       difficulty currentTime e
     = Ok {| AIController.newAIState := aiState;
             AIController.newPaddleY := py right |} e).
Proof.
  split; [|split; [|split]].
  - intros ball paddleX Hz; unfold AIController.isBallApproaching.
    rewrite Hz; rdec; try reflexivity; lra.
  - intros ball paddleX Hp; unfold AIController.isBallApproaching.
    rewrite (proj2 (ltb_true 400 paddleX)) by lra.
    apply ltb_true.
  - intros ball paddleX Hp; unfold AIController.isBallApproaching.
    rewrite (proj2 (ltb_false 400 paddleX)) by lra.
    apply ltb_true.
  - intros s fuel ball aiState difficulty currentTime e Hw Hc Hdx; cbv zeta.
    assert (Hx : px (pright (paddles (PongGame.initializeGamePositions s)))
                 = cwidth (canvas s) - 52).
    { unfold PongGame.initializeGamePositions; cbn; rewrite Hw; ring. }
    split; [exact Hx|].
    unfold AIController.computeAIMove, AIController.isBallApproaching.
    rewrite Hx.
    rewrite (proj2 (ltb_false 400 (cwidth (canvas s) - 52))) by lra.
    rewrite (proj2 (ltb_false (dx ball) 0)) by lra.
    reflexivity.
Qed.

Lemma getAISettings_speed (difficulty : string) :
  0 <= AIController.speed (getAISettings difficulty) <= 75 / 10.
Proof.
  unfold getAISettings.
  destruct (String.eqb difficulty "easy"); [simpl; lra|].
  destruct (String.eqb difficulty "medium"); [simpl; lra|].
  destruct (String.eqb difficulty "hard"); simpl; lra.
Qed.

Lemma updateAI_step (fuel : nat) (s s' : GameState) (e e' : Env) :
  updateAI fuel s e = Ok s' e' ->
  canvas s' = canvas s /\
  (pright (paddles s') = pright (paddles s) \/
   exists newY,
     5 < Rabs (targetY (ai s')
               - (py (pright (paddles s)) + height (pright (paddles s)) / 2)) /\
     newY =
       (if targetY (ai s')
           - (py (pright (paddles s)) + height (pright (paddles s)) / 2) <? 0
        then Rmax 0 (py (pright (paddles s))
                     - AIController.speed (getAISettings (difficulty (ai s))))
        else Rmin (cheight (canvas s) - height (pright (paddles s)))
                  (py (pright (paddles s))
                   + AIController.speed (getAISettings (difficulty (ai s))))) /\
     pright (paddles s') =
       setPaddleVelocity (setY (pright (paddles s)) newY)
         (newY - py (pright (paddles s)))) /\
  (Rabs (targetY (ai s')
         - (py (pright (paddles s)) + height (pright (paddles s)) / 2)) <= 5 ->
   pright (paddles s') = pright (paddles s)).
Proof.
  unfold updateAI; intros H.
  destruct (negb (enabled (ai s))).
  { mstep H; split; [reflexivity|]; split; [left; reflexivity | reflexivity]. }
  destruct (dx (ball s) >? 0).
  2:{ mstep H; split; [reflexivity|]; split; [left; reflexivity | reflexivity]. }
  mstep H. mstep H.
  assert (Ka : paddles a0 = paddles s /\ canvas a0 = canvas s
               /\ difficulty (ai a0) = difficulty (ai s)).
  { destruct (_ >? _) in Hc0.
    - repeat mstep Hc0; repeat split; reflexivity.
    - mstep Hc0; repeat split; reflexivity. }
  destruct Ka as (Kp & Kc & Kd).
  rewrite Kp, Kc in H.
  destruct (Rabs _ >? 5) eqn:E.
  - apply ltb_true in E.
    mstep H.
    split; [cbn; exact Kc|].
    split.
    + right; cbn [ai setRight setPaddles].
      eexists; split; [exact E|]; split; [reflexivity|].
      cbn.
      destruct (_ <? 0); reflexivity.
    + cbn [ai setRight setPaddles]; intros Hle; lra.
  - mstep H.
    split; [exact Kc|]; split; [left; rewrite Kp; reflexivity|].
    intros _; rewrite Kp; reflexivity.
Qed.



(** ** PowerUpManager: spawning, finding, removing *)

Lemma Int_part_between (r : R) (lo hi : Z) :
  IZR lo <= r < IZR hi + 1 -> (lo <= Int_part r <= hi)%Z.
Proof.
  intros [Hlo Hhi].
  destruct (base_Int_part r) as [Hle Hgt].
  split.
  - assert (H : IZR lo - 1 < IZR (Int_part r)) by lra.
    rewrite <- minus_IZR in H; apply lt_IZR in H; lia.
  - assert (H : IZR (Int_part r) < IZR hi + 1) by lra.
    rewrite <- plus_IZR in H; apply lt_IZR in H; lia.
Qed.



Lemma POWER_UP_TYPES_get (i : Z) :
  (0 <= i <= 3)%Z ->
  exists config,
    PowerUpManager.elementAt PowerUpManager.POWER_UP_TYPES i = Some config /\
    In config PowerUpManager.POWER_UP_TYPES.
Proof.
  intros Hi; unfold PowerUpManager.elementAt.
  destruct (Z.ltb_spec i 0) as [Hneg|_]; [lia|].
  assert (Hn : (Z.to_nat i < 4)%nat) by lia.
  destruct (Z.to_nat i) as [|[|[|[|n]]]]; simpl;
    try (eexists; split; [reflexivity | tauto]); lia.
Qed.

(** [spawnPowerUp] of PowerUpManager always finds a configuration for the
    type it draws.  The power-up it makes carries the type, colour and
    symbol of one configuration; its id is its spawn time; it rests at its
    base position, inside the margins of 150 and 75 when the canvas is at
    least 300 by 150; its float radius is between 20 and 35 and is also its
    maximum float radius.  Animated at its spawn time it keeps that radius,
    and from 100 seconds on the radius is 80. *)
Theorem spawnPowerUp_well_formed
  (canvasWidth canvasHeight : R) (currentTime : option R) (e : Env) :
  validRandoms e ->
  exists powerUp e',
    PowerUpManager.spawnPowerUp canvasWidth canvasHeight currentTime e
      = Ok powerUp e' /\
    (exists config,
       In config PowerUpManager.POWER_UP_TYPES /\
       type powerUp = PowerUpManager.configType config /\
       color powerUp = PowerUpManager.configColor config /\
       symbol powerUp = PowerUpManager.configSymbol config) /\
    id powerUp = spawnTime powerUp /\
    spawnTime powerUp
      = match currentTime with
        | Some t => t
        | None => clock e (nextClock e)
        end /\
    baseX powerUp = pux powerUp /\ baseY powerUp = puy powerUp /\
    (300 <= canvasWidth -> 150 <= pux powerUp <= canvasWidth - 150) /\
    (150 <= canvasHeight -> 75 <= puy powerUp <= canvasHeight - 75) /\
    20 <= floatRadius powerUp < 35 /\
    maxFloatRadius powerUp = floatRadius powerUp /\
    2 / 100 <= floatSpeed powerUp < 5 / 100 /\
    (forall cw ch,
       floatRadius
         (PowerUpManager.updatePowerUpAnimation powerUp cw ch
            (spawnTime powerUp)) = floatRadius powerUp) /\
    (forall cw ch now,
       100 * 1000 <= now - spawnTime powerUp ->
       floatRadius (PowerUpManager.updatePowerUpAnimation powerUp cw ch now)
         = 80).
Proof.
  intros Hv.
  unfold PowerUpManager.spawnPowerUp.
  set (now := match currentTime with
              | Some t => t
              | None => clock e (nextClock e)
              end).
  assert (Hnow : exists e1,
             (match currentTime with
              | Some t => ret t
              | None => Date_now
              end) e = Ok now e1 /\
             randoms e1 = randoms e /\ nextRandom e1 = nextRandom e).
  { unfold now; destruct currentTime; unfold ret, Date_now;
      eexists; split; try reflexivity; split; reflexivity. }
  destruct Hnow as (e1 & Hnow & Hr1 & Hn1).
  unfold bind at 1; rewrite Hnow.
  unfold bind at 1, Math_random at 1.
  assert (Hv1 : forall k, 0 <= randoms e1 k < 1) by (rewrite Hr1; exact Hv).
  destruct (POWER_UP_TYPES_get
              (Int_part (randoms e1 (nextRandom e1)
                         * INR (List.length PowerUpManager.POWER_UP_TYPES))))
    as (config & Hget & Hin).
  { apply Int_part_range; pose proof (Hv1 (nextRandom e1)); simpl; lra. }
  rewrite Hget.
  unfold bind, Math_random, ret; cbn [randoms nextRandom].
  eexists; eexists; split; [reflexivity|]; cbn.
  pose proof (Hv1 (S (nextRandom e1))) as Hx.
  pose proof (Hv1 (S (S (nextRandom e1)))) as Hy.
  pose proof (Hv1 (S (S (S (S (nextRandom e1)))))) as Hs.
  pose proof (Hv1 (S (S (S (S (S (nextRandom e1))))))) as Hr.
  set (radius0 := 20 + randoms e1 (S (S (S (S (S (nextRandom e1)))))) * 15) in *.
  assert (Hrad : 20 <= radius0 < 35) by (unfold radius0; lra).
  split; [exists config; repeat split; try reflexivity; exact Hin|].
  split; [reflexivity|]; split; [reflexivity|].
  split; [reflexivity|]; split; [reflexivity|].
  split; [intros Hw; nra|].
  split; [intros Hh; nra|].
  split; [exact Hrad|]; split; [reflexivity|]; split; [lra|].
  split.
  - intros _ _.
    replace (radius0 * (1 + (now - now) / 1000 / 10)) with radius0 by field.
    rewrite Rmin_left by lra; reflexivity.
  - intros _ _ t Ht.
    rewrite Rmin_right; [reflexivity|].
    assert (Hg : 11 <= 1 + (t - now) / 1000 / 10) by lra.
    nra.
Qed.

Lemma spawnPowerUp_well_formed_witness :
  exists powerUp e',
    PowerUpManager.spawnPowerUp 800 400 (Some 1000) steadyEnv
      = Ok powerUp e' /\
    id powerUp = spawnTime powerUp /\
    spawnTime powerUp = 1000 /\
    20 <= floatRadius powerUp < 35.
Proof.
  destruct (spawnPowerUp_well_formed 800 400 (Some 1000) steadyEnv)
    as (p & e' & H & _ & H1 & H2 & _ & _ & _ & _ & H3 & _).
  - intros n; simpl; lra.
  - exists p, e'; split; [exact H|]; split; [exact H1|].
    split; [exact H2 | exact H3].
Defined.

(** [getPowerUpConfig] never throws for the four types, and the
    configuration it returns has the type asked for.  The durations of
    the table are the ones [activatePowerUp] of useGameLogic installs:
    480, 360 and 600 frames for the big paddle, the fast ball and
    multi-ball, and one use for the shield, which has no duration. *)
Theorem getPowerUpConfig_matches_activation
  (powerUp : PowerUp) (player : option Side) (s : GameState) (e : Env) :
  exists config s' e',
    PowerUpManager.getPowerUpConfig (type powerUp) = Some config /\
    In config PowerUpManager.POWER_UP_TYPES /\
    PowerUpManager.configType config = type powerUp /\
    activatePowerUp powerUp player s e = Ok s' e' /\
    match type powerUp with
    | BigPaddle =>
        PowerUpManager.duration config
          = Some (bp_timeLeft (bigPaddle (activePowerUps s')))
    | FastBall =>
        PowerUpManager.duration config
          = Some (fb_timeLeft (fastBall (activePowerUps s')))
    | MultiBall =>
        mb_active (multiBall (activePowerUps s)) = false ->
        PowerUpManager.duration config
          = Some (mb_timeLeft (multiBall (activePowerUps s')))
    | Shield =>
        PowerUpManager.duration config = None /\
        PowerUpManager.uses config
          = Some (sh_uses (shield (activePowerUps s')))
    end.
Proof.
  unfold activatePowerUp.
  destruct (type powerUp) eqn:Et.
  - unfold bind, ret, Math_random.
    eexists; eexists; eexists.
    split; [reflexivity|]; split; [simpl; tauto|]; split; [reflexivity|].
    split; reflexivity.
  - unfold bind, ret, Math_random.
    eexists; eexists; eexists.
    split; [reflexivity|]; split; [simpl; tauto|]; split; [reflexivity|].
    split; reflexivity.
  - destruct (mb_active (multiBall (activePowerUps s))) eqn:Ea; simpl.
    + unfold bind, ret, Math_random.
      eexists; eexists; eexists.
      split; [reflexivity|]; split; [simpl; tauto|]; split; [reflexivity|].
      split; [reflexivity | discriminate].
    + unfold spawnExtraBalls, bind, ret, Math_random.
      eexists; eexists; eexists.
      split; [reflexivity|]; split; [simpl; tauto|]; split; [reflexivity|].
      split; [reflexivity | intros _; reflexivity].
  - unfold bind, ret, Math_random.
    eexists; eexists; eexists.
    split; [reflexivity|]; split; [simpl; tauto|]; split; [reflexivity|].
    split; [reflexivity | split; reflexivity].
Qed.

(** [updateAllPowerUps] animates every power-up and loses none: the
    result has the same length, with the same ids, types and spawn times in
    the same order.  Removing a power-up by id and animating can be done in
    either order. *)
Theorem updateAllPowerUps_keeps_the_powerUps (powerUps : list PowerUp)
  (canvasWidth canvasHeight currentTime powerUpId : R) :
  let updated :=
    PowerUpManager.updateAllPowerUps powerUps canvasWidth canvasHeight
      currentTime in
  List.length updated = List.length powerUps /\
  map id updated = map id powerUps /\
  map type updated = map type powerUps /\
  map spawnTime updated = map spawnTime powerUps /\
  PowerUpManager.removePowerUp updated powerUpId
    = PowerUpManager.updateAllPowerUps
        (PowerUpManager.removePowerUp powerUps powerUpId)
        canvasWidth canvasHeight currentTime.
Proof.
  cbv zeta; unfold PowerUpManager.updateAllPowerUps.
  split; [apply length_map|].
  split; [rewrite map_map; reflexivity|].
  split; [rewrite map_map; reflexivity|].
  split; [rewrite map_map; reflexivity|].
  unfold PowerUpManager.removePowerUp.
  induction powerUps as [|p l IH]; simpl; [reflexivity|].
  destruct (negb (id p =? powerUpId)); simpl; rewrite IH; reflexivity.
Qed.

(** [findCollidingPowerUp] returns [null] exactly when the ball touches no
    power-up of the list, the empty list included; otherwise it returns
    the first power-up the ball touches, at the radius 20. *)
Theorem findCollidingPowerUp_first_touched (ball : Ball) (powerUps : list PowerUp) :
  (PowerUpManager.findCollidingPowerUp ball powerUps = None <->
   forall powerUp,
     In powerUp powerUps ->
     PowerUpManager.checkPowerUpCollision ball powerUp 20 = false) /\
  (forall powerUp,
     PowerUpManager.findCollidingPowerUp ball powerUps = Some powerUp ->
     PowerUpManager.checkPowerUpCollision ball powerUp 20 = true /\
     exists before after,
       powerUps = before ++ powerUp :: after /\
       forall other,
         In other before ->
         PowerUpManager.checkPowerUpCollision ball other 20 = false) /\
  PowerUpManager.findCollidingPowerUp ball [] = None.
Proof.
  split; [|split; [|reflexivity]].
  - induction powerUps as [|p l IH]; simpl.
    + split; [intros _ q [] | reflexivity].
    + destruct (PowerUpManager.checkPowerUpCollision ball p 20) eqn:E.
      * split; [discriminate|].
        intros H; rewrite (H p (or_introl eq_refl)) in E; discriminate.
      * rewrite IH; split.
        -- intros H q [Hq|Hq]; [subst; exact E | apply H; exact Hq].
        -- intros H q Hq; apply H; right; exact Hq.
  - induction powerUps as [|p l IH]; simpl; intros q Hq; [discriminate|].
    destruct (PowerUpManager.checkPowerUpCollision ball p 20) eqn:E.
    + inversion Hq; subst; split; [exact E|].
      exists [], l; split; [reflexivity | intros o []].
    + destruct (IH q Hq) as (Hc & b & a & Hl & Hb).
      split; [exact Hc|].
      exists (p :: b), a; split; [rewrite Hl; reflexivity|].
      intros o [Ho|Ho]; [subst; exact E | apply Hb; exact Ho].
Qed.

(** [removePowerUp] keeps, in their order, exactly the power-ups with
    another id: every power-up with the id goes, also when several share
    it.  A list with no such id is returned as it is; removing twice is
    removing once; removals of two ids can be done in either order; the
    list never grows. *)
Theorem removePowerUp_removes_every_match
  (powerUps : list PowerUp) (powerUpId otherId : R) :
  (forall powerUp,
     In powerUp (PowerUpManager.removePowerUp powerUps powerUpId) <->
     In powerUp powerUps /\ id powerUp <> powerUpId) /\
  ((forall powerUp, In powerUp powerUps -> id powerUp <> powerUpId) ->
   PowerUpManager.removePowerUp powerUps powerUpId = powerUps) /\
  PowerUpManager.removePowerUp
    (PowerUpManager.removePowerUp powerUps powerUpId) powerUpId
    = PowerUpManager.removePowerUp powerUps powerUpId /\
  PowerUpManager.removePowerUp
    (PowerUpManager.removePowerUp powerUps powerUpId) otherId
    = PowerUpManager.removePowerUp
        (PowerUpManager.removePowerUp powerUps otherId) powerUpId /\
  (List.length (PowerUpManager.removePowerUp powerUps powerUpId)
   <= List.length powerUps)%nat /\
  PowerUpManager.removePowerUp [] powerUpId = [].
Proof.
  unfold PowerUpManager.removePowerUp.
  split; [|split; [|split; [|split; [|split; [|reflexivity]]]]].
  - intros p; rewrite filter_In, negb_true_iff, eqb_false; reflexivity.
  - induction powerUps as [|p l IH]; simpl; intros H; [reflexivity|].
    rewrite (proj2 (eqb_false (id p) powerUpId)) by (apply H; left; reflexivity).
    simpl; rewrite IH; [reflexivity|].
    intros q Hq; apply H; right; exact Hq.
  - induction powerUps as [|p l IH]; simpl; [reflexivity|].
    destruct (negb (id p =? powerUpId)) eqn:E; simpl; [rewrite E|];
      rewrite IH; reflexivity.
  - induction powerUps as [|p l IH]; simpl; [reflexivity|].
    destruct (negb (id p =? powerUpId)) eqn:E1,
             (negb (id p =? otherId)) eqn:E2; simpl;
      rewrite ?E1, ?E2, IH; reflexivity.
  - apply filter_length_le.
Qed.

(** ** useGameLogic: what a tick keeps *)

Lemma untouched_refl (s : GameState) : untouched s s.
Proof. repeat split. Qed.

Lemma untouched_trans (s1 s2 s3 : GameState) :
  untouched s1 s2 -> untouched s2 s3 -> untouched s1 s3.
Proof.
  intros (A1 & A2 & A3 & A4 & A5) (B1 & B2 & B3 & B4 & B5).
  repeat split; congruence.
Qed.

(** Decide the tests left in the goal, then compare the fields. *)
Ltac untouch :=
  unfold untouched;
  repeat match goal with
    | |- context [if ?c then _ else _] => destruct c
    end;
  repeat split; reflexivity.

Lemma bounce_rewards_untouched (currentSpeed : R) (s0 : GameState) :
  untouched s0
    (addScreenShake 8 15
       (let s := s0 in
        let a := achievements s in
        let s :=
          if (rallies (session s) =? 10) && negb (rally10 a) then
            addXP (setAchievements s
                     {| firstWin := firstWin a; rally10 := true;
                        rally25 := rally25 a; rally50 := rally50 a;
                        speedDemon := speedDemon a;
                        powerUpMaster := powerUpMaster a;
                        quickReflexes := quickReflexes a |}) 50
          else s in
        let a := achievements s in
        let s :=
          if (rallies (session s) =? 25) && negb (rally25 a) then
            addXP (setAchievements s
                     {| firstWin := firstWin a; rally10 := rally10 a;
                        rally25 := true; rally50 := rally50 a;
                        speedDemon := speedDemon a;
                        powerUpMaster := powerUpMaster a;
                        quickReflexes := quickReflexes a |}) 100
          else s in
        let a := achievements s in
        let s :=
          if (currentSpeed >? 12) && negb (speedDemon a) then
            addXP (setAchievements s
                     {| firstWin := firstWin a; rally10 := rally10 a;
                        rally25 := rally25 a; rally50 := rally50 a;
                        speedDemon := true;
                        powerUpMaster := powerUpMaster a;
                        quickReflexes := quickReflexes a |}) 75
          else s in
        s)).
Proof.
  cbv zeta.
  destruct ((rallies (session s0) =? 10) && negb (rally10 (achievements s0)));
    cbn [session achievements addXP setAchievements setProgressBar rallies rally25 speedDemon];
    destruct (_ && _); 
    cbn [session achievements addXP setAchievements setProgressBar rallies rally25 speedDemon];
    destruct (_ && _); repeat split.
Qed.

Lemma paddleBounce_untouched (paddle : Paddle) (faceX : R)
  (s s' : GameState) (e e' : Env) :
  paddleBounce paddle faceX s e = Ok s' e' -> untouched s s'.
Proof.
  unfold paddleBounce; intros H.
  mstep H. mstep H. mstep H. mstep H.
  clear Hc Hc0.
  assert (Ht1 : trail a1 = trail (ball s)).
  { destruct (_ <? _) in Hc1; repeat mstep Hc1; reflexivity. }
  assert (Ht2 : trail a2 = trail (ball s)).
  { destruct (_ <? 4) in Hc2; repeat mstep Hc2; exact Ht1. }
  clear Hc1 Hc2.
  apply ret_ok in H; destruct H as [H _]; rewrite <- H; clear H.
  eapply untouched_trans;
    [|apply (bounce_rewards_untouched (sqrt (dx a1 * dx a1 + dy a1 * dy a1)))].
  repeat split; exact Ht2.
Qed.

Lemma updateScreenShake_untouched (s s' : GameState) (e e' : Env) :
  updateScreenShake s e = Ok s' e' -> untouched s s'.
Proof. unfold updateScreenShake; intros H; mrun; repeat split. Qed.

Lemma spawnPhase_untouched (s s' : GameState) (e e' : Env) :
  spawnPhase s e = Ok s' e' -> untouched s s'.
Proof.
  unfold spawnPhase; intros H.
  destruct (_ && _).
  - unfold spawnPowerUp in H.
    mstep H.
    destruct (arrayGet _ _) as [[[ty co] sy]|]; [|discriminate H].
    repeat mstep H; repeat split.
  - mstep H; repeat split.
Qed.

Lemma animatePhase_untouched (s s' : GameState) (e e' : Env) :
  animatePhase s e = Ok s' e' -> untouched s s'.
Proof. unfold animatePhase; intros H; mstep H; mstep H; repeat split. Qed.

Lemma effectTimersPhase_untouched (s : GameState) :
  untouched s (effectTimersPhase s).
Proof. repeat split. Qed.

Lemma moveBallsPhase_untouched (s s' : GameState) (e e' : Env) :
  moveBallsPhase s e = Ok s' e' -> untouched s s'.
Proof.
  unfold moveBallsPhase; intros H.
  destruct (mb_active (multiBall (activePowerUps _))).
  - repeat mstep H; repeat split.
  - mstep H; repeat split.
Qed.

Lemma activatePowerUp_untouched (p : PowerUp) (pl : option Side)
  (s s' : GameState) (e e' : Env) :
  activatePowerUp p pl s e = Ok s' e' -> untouched s s'.
Proof.
  unfold activatePowerUp; intros H.
  mstep H. mstep H. mstep H.
  assert (U : untouched s a).
  { destruct (type p).
    - mstep Hc; repeat split.
    - mstep Hc; repeat split.
    - destruct (negb _).
      + mstep Hc. mstep Hc. repeat split.
      + mstep Hc; repeat split.
    - mstep Hc; repeat split. }
  apply (untouched_trans _ _ _ U); repeat split.
Qed.

Lemma pickupPhase_untouched (s s' : GameState) (e e' : Env) :
  pickupPhase s e = Ok s' e' -> untouched s s'.
Proof.
  unfold pickupPhase; generalize (powerUps s) as l.
  induction l as [|p l IH]; simpl; intros H.
  - mstep H; apply untouched_refl.
  - destruct (touchesPowerUp (ball s) p); [|auto].
    eapply activatePowerUp_untouched; eassumption.
Qed.

Lemma wallPhase_untouched (s : GameState) : untouched s (wallPhase s).
Proof. unfold wallPhase; destruct (_ || _); repeat split. Qed.

Lemma leftBouncePhase_untouched (s s' : GameState) (e e' : Env) :
  leftBouncePhase s e = Ok s' e' -> untouched s s'.
Proof.
  unfold leftBouncePhase; intros H.
  destruct (hitsLeftPaddle s).
  - eapply paddleBounce_untouched; eassumption.
  - mstep H; apply untouched_refl.
Qed.

Lemma rightBouncePhase_untouched (s s' : GameState) (e e' : Env) :
  rightBouncePhase s e = Ok s' e' -> untouched s s'.
Proof.
  unfold rightBouncePhase; intros H.
  destruct (hitsRightPaddle s).
  - eapply paddleBounce_untouched; eassumption.
  - mstep H; apply untouched_refl.
Qed.

Lemma extraBallsPhase_untouched (s s' : GameState) (e e' : Env) :
  extraBallsPhase s e = Ok s' e' -> untouched s s'.
Proof.
  unfold extraBallsPhase; intros H.
  destruct (mb_active (multiBall (activePowerUps s))).
  - repeat mstep H; repeat split.
  - mstep H; apply untouched_refl.
Qed.

Lemma checkLevelUp_untouched (s : GameState) : untouched s (checkLevelUp s).
Proof. unfold checkLevelUp; destruct (_ >=? _); repeat split. Qed.

Lemma moveUp_onCanvas (c : Canvas) (p : Paddle) :
  paddleOnCanvas c p ->
  paddleOnCanvas c (setY p (Rmax 0 (py p - speed p))).
Proof.
  unfold paddleOnCanvas; cbn; intros [Hs Hq].
  split; [exact Hs|]; split; [apply Rmax_l | apply Rmax_lub; lra].
Qed.

Lemma moveDown_onCanvas (c : Canvas) (p : Paddle) :
  paddleOnCanvas c p ->
  paddleOnCanvas c (setY p (Rmin (cheight c - height p) (py p + speed p))).
Proof.
  unfold paddleOnCanvas; cbn; intros [Hs Hq].
  split; [exact Hs|]; split; [apply Rmin_glb; lra | apply Rmin_l].
Qed.

Lemma moveTouch_onCanvas (c : Canvas) (p : Paddle) (newY : R) :
  paddleOnCanvas c p ->
  paddleOnCanvas c (setY p (Rmax 0 (Rmin (cheight c - height p) newY))).
Proof.
  unfold paddleOnCanvas; cbn; intros [Hs Hq].
  split; [exact Hs|]; split; [apply Rmax_l|].
  apply Rmax_lub; [lra | apply Rmin_l].
Qed.

Lemma movePaddle_step (c : Canvas) (up down : bool) (t : TouchPaddle)
  (p : Paddle) :
  let p' := fst (movePaddle c up down t p) in
  px p' = px p /\ width p' = width p /\ height p' = height p /\
  speed p' = speed p /\ prevY p' = prevY p /\
  (paddleOnCanvas c p -> paddleOnCanvas c p').
Proof.
  cbv zeta; unfold movePaddle.
  destruct up, down, (active t); cbv beta iota zeta; cbn [fst];
    repeat (split; [reflexivity|]); intros Hc;
    repeat first [ exact Hc
                 | apply moveTouch_onCanvas
                 | apply moveDown_onCanvas
                 | apply moveUp_onCanvas ].
Qed.

Lemma leftPaddlePhase_effect (s : GameState) :
  let s' := leftPaddlePhase s in
  canvas s' = canvas s /\ score s' = score s /\
  gameWinner s' = gameWinner s /\ trail (ball s') = trail (ball s) /\
  pright (paddles s') = pright (paddles s) /\
  paddleStep (canvas s) (pleft (paddles s)) (pleft (paddles s')).
Proof.
  cbv zeta; unfold leftPaddlePhase.
  set (left := setPrevY (pleft (paddles s)) (py (pleft (paddles s)))).
  destruct (movePaddle_step (canvas s) (key_w (keys s) || key_W (keys s))
              (key_s (keys s) || key_S (keys s)) (leftPaddle (touch s)) left)
    as (H1 & H2 & H3 & H4 & H5 & H6).
  cbv zeta; cbn.
  repeat (split; [reflexivity|]).
  unfold paddleStep; cbn.
  rewrite H1, H2, H3, H4, H5.
  repeat (split; [reflexivity|]).
  intros Hc.
  assert (Hc' : paddleOnCanvas (canvas s) left) by exact Hc.
  apply H6 in Hc'; exact Hc'.
Qed.

Lemma updateAI_frame (fuel : nat) (s s' : GameState) (e e' : Env) :
  updateAI fuel s e = Ok s' e' ->
  score s' = score s /\ gameWinner s' = gameWinner s /\ ball s' = ball s /\
  pleft (paddles s') = pleft (paddles s).
Proof.
  unfold updateAI; intros H.
  destruct (negb (enabled (ai s))); [mstep H; repeat split|].
  destruct (dx (ball s) >? 0); [|mstep H; repeat split].
  mstep H. mstep H.
  assert (Ka : score a0 = score s /\ gameWinner a0 = gameWinner s /\
               ball a0 = ball s /\ paddles a0 = paddles s).
  { destruct (_ >? _) in Hc0.
    - repeat mstep Hc0; repeat split.
    - mstep Hc0; repeat split. }
  destruct Ka as (K1 & K2 & K3 & K4).
  destruct (Rabs _ >? 5); mstep H; cbn; rewrite ?K1, ?K2, ?K3, ?K4;
    repeat split.
Qed.

Lemma rightPaddlePhase_effect (fuel : nat) (s s' : GameState) (e e' : Env) :
  rightPaddlePhase fuel s e = Ok s' e' ->
  canvas s' = canvas s /\ score s' = score s /\
  gameWinner s' = gameWinner s /\ trail (ball s') = trail (ball s) /\
  pleft (paddles s') = pleft (paddles s) /\
  paddleStep (canvas s) (pright (paddles s)) (pright (paddles s')).
Proof.
  unfold rightPaddlePhase; intros H.
  mstep H. mstep H.
  set (right := setPrevY (pright (paddles s)) (py (pright (paddles s)))) in *.
  set (s1 := setRight s right) in *.
  assert (Hmid : canvas a = canvas s /\ score a = score s /\
                 gameWinner a = gameWinner s /\
                 trail (ball a) = trail (ball s) /\
                 pleft (paddles a) = pleft (paddles s) /\
                 px (pright (paddles a)) = px right /\
                 width (pright (paddles a)) = width right /\
                 height (pright (paddles a)) = height right /\
                 speed (pright (paddles a)) = speed right /\
                 prevY (pright (paddles a)) = prevY right /\
                 (paddleOnCanvas (canvas s) right ->
                  paddleOnCanvas (canvas s) (pright (paddles a)))).
  { destruct (negb (enabled (ai s1))).
    - mstep Hc.
      destruct (movePaddle_step (canvas s1) (key_ArrowUp (keys s1))
                  (key_ArrowDown (keys s1)) (rightPaddle (touch s1))
                  (pright (paddles s1)))
        as (H1 & H2 & H3 & H4 & H5 & H6).
      cbn; repeat (split; [reflexivity|]).
      split; [exact H1|]; split; [exact H2|]; split; [exact H3|].
      split; [exact H4|]; split; [exact H5 | exact H6].
    - pose proof (updateAI_frame _ _ _ _ _ Hc) as (F1 & F2 & F3 & F4).
      apply updateAI_step in Hc; destruct Hc as (Hcv & Hmove & _).
      split; [exact Hcv|]; split; [exact F1|]; split; [exact F2|].
      split; [rewrite F3; reflexivity|]; split; [exact F4|].
      destruct Hmove as [Hsame|(newY & _ & Hn & Hr)].
      + rewrite Hsame; cbn; repeat (split; [reflexivity|]); auto.
      + rewrite Hr; cbn; repeat (split; [reflexivity|]).
        pose proof (getAISettings_speed (difficulty (ai s))) as Hsp.
        unfold paddleOnCanvas; cbn; intros [Hs Hq].
        split; [exact Hs|].
        rewrite Hn; cbn.
        destruct (_ <? 0).
        * split; [apply Rmax_l | apply Rmax_lub; lra].
        * split; [apply Rmin_glb; lra | apply Rmin_l]. }
  destruct Hmid as (M1 & M2 & M3 & M4 & M5 & M6 & M7 & M8 & M9 & M10 & M11).
  cbn; rewrite ?M1, ?M2, ?M3, ?M4, ?M5.
  repeat (split; [reflexivity|]).
  unfold paddleStep; cbn.
  rewrite M6, M7, M8, M9, M10.
  repeat (split; [reflexivity|]).
  intros Hc0.
  assert (Hc' : paddleOnCanvas (canvas s) right) by exact Hc0.
  apply M11 in Hc'; exact Hc'.
Qed.

Lemma trailPhase_effect (s s' : GameState) (e e' : Env) :
  trailPhase s e = Ok s' e' ->
  canvas s' = canvas s /\ paddles s' = paddles s /\ score s' = score s /\
  gameWinner s' = gameWinner s /\
  exists particle,
    life particle = 20 /\
    trail (ball s') = ageTrail (trail (ball s) ++ [particle]).
Proof.
  unfold trailPhase; intros H; mstep H; mstep H.
  repeat (split; [reflexivity|]).
  eexists; split; [|reflexivity]; reflexivity.
Qed.

Lemma resetBall_frame (s s' : GameState) (e e' : Env) :
  GameLogic.resetBall s e = Ok s' e' ->
  canvas s' = canvas s /\ paddles s' = paddles s /\ score s' = score s /\
  gameWinner s' = gameWinner s /\ trail (ball s') = trail (ball s).
Proof. unfold GameLogic.resetBall; intros H; repeat mstep H; repeat split. Qed.

Lemma scorePhase_effect (s s' : GameState) (e e' : Env) :
  scorePhase s e = Ok s' e' ->
  canvas s' = canvas s /\ paddles s' = paddles s /\
  gameWinner s' = gameWinner s /\ trail (ball s') = trail (ball s) /\
  (score s' = score s \/
   score s' = {| sleft := sleft (score s); sright := sright (score s) + 1 |} \/
   score s' = {| sleft := sleft (score s) + 1; sright := sright (score s) |}).
Proof.
  unfold scorePhase, endRally; intros H.
  destruct (x (ball s) <? 0).
  - apply resetBall_frame in H; destruct H as (H1 & H2 & H3 & H4 & H5).
    rewrite H1, H2, H3, H4, H5.
    destruct (_ >=? 5); cbn; repeat (split; [reflexivity|]);
      right; left; reflexivity.
  - destruct (x (ball s) >? cwidth (canvas s)).
    + apply resetBall_frame in H; destruct H as (H1 & H2 & H3 & H4 & H5).
      rewrite H1, H2, H3, H4, H5.
      destruct (_ >=? 5); cbn; repeat (split; [reflexivity|]);
        right; right; reflexivity.
    + mstep H; repeat (split; [reflexivity|]); left; reflexivity.
Qed.

Lemma winnerPhase_effect (s s' : GameState) (e e' : Env) :
  winnerPhase s e = Ok s' e' ->
  canvas s' = canvas s /\ paddles s' = paddles s /\ score s' = score s /\
  trail (ball s') = trail (ball s) /\
  gameWinner s' =
    (if sleft (score s) >=? 11 then Some Left
     else if sright (score s) >=? 11 then Some Right
     else gameWinner s).
Proof.
  unfold winnerPhase; intros H.
  destruct (sleft (score s) >=? 11).
  - repeat mstep H.
    unfold Date_now in Hc; inversion Hc; subst; clear Hc.
    destruct (negb (firstWin _)); destruct (_ && _); repeat split.
  - destruct (sright (score s) >=? 11); mstep H; repeat split.
Qed.

Lemma handleResetKey_frame (s s' : GameState) (e e' : Env) :
  handleResetKey s e = Ok s' e' ->
  canvas s' = canvas s /\ paddles s' = paddles s /\
  trail (ball s') = trail (ball s).
Proof.
  unfold handleResetKey; intros H.
  destruct (key_r (keys s) || key_R (keys s)); [|mstep H; repeat split].
  mstep H. mstep H.
  unfold resetGame in Hc.
  mstep Hc. mstep Hc.
  apply resetBall_frame in Hc; destruct Hc as (H1 & H2 & _ & _ & H5).
  cbn; rewrite H1, H2, H5.
  destruct (_ && _); [destruct (_ >? 1200000)|]; repeat split.
Qed.

Lemma beforePaddles_effect (fuel : nat) (s s' : GameState) (e e' : Env) :
  beforePaddles fuel s e = Ok s' e' ->
  canvas s' = canvas s /\ score s' = score s /\
  gameWinner s' = gameWinner s /\
  paddleStep (canvas s) (pleft (paddles s)) (pleft (paddles s')) /\
  paddleStep (canvas s) (pright (paddles s)) (pright (paddles s')) /\
  exists particle,
    life particle = 20 /\
    trail (ball s') = ageTrail (trail (ball s) ++ [particle]).
Proof.
  unfold beforePaddles; intros H.
  repeat mstep H.
  apply updateScreenShake_untouched in Hc.
  apply spawnPhase_untouched in Hc0.
  apply animatePhase_untouched in Hc1.
  pose proof (untouched_trans _ _ _
                (untouched_trans _ _ _ (untouched_trans _ _ _ Hc Hc0) Hc1)
                (effectTimersPhase_untouched a1)) as U1.
  destruct U1 as (A1 & A2 & A3 & A4 & A5).
  set (s4 := effectTimersPhase a1) in *.
  destruct (leftPaddlePhase_effect s4) as (L1 & L2 & L3 & L4 & L5 & L6).
  set (s5 := leftPaddlePhase s4) in *.
  apply rightPaddlePhase_effect in Hc2.
  destruct Hc2 as (R1 & R2 & R3 & R4 & R5 & R6).
  apply moveBallsPhase_untouched in Hc3.
  apply pickupPhase_untouched in Hc4.
  destruct (untouched_trans _ _ _ Hc3 Hc4) as (B1 & B2 & B3 & B4 & B5).
  apply trailPhase_effect in Hc5.
  destruct Hc5 as (T1 & T2 & T3 & T4 & particle & Tl & Tt).
  destruct (wallPhase_untouched a5) as (W1 & W2 & W3 & W4 & W5).
  split; [congruence|]; split; [congruence|]; split; [congruence|].
  rewrite W2, T2, B2.
  split; [rewrite R5; rewrite A1, A2 in L6; exact L6|].
  split.
  - rewrite L1, A1, L5, A2 in R6; exact R6.
  - exists particle; split; [exact Tl|].
    rewrite W5, Tt, B5, R4, L4, A5; reflexivity.
Qed.

Lemma resetGame_clears (s s' : GameState) (e e' : Env) :
  resetGame s e = Ok s' e' ->
  score s' = {| sleft := 0; sright := 0 |} /\ gameWinner s' = None.
Proof.
  unfold resetGame; intros H.
  mstep H. mstep H.
  apply resetBall_frame in H; destruct H as (_ & _ & H3 & H4 & _).
  rewrite H3, H4.
  destruct (_ && _); [destruct (_ >? 1200000)|]; split; reflexivity.
Qed.

Lemma handleResetKey_cases (s s' : GameState) (e e' : Env) :
  handleResetKey s e = Ok s' e' ->
  (key_r (keys s) || key_R (keys s) = true /\
   score s' = {| sleft := 0; sright := 0 |} /\ gameWinner s' = None) \/
  (key_r (keys s) || key_R (keys s) = false /\ s' = s /\ e' = e).
Proof.
  unfold handleResetKey; intros H.
  destruct (key_r (keys s) || key_R (keys s)).
  - left; mstep H. mstep H.
    apply resetGame_clears in Hc; destruct Hc as [H1 H2].
    split; [reflexivity|]; split; [exact H1 | exact H2].
  - right; mstep H; repeat split.
Qed.

(** What a tick does to the court: after the reset key has been handled,
    a game with a winner is left as it is; otherwise each paddle takes
    one step, one particle joins the trail and the trail ages, at most one
    point is scored, and the winner is read off the new score. *)
Lemma updateGame_effect (fuel : nat) (s s' : GameState) (e e' : Env) :
  updateGame fuel s e = Ok s' e' ->
  exists s0 e0,
    handleResetKey s e = Ok s0 e0 /\
    (((exists w, gameWinner s0 = Some w) /\ s' = s0 /\ e' = e0) \/
     (gameWinner s0 = None /\
      canvas s' = canvas s0 /\
      paddleStep (canvas s0) (pleft (paddles s0)) (pleft (paddles s')) /\
      paddleStep (canvas s0) (pright (paddles s0)) (pright (paddles s')) /\
      (exists particle,
         life particle = 20 /\
         trail (ball s') = ageTrail (trail (ball s0) ++ [particle])) /\
      (score s' = score s0 \/
       score s' = {| sleft := sleft (score s0);
                     sright := sright (score s0) + 1 |} \/
       score s' = {| sleft := sleft (score s0) + 1;
                     sright := sright (score s0) |}) /\
      gameWinner s' =
        (if sleft (score s') >=? 11 then Some Left
         else if sright (score s') >=? 11 then Some Right
         else None))).
Proof.
  unfold updateGame; intros H.
  mstep H.
  exists a, e0; split; [exact Hc|].
  destruct (gameWinner a) as [w|] eqn:Ew; simpl in H.
  - left; mstep H; split; [exists w; reflexivity | split; reflexivity].
  - right; split; [reflexivity|].
    repeat mstep H.
    apply beforePaddles_effect in Hc0.
    destruct Hc0 as (B1 & B2 & B3 & B4 & B5 & particle & B6 & B7).
    apply leftBouncePhase_untouched in Hc1.
    apply rightBouncePhase_untouched in Hc2.
    destruct (untouched_trans _ _ _ Hc1 Hc2) as (U1 & U2 & U3 & U4 & U5).
    unfold afterPaddles in H.
    repeat mstep H.
    apply extraBallsPhase_untouched in Hc0.
    destruct Hc0 as (X1 & X2 & X3 & X4 & X5).
    apply scorePhase_effect in Hc3.
    destruct Hc3 as (S1 & S2 & S3 & S4 & S5).
    apply winnerPhase_effect in Hc4.
    destruct Hc4 as (W1 & W2 & W3 & W4 & W5).
    destruct (checkLevelUp_untouched a5) as (L1 & L2 & L3 & L4 & L5).
    rewrite L1, L2, L3, L4, L5, W1, W2, W3, W4, S1, S2, S4, X1, X2, X5,
      U1, U2, U5.
    split; [exact B1|]; split; [exact B4|]; split; [exact B5|].
    split; [exists particle; split; [exact B6 | exact B7]|].
    split.
    + rewrite X3, U3, B2 in S5; exact S5.
    + rewrite W5, S3, X4, U4, B3, Ew.
      destruct (sleft (score a4) >=? 11); [reflexivity|].
      destruct (sright (score a4) >=? 11); reflexivity.
Qed.


Lemma initialGameState_wellFormed : wellFormed initialGameState.
Proof. unfold wellFormed; simpl; lra. Qed.




(** ** useGameLogic: the trail and the timers *)

Lemma ageTrail_length (l : list Particle) :
  (List.length (ageTrail l) <= List.length l)%nat.
Proof.
  induction l as [|p l IH]; simpl; [lia|].
  destruct (_ >? 0); simpl; lia.
Qed.

Lemma ageTrail_fading (lifetime : R) (l : list Particle) (particle : Particle) :
  fadingTrail lifetime l -> life particle = lifetime ->
  fadingTrail lifetime (ageTrail (l ++ [particle])).
Proof.
  intros Hl Hp; induction l as [|p l IH]; simpl.
  - destruct (life particle - 1 >? 0) eqn:E; simpl; [|exact I].
    apply ltb_true in E; split; [|exact I]; lra.
  - destruct Hl as [Hlife Hl].
    specialize (IH Hl).
    destruct (life p - 1 >? 0) eqn:E; [|exact IH].
    apply ltb_true in E.
    split; [|exact IH]; cbn [life].
    pose proof (ageTrail_length (l ++ [particle])) as Hlen.
    rewrite length_app in Hlen; simpl in Hlen.
    apply le_INR in Hlen; rewrite plus_INR in Hlen; simpl in Hlen.
    lra.
Qed.

Lemma fadingTrail_length (lifetime : nat) (l : list Particle) :
  (1 <= lifetime)%nat ->
  fadingTrail (INR lifetime) l -> (List.length l <= lifetime - 1)%nat.
Proof.
  intros Hpos Hl; destruct l as [|p l]; simpl; [lia|].
  destruct Hl as [[H0 H1] _].
  assert (H : INR (List.length l) < INR (lifetime - 1)).
  { rewrite minus_INR by lia; simpl; lra. }
  apply INR_lt in H; lia.
Qed.



Lemma countdown_iter (active : bool) (timeLeft : R) (n : nat) :
  active = true ->
  let after := Nat.iter n (fun p => countdown (fst p) (snd p))
                 (active, timeLeft) in
  (fst after = true -> snd after = timeLeft - INR n) /\
  ((1 <= n)%nat -> (fst after = true <-> INR n < timeLeft)).
Proof.
  intros Ha; cbv zeta; induction n as [|n [IH1 IH2]].
  - simpl; split; [intros _; lra | lia].
  - rewrite S_INR, Nat.iter_succ.
    set (before := Nat.iter n (fun p => countdown (fst p) (snd p))
                     (active, timeLeft)) in *.
    cbv beta; unfold countdown.
    destruct (fst before) eqn:Eb; cbn [fst snd].
    + specialize (IH1 eq_refl).
      destruct (snd before - 1 <=? 0) eqn:E.
      * apply leb_true in E.
        split; [discriminate|]; intros _; split; [discriminate|].
        intros Hlt; lra.
      * apply leb_false in E.
        split; [intros _; lra|]; intros _; split; [intros _; lra|].
        reflexivity.
    + split; [discriminate|].
      intros _; split; [discriminate|].
      intros Hlt; exfalso.
      destruct n as [|n].
      * simpl in Eb; congruence.
      * assert (Hn : (1 <= S n)%nat) by lia.
        apply IH2 in Hn.
        assert (Hlt' : INR (S n) < timeLeft) by lra.
        apply Hn in Hlt'; discriminate.
Qed.

Lemma effectTimersPhase_countdown (s : GameState) :
  let a := activePowerUps s in
  let a' := activePowerUps (effectTimersPhase s) in
  (bp_active (bigPaddle a'), bp_timeLeft (bigPaddle a'))
    = countdown (bp_active (bigPaddle a)) (bp_timeLeft (bigPaddle a)) /\
  bp_player (bigPaddle a') = bp_player (bigPaddle a) /\
  (fb_active (fastBall a'), fb_timeLeft (fastBall a'))
    = countdown (fb_active (fastBall a)) (fb_timeLeft (fastBall a)) /\
  (mb_active (multiBall a'), mb_timeLeft (multiBall a'))
    = countdown (mb_active (multiBall a)) (mb_timeLeft (multiBall a)) /\
  extraBalls (multiBall a')
    = (if mb_active (multiBall a) && negb (mb_active (multiBall a'))
       then [] else extraBalls (multiBall a)) /\
  shield a' = shield a.
Proof.
  cbv zeta; unfold effectTimersPhase, countdown; cbn.
  destruct (bp_active (bigPaddle (activePowerUps s))) eqn:E1;
    destruct (fb_active (fastBall (activePowerUps s))) eqn:E2;
    destruct (mb_active (multiBall (activePowerUps s))) eqn:E3; cbn;
    rewrite ?E1, ?E2, ?E3;
    repeat split;
    try (destruct (_ <=? 0); reflexivity).
Qed.

Lemma effectTimersPhase_iter (n : nat) (s : GameState) :
  let a := activePowerUps s in
  let a' := activePowerUps (Nat.iter n effectTimersPhase s) in
  (bp_active (bigPaddle a'), bp_timeLeft (bigPaddle a'))
    = Nat.iter n (fun p => countdown (fst p) (snd p))
        (bp_active (bigPaddle a), bp_timeLeft (bigPaddle a)) /\
  bp_player (bigPaddle a') = bp_player (bigPaddle a) /\
  (fb_active (fastBall a'), fb_timeLeft (fastBall a'))
    = Nat.iter n (fun p => countdown (fst p) (snd p))
        (fb_active (fastBall a), fb_timeLeft (fastBall a)) /\
  (mb_active (multiBall a'), mb_timeLeft (multiBall a'))
    = Nat.iter n (fun p => countdown (fst p) (snd p))
        (mb_active (multiBall a), mb_timeLeft (multiBall a)) /\
  (mb_active (multiBall a) = true ->
   extraBalls (multiBall a')
     = (if mb_active (multiBall a') then extraBalls (multiBall a) else [])
     \/ (n = 0)%nat /\ extraBalls (multiBall a') = extraBalls (multiBall a)) /\
  shield a' = shield a.
Proof.
  cbv zeta; induction n as [|n IH].
  - simpl; repeat split; intros _; right; split; reflexivity.
  - rewrite !Nat.iter_succ.
    destruct IH as (B & Bp & F & Mb & X & Sh).
    destruct (effectTimersPhase_countdown (Nat.iter n effectTimersPhase s))
      as (B' & Bp' & F' & Mb' & X' & Sh').
    cbv zeta in *.
    rewrite B', F', Mb', Bp', Sh', <- B, <- F, <- Mb.
    repeat (split; [reflexivity || assumption|]).
    split; [|exact Sh].
    intros Ha; left; rewrite X'.
    set (before := Nat.iter n effectTimersPhase s) in *.
    assert (Hafter : mb_active (multiBall (activePowerUps (effectTimersPhase before)))
                     = fst (countdown (mb_active (multiBall (activePowerUps before)))
                              (mb_timeLeft (multiBall (activePowerUps before)))))
      by (rewrite <- Mb'; reflexivity).
    rewrite Hafter; unfold countdown.
    destruct (mb_active (multiBall (activePowerUps before))) eqn:Eb;
      cbn [fst andb negb].
    + destruct (_ <=? 0); cbn [negb].
      * reflexivity.
      * destruct (X Ha) as [X0|[_ X0]]; exact X0.
    + destruct (X Ha) as [X0|[Hz X0]].
      * exact X0.
      * subst n; simpl in before; subst before; congruence.
Qed.

(** A timed effect ends on time.  After [n] ticks of the countdown, one
    at least, an effect that was active is still active exactly when [n]
    is below the time it had left: the 480 frames of the big paddle keep
    it active through 479 countdowns and the 480th ends it.  The extra
    balls of multi-ball are kept while it is active and dropped when it
    ends; the player of the big paddle and the shield, which has no
    timer, are not touched. *)
Theorem effectTimersPhase_ends_on_time (s : GameState) (n : nat) :
  (1 <= n)%nat ->
  let a := activePowerUps s in
  let a' := activePowerUps (Nat.iter n effectTimersPhase s) in
  (bp_active (bigPaddle a) = true ->
   (bp_active (bigPaddle a') = true <-> INR n < bp_timeLeft (bigPaddle a))) /\
  bp_player (bigPaddle a') = bp_player (bigPaddle a) /\
  (fb_active (fastBall a) = true ->
   (fb_active (fastBall a') = true <-> INR n < fb_timeLeft (fastBall a))) /\
  (mb_active (multiBall a) = true ->
   (mb_active (multiBall a') = true <-> INR n < mb_timeLeft (multiBall a)) /\
   extraBalls (multiBall a')
     = (if mb_active (multiBall a') then extraBalls (multiBall a) else [])) /\
  shield a' = shield a.
Proof.
  intros Hn; cbv zeta.
  destruct (effectTimersPhase_iter n s) as (B & Bp & F & Mb & X & Sh).
  cbv zeta in *.
  assert (Hgen : forall (active active' : bool) (t t' : R),
             (active', t') = Nat.iter n (fun p => countdown (fst p) (snd p))
                               (active, t) ->
             active = true -> (active' = true <-> INR n < t)).
  { intros active active' t t' Heq Ha.
    destruct (countdown_iter active t n Ha) as [_ H2].
    cbv zeta in H2; rewrite <- Heq in H2; apply H2; exact Hn. }
  split; [apply (Hgen _ _ _ _ B)|].
  split; [exact Bp|].
  split; [apply (Hgen _ _ _ _ F)|].
  split; [|exact Sh].
  intros Ha; split; [apply (Hgen _ _ _ _ Mb); exact Ha|].
  destruct (X Ha) as [X0|[Hz _]]; [exact X0 | lia].
Qed.

Lemma effectTimersPhase_ends_on_time_witness :
  mb_active
    (multiBall (activePowerUps (Nat.iter 299 effectTimersPhase multiBallGame)))
    = true <-> INR 299 < 300.
Proof.
  destruct (effectTimersPhase_ends_on_time multiBallGame 299) as (_ & _ & _ & H & _).
  - lia.
  - destruct (H eq_refl) as [H1 _]; exact H1.
Defined.

(** ** useGameLogic: a paddle hit, a new game *)

Lemma bounce_rewards_effect (currentSpeed : R) (s0 s' : GameState) :
  s' =
    addScreenShake 8 15
      (let s := s0 in
       let a := achievements s in
       let s :=
         if (rallies (session s) =? 10) && negb (rally10 a) then
           addXP (setAchievements s
                    {| firstWin := firstWin a; rally10 := true;
                       rally25 := rally25 a; rally50 := rally50 a;
                       speedDemon := speedDemon a;
                       powerUpMaster := powerUpMaster a;
                       quickReflexes := quickReflexes a |}) 50
         else s in
       let a := achievements s in
       let s :=
         if (rallies (session s) =? 25) && negb (rally25 a) then
           addXP (setAchievements s
                    {| firstWin := firstWin a; rally10 := rally10 a;
                       rally25 := true; rally50 := rally50 a;
                       speedDemon := speedDemon a;
                       powerUpMaster := powerUpMaster a;
                       quickReflexes := quickReflexes a |}) 100
         else s in
       let a := achievements s in
       let s :=
         if (currentSpeed >? 12) && negb (speedDemon a) then
           addXP (setAchievements s
                    {| firstWin := firstWin a; rally10 := rally10 a;
                       rally25 := rally25 a; rally50 := rally50 a;
                       speedDemon := true;
                       powerUpMaster := powerUpMaster a;
                       quickReflexes := quickReflexes a |}) 75
         else s in
       s) ->
  ball s' = ball s0 /\ session s' = session s0 /\
  currentXP (progressBar s0) <= currentXP (progressBar s') /\
  (12 < currentSpeed -> speedDemon (achievements s') = true).
Proof.
  intros Hs'; subst s'; cbv zeta.
  destruct ((rallies (session s0) =? 10) && negb (rally10 (achievements s0)));
    cbn [session achievements addXP setAchievements setProgressBar rallies
         rally25 speedDemon];
    destruct ((rallies (session s0) =? 25)
              && negb (rally25 (achievements s0)));
    cbn [session achievements addXP setAchievements setProgressBar rallies
         rally25 speedDemon];
    destruct (currentSpeed >? 12) eqn:E;
    destruct (speedDemon (achievements s0)) eqn:Es; cbn;
    repeat split; intros; try reflexivity; try lra; try assumption;
    try (apply ltb_false in E; lra).
Qed.

(** A paddle hit in useGameLogic speeds the ball up.  For a paddle with a
    height and a ball that moves horizontally, the response returns: the
    ball is put at the face of the paddle at the same height; it leaves
    the other way, with a horizontal speed at least 10% above the one it
    came with, so that the horizontal speed alone passes any limit after
    enough hits; its vertical speed is at most 18, the clamp to 15 coming
    before the random nudge of up to 3.  The rally and the total of hits
    grow by one, and the experience by 5 at least. *)
Theorem paddleBounce_speeds_the_ball_up
  (paddle : Paddle) (faceX : R) (s : GameState) (e : Env) :
  0 < height paddle -> dx (ball s) <> 0 -> validRandoms e ->
  exists s' e',
    paddleBounce paddle faceX s e = Ok s' e' /\
    x (ball s') = faceX /\ y (ball s') = y (ball s) /\
    dx (ball s) * dx (ball s') < 0 /\
    11 / 10 * Rabs (dx (ball s)) <= Rabs (dx (ball s')) /\
    Rabs (dy (ball s')) <= 18 /\
    rallies (session s') = rallies (session s) + 1 /\
    totalHits (session s') = totalHits (session s) + 1 /\
    currentXP (progressBar s) + 5 <= currentXP (progressBar s').
Proof.
  intros Hh Hdx Hv.
  destruct (paddleBounce_speed paddle faceX s e Hh Hdx) as (s' & e' & H & _).
  exists s', e'; split; [exact H|].
  unfold paddleBounce in H.
  mstep H. mstep H. mstep H. mstep H.
  unfold divide in Hc; rewrite jsdiv_some in Hc by lra.
  apply ret_ok in Hc; destruct Hc as [Hhit He0]; subst e0.
  unfold Math_random in Hc0; inversion Hc0; subst a0 e1; clear Hc0.
  cbn [setVelocity setPosition x y dx dy radius trail] in *.
  set (dx1 := - dx (ball s) * (11 / 10)) in *.
  set (dy1 := Rmax (-15) (Rmin 15 _)) in *.
  assert (Hdy1 : -15 <= dy1 <= 15).
  { unfold dy1; split; [apply Rmax_l|].
    apply Rmax_lub; [lra | apply Rmin_l]. }
  clearbody dy1.
  assert (H1 : x a1 = faceX /\ y a1 = y (ball s) /\ dx a1 = dx1 /\
               -18 <= dy a1 <= 18).
  { destruct (_ <? _) in Hc1.
    - apply bind_ok in Hc1; destruct Hc1 as (r' & e4 & Hr' & Hc1).
      unfold Math_random in Hr'; cbn in Hr'.
      apply ret_ok in Hc1; destruct Hc1 as [Hb _]; rewrite <- Hb.
      assert (Hr : r' = randoms e (S (nextRandom e))) by congruence.
      pose proof (Hv (S (nextRandom e))) as Hrange.
      cbn; repeat split; try reflexivity; lra.
    - apply ret_ok in Hc1; destruct Hc1 as [Hb _]; rewrite <- Hb.
      cbn; repeat split; try reflexivity; lra. }
  destruct H1 as (X1 & Y1 & D1 & V1).
  assert (H2 : x a2 = faceX /\ y a2 = y (ball s) /\
               (exists k, 1 <= k /\ dx a2 = dx1 * k) /\
               -18 <= dy a2 <= 18).
  { destruct (sqrt (dx a1 * dx a1 + dy a1 * dy a1) <? 4) eqn:E.
    - apply ltb_true in E.
      assert (Hpos : 0 < sqrt (dx a1 * dx a1 + dy a1 * dy a1)).
      { apply sqrt_lt_R0.
        assert (0 < dx a1 * dx a1) by (rewrite D1; unfold dx1; nra).
        nra. }
      set (sp := sqrt (dx a1 * dx a1 + dy a1 * dy a1)) in *.
      apply bind_ok in Hc2; destruct Hc2 as (m & e4 & Hm & Hc2).
      unfold divide in Hm; rewrite jsdiv_some in Hm by lra.
      apply ret_ok in Hm; destruct Hm as [Hm _].
      apply ret_ok in Hc2; destruct Hc2 as [Hb _].
      rewrite <- Hb, <- Hm; clear Hb Hm.
      assert (Hk : 1 <= 4 / sp).
      { apply Rmult_le_reg_r with (r := sp); [exact Hpos|].
        replace (4 / sp * sp) with 4 by (field; lra); lra. }
      cbn; split; [exact X1|]; split; [exact Y1|].
      split; [exists (4 / sp); split; [exact Hk | rewrite D1; reflexivity]|].
      assert (Hs : Rabs (dy a1) <= sp) by apply (abs_le_sqrt_sum_r (dx a1)).
      assert (Habs : Rabs (dy a1 * (4 / sp)) <= 4).
      { rewrite Rabs_mult, (Rabs_right (4 / sp)) by lra.
        apply Rmult_le_reg_r with (r := sp); [exact Hpos|].
        replace (Rabs (dy a1) * (4 / sp) * sp) with (4 * Rabs (dy a1))
          by (field; lra).
        lra. }
      apply Rabs_bounds in Habs; lra.
    - apply ret_ok in Hc2; destruct Hc2 as [Hb _]; rewrite <- Hb.
      split; [exact X1|]; split; [exact Y1|].
      split; [exists 1; split; [lra | rewrite D1; ring] | exact V1]. }
  destruct H2 as (X2 & Y2 & (k & Hk & D2) & V2).
  clear Hc1 Hc2.
  apply ret_ok in H; destruct H as [H _]; rewrite <- H; clear H.
  set (t := addScreenShake 8 15 _).
  destruct (bounce_rewards_effect (sqrt (dx a1 * dx a1 + dy a1 * dy a1))
              (setBall
                 (addXP
                    (setSession s
                       {| rallies := rallies (session s) + 1;
                          longestRally :=
                            Rmax (longestRally (session s))
                                 (rallies (session s) + 1);
                          totalHits := totalHits (session s) + 1;
                          sessionsPlayed := sessionsPlayed (session s);
                          playTime := playTime (session s);
                          lastBreakSuggestion :=
                            lastBreakSuggestion (session s) |}) 5) a2) t)
    as (Rb & Rs & Rx & _); [reflexivity|].
  clearbody t.
  rewrite Rb, Rs; cbn [ball session progressBar setBall addXP setSession
                         setProgressBar currentXP rallies totalHits] in *.
  split; [exact X2|]; split; [exact Y2|].
  split; [rewrite D2; unfold dx1; nra|].
  split.
  - rewrite D2; unfold dx1.
    rewrite Rabs_mult, Rabs_mult, Rabs_Ropp.
    rewrite (Rabs_right (11 / 10)) by lra.
    rewrite (Rabs_right k) by lra.
    pose proof (Rabs_pos (dx (ball s))); nra.
  - split; [apply Rabs_bounds; exact V2|].
    split; [reflexivity|]; split; [reflexivity | exact Rx].
Qed.

Lemma paddleBounce_speeds_the_ball_up_witness :
  exists s' e',
    paddleBounce (pleft (paddles initialGameState)) 40 initialGameState
      steadyEnv = Ok s' e' /\
    x (ball s') = 40 /\
    11 / 10 * Rabs 4 <= Rabs (dx (ball s')).
Proof.
  destruct (paddleBounce_speeds_the_ball_up (pleft (paddles initialGameState))
              40 initialGameState steadyEnv)
    as (s' & e' & H & Hx & _ & _ & Hd & _).
  - simpl; lra.
  - simpl; lra.
  - intros k; simpl; lra.
  - exists s', e'; split; [exact H|]; split; [exact Hx | exact Hd].
Defined.

(** [resetGame] of useGameLogic starts a new match and keeps the rest.  It
    returns a state with the score 0 to 0, no winner, no floating
    power-up, no active effect, the spawn timer at 180, the rally at 0,
    one more session played, the start time read from the clock, and the
    ball served from the centre at the horizontal speed 6 and a vertical
    speed of at most 2.4.  It leaves the paddles where they are, and the
    canvas, the keys, the touches, the opponent, the achievements, the
    experience, the longest rally, the total of hits, the screen shake and
    the trail of the ball as they were. *)
Theorem resetGame_restarts_the_match (s : GameState) (e : Env) :
  validRandoms e ->
  exists s' e',
    resetGame s e = Ok s' e' /\
    score s' = {| sleft := 0; sright := 0 |} /\
    gameWinner s' = None /\ powerUps s' = [] /\
    powerUpSpawnTimer s' = 180 /\ activePowerUps s' = noActivePowerUps /\
    rallies (session s') = 0 /\
    sessionsPlayed (session s') = sessionsPlayed (session s) + 1 /\
    gameStartTime s' = clock e (nextClock e) /\
    x (ball s') = cwidth (canvas s) / 2 /\
    y (ball s') = cheight (canvas s) / 2 /\
    (dx (ball s') = 6 \/ dx (ball s') = - 6) /\
    Rabs (dy (ball s')) <= 24 / 10 /\
    paddles s' = paddles s /\ canvas s' = canvas s /\ keys s' = keys s /\
    touch s' = touch s /\ ai s' = ai s /\
    achievements s' = achievements s /\ progressBar s' = progressBar s /\
    longestRally (session s') = longestRally (session s) /\
    totalHits (session s') = totalHits (session s) /\
    screenShake s' = screenShake s /\
    trail (ball s') = trail (ball s) /\ radius (ball s') = radius (ball s) /\
    nextRandom e' = S (S (nextRandom e)) /\
    nextClock e' = S (S (nextClock e)).
Proof.
  intros Hv.
  unfold resetGame, GameLogic.resetBall, bind, Date_now, Math_random, ret.
  eexists; eexists; split; [reflexivity|].
  cbn [randoms nextRandom clock nextClock].
  pose proof (Hv (S (nextRandom e))) as Hr.
  destruct (_ && _); [destruct (_ >? 1200000)|]; cbn;
    repeat (split; [reflexivity|]);
    (split; [rdec; auto|]);
    (split; [apply Rabs_bounds; lra|]);
    repeat split.
Qed.

Lemma resetGame_restarts_the_match_witness :
  exists s' e',
    resetGame multiBallGame steadyEnv = Ok s' e' /\
    score s' = {| sleft := 0; sright := 0 |} /\
    activePowerUps s' = noActivePowerUps /\
    paddles s' = paddles multiBallGame.
Proof.
  destruct (resetGame_restarts_the_match multiBallGame steadyEnv)
    as (s' & e' & H & H1 & _ & _ & _ & H2 & _ & _ & _ & _ & _ & _ & _ & H3 & _).
  - intros k; simpl; lra.
  - exists s', e'; split; [exact H|]; split; [exact H1|].
    split; [exact H2 | exact H3].
Defined.
